(** * Outlook to-do synchroniser: a shallow embedding and its properties

    The development follows the Python package [outlook_todo]:

    - [models.py]    the [TodoItem] record, its validation and its
                     dictionary form ([to_dict] / [from_dict]);
    - [storage.py]   [TodoStorage], an insertion-ordered dictionary of items
                     backed by one JSON document;
    - [graph.py]     the gateway ([GraphClient]) and the conversion of a
                     fetched message to the arguments of [TodoItem];
    - [markdown.py]  the Markdown rendering of one item;
    - [todo_app.py]  [OutlookTodoApp]: synchronisation, completion, manual
                     additions and the per-item Markdown export.

    Conventions.  A Python [str] is a [string], one character per code point
    (code points below 256).  The fields of [TodoItem] carry the types of
    their annotations, and a message of the gateway the types of the mail
    API.  A Python exception is a value of [exn]; an operation that may
    raise returns a [result].  Operations of the application run in a state
    monad over the [World]: a raised exception keeps the mutations made
    before it, as in Python.  The command line ([cli.py]), the
    configuration ([config.py]) and the HTTP calls of the real gateway are
    outside the development: the gateway is an interface, [GraphClient],
    with the in-memory client of [graph.py] as an instance. *)

From Stdlib Require Import ZArith Ascii Lia.
From stdpp Require Import base option list gmap strings pretty sorting.

Local Open Scope Z_scope.

(** ** Exceptions and results *)

Inductive exn : Type :=
| KeyError
| ValueError
| TypeError
| GraphApiError (status_code : Z).

Inductive result (A : Type) : Type :=
| Ok (a : A)
| Raise (e : exn).
Arguments Ok {A} a.
Arguments Raise {A} e.

Definition rbind {A B} (r : result A) (k : A → result B) : result B :=
  match r with
  | Ok a => k a
  | Raise e => Raise e
  end.

Declare Scope result_scope.
Delimit Scope result_scope with result.
Notation "'let?' x := r 'in' k" := (rbind r (λ x, k))
  (at level 10, x pattern, r at level 100, k at level 200,
   format "'[v' 'let?'  x  :=  r  'in' '/' k ']'") : result_scope.
Local Open Scope result_scope.

Definition is_Ok {A} (r : result A) : bool :=
  match r with Ok _ => true | Raise _ => false end.

(** ** Strings, the Python way *)

Module Str.

(** [s[:n]] *)
Fixpoint take (n : nat) (s : string) : string :=
  match n, s with
  | S n, String c s => String c (take n s)
  | _, _ => ""
  end.

(** [s[n:]] *)
Fixpoint drop (n : nat) (s : string) : string :=
  match n, s with
  | S n, String _ s => drop n s
  | _, _ => s
  end.

(** [s.find(c)]: the index of the first [c]. *)
Fixpoint find (c : ascii) (s : string) : option nat :=
  match s with
  | "" => None
  | String a s => if Ascii.eqb a c then Some 0%nat else S <$> find c s
  end.

(** [s[i]] *)
Fixpoint get (i : nat) (s : string) : option ascii :=
  match s, i with
  | "", _ => None
  | String a _, O => Some a
  | String _ s, S i => get i s
  end.

(** [s.endswith(c)] for a one-character suffix. *)
Fixpoint ends_with (c : ascii) (s : string) : bool :=
  match s with
  | "" => false
  | String a "" => Ascii.eqb a c
  | String _ s => ends_with c s
  end.

(** [s[:-1]] *)
Fixpoint drop_last (s : string) : string :=
  match s with
  | "" => ""
  | String _ "" => ""
  | String a s => String a (drop_last s)
  end.

(** [s.replace(c, t)] for a one-character pattern. *)
Fixpoint replace (c : ascii) (t : string) (s : string) : string :=
  match s with
  | "" => ""
  | String a s =>
      if Ascii.eqb a c then t +:+ replace c t s else String a (replace c t s)
  end.

(** [str.isspace] on one character: the white space of Unicode below 256. *)
Definition is_space (c : ascii) : bool :=
  let n := N_of_ascii c in
  ((9 <=? n) && (n <=? 13) || (28 <=? n) && (n <=? 32)
   || (n =? 133) || (n =? 160))%N.

Fixpoint lstrip (s : string) : string :=
  match s with
  | "" => ""
  | String a s' => if is_space a then lstrip s' else s
  end.

(** [rstrip] keeps a character when it is not a space or when something
    is kept after it. *)
Fixpoint rstrip (s : string) : string :=
  match s with
  | "" => ""
  | String a s' =>
      match rstrip s' with
      | "" => if is_space a then "" else String a ""
      | r => String a r
      end
  end.

(** [s.strip()] *)
Definition strip (s : string) : string := rstrip (lstrip s).

(** [sep.join(l)] *)
Fixpoint join (sep : string) (l : list string) : string :=
  match l with
  | [] => ""
  | [s] => s
  | s :: l => s +:+ sep +:+ join sep l
  end.

(** Truth value of a string: non-empty. *)
Definition truthy (s : string) : bool :=
  match s with "" => false | _ => true end.

(** Map over the characters. *)
Fixpoint map (f : ascii → ascii) (s : string) : string :=
  match s with
  | "" => ""
  | String a s => String (f a) (map f s)
  end.

End Str.

(** ** Dates and times

    A [datetime] holds its calendar fields and, when aware, the offset of
    its [tzinfo] from UTC as a [timedelta] in microseconds: the [tzinfo] of
    an aware datetime is a fixed offset, a [datetime.timezone], which is
    what [fromisoformat] and [datetime.now(timezone.utc)] give. *)

Definition timedelta := Z.

Record datetime : Type := mk_datetime {
  year : Z; month : Z; day : Z;
  hour : Z; minute : Z; second : Z; microsecond : Z;
  tzinfo : option timedelta;
}.

Global Instance datetime_eq_dec : EqDecision datetime.
Proof. solve_decision. Defined.

Definition utc : timedelta := 0.

(** [dt.replace(tzinfo=tz)] *)
Definition replace_tzinfo (d : datetime) (tz : option timedelta) : datetime :=
  mk_datetime (year d) (month d) (day d) (hour d) (minute d) (second d)
    (microsecond d) tz.

Definition is_leap (y : Z) : bool :=
  (y mod 4 =? 0) && (negb (y mod 100 =? 0) || (y mod 400 =? 0)).

Definition days_in_month (y m : Z) : Z :=
  if m =? 2 then (if is_leap y then 29 else 28)
  else if (m =? 4) || (m =? 6) || (m =? 9) || (m =? 11) then 30
  else 31.

Definition day_us : Z := 86400 * 1000000.

(** The range checks of [timezone(offset)]: strictly within one day. *)
Definition offset_ok (off : timedelta) : bool :=
  (- day_us <? off) && (off <? day_us).

(** The range checks of the constructor [datetime(...)]. *)
Definition fields_ok (y mo d h mi s us : Z) : bool :=
  (1 <=? y) && (y <=? 9999) && (1 <=? mo) && (mo <=? 12)
  && (1 <=? d) && (d <=? days_in_month y mo)
  && (0 <=? h) && (h <=? 23) && (0 <=? mi) && (mi <=? 59)
  && (0 <=? s) && (s <=? 59) && (0 <=? us) && (us <=? 999999).

(** A value of [datetime] that Python can hold. *)
Definition dt_valid (d : datetime) : bool :=
  fields_ok (year d) (month d) (day d) (hour d) (minute d) (second d)
    (microsecond d)
  && match tzinfo d with None => true | Some off => offset_ok off end.

Definition aware (d : datetime) : bool :=
  match tzinfo d with Some _ => true | None => false end.

(** Days before the first of January of year [y], as [_days_before_year]. *)
Definition days_before_year (y : Z) : Z :=
  let p := y - 1 in p * 365 + p / 4 - p / 100 + p / 400.

Fixpoint days_before_month_go (y : Z) (m : nat) : Z :=
  match m with
  | O => 0
  | S m' => days_before_month_go y m' + days_in_month y (Z.of_nat m)
  end.

Definition days_before_month (y m : Z) : Z :=
  days_before_month_go y (Z.to_nat (m - 1)).

(** Proleptic Gregorian ordinal, as [_ymd2ord]. *)
Definition ymd2ord (y m d : Z) : Z :=
  days_before_year y + days_before_month y m + d.

(** Microseconds of the fields since the start of ordinal 0. *)
Definition local_us (d : datetime) : Z :=
  (((ymd2ord (year d) (month d) (day d) * 24 + hour d) * 60 + minute d) * 60
   + second d) * 1000000 + microsecond d.

(** The point in time that orders two datetimes of the same kind: aware
    ones are compared after their offsets are subtracted. *)
Definition instant (d : datetime) : Z :=
  match tzinfo d with
  | None => local_us d
  | Some off => local_us d - off
  end.

(** ** ISO-8601 text of a datetime

    [isoformat] prints [YYYY-MM-DDTHH:MM:SS[.ffffff][+HH:MM[:SS[.ffffff]]]];
    [fromisoformat] reads the format
    [YYYY-MM-DD[*HH[:MM[:SS[.fff[fff]]]][+HH:MM[:SS[.ffffff]]]]], the
    inverse of [isoformat], following [Lib/datetime.py] of Python 3.7 to
    3.10 (later versions read more texts, among them a trailing ["Z"]); a
    numeric field is a run of ASCII digits. *)

Definition digit_char (k : Z) : ascii := ascii_of_N (48 + Z.to_N k).

Definition digit_val (c : ascii) : option Z :=
  let n := N_of_ascii c in
  if ((48 <=? n) && (n <=? 57))%N then Some (Z.of_N n - 48) else None.

(** ["%02d" % n] in front of [rest], for a field below 100. *)
Definition put2 (n : Z) (rest : string) : string :=
  String (digit_char (n / 10)) (String (digit_char (n mod 10)) rest).

(** ["%04d" % n] *)
Definition put4 (n : Z) (rest : string) : string :=
  put2 (n / 100) (put2 (n mod 100) rest).

(** ["%06d" % n] *)
Definition put6 (n : Z) (rest : string) : string :=
  put2 (n / 10000) (put2 (n / 100 mod 100) (put2 (n mod 100) rest)).

(** [_format_time] with [timespec='auto']. *)
Definition format_time (h mi s us : Z) (rest : string) : string :=
  put2 h (String ":" (put2 mi (String ":" (put2 s
    (if us =? 0 then rest else String "." (put6 us rest)))))).

(** The length of the text of [_format_time]. *)
Definition time_len (us : Z) : nat := if us =? 0 then 8%nat else 15%nat.

Definition hour_us : Z := 3600 * 1000000.
Definition minute_us : Z := 60 * 1000000.

(** [_format_offset], after the sign: [HH:MM[:SS[.ffffff]]] of a
    non-negative offset. *)
Definition format_offset_abs (off : timedelta) (rest : string) : string :=
  let hh := off / hour_us in
  let mm := off mod hour_us / minute_us in
  let ss := off mod hour_us mod minute_us in
  put2 hh (String ":" (put2 mm
    (if ss =? 0 then rest
     else String ":" (put2 (ss / 1000000)
            (if ss mod 1000000 =? 0 then rest
             else String "." (put6 (ss mod 1000000) rest)))))).

(** [_format_offset] *)
Definition format_offset (tz : option timedelta) (rest : string) : string :=
  match tz with
  | None => rest
  | Some off =>
      if off <? 0 then String "-" (format_offset_abs (- off) rest)
      else String "+" (format_offset_abs off rest)
  end.

(** [datetime.isoformat()] *)
Definition isoformat (d : datetime) : string :=
  put4 (year d) (String "-" (put2 (month d) (String "-" (put2 (day d)
    (String "T" (format_time (hour d) (minute d) (second d) (microsecond d)
      (format_offset (tzinfo d) ""))))))).

(** [int(s)] on a run of digits. *)
Fixpoint parse_digits_go (acc : Z) (s : string) : option Z :=
  match s with
  | "" => Some acc
  | String c s =>
      match digit_val c with
      | Some v => parse_digits_go (10 * acc + v) s
      | None => None
      end
  end.

Definition parse_digits (s : string) : option Z :=
  match s with
  | "" => None
  | _ => parse_digits_go 0 s
  end.

Definition two_digits (a b : ascii) : option Z :=
  parse_digits (String a (String b "")).

Definition int_or_ValueError (o : option Z) : result Z :=
  match o with
  | Some v => Ok v
  | None => Raise ValueError
  end.

(** [_parse_isoformat_date], on the first ten characters. *)
Definition parse_isoformat_date (dstr : string) : result (Z * Z * Z) :=
  match dstr with
  | String y1 (String y2 (String y3 (String y4 (String s1
      (String m1 (String m2 (String s2 (String d1 (String d2 ""))))))))) =>
      let? y := int_or_ValueError
                  (parse_digits (String y1 (String y2 (String y3 (String y4 ""))))) in
      if negb (Ascii.eqb s1 "-") then Raise ValueError else
      let? m := int_or_ValueError (two_digits m1 m2) in
      if negb (Ascii.eqb s2 "-") then Raise ValueError else
      let? d := int_or_ValueError (two_digits d1 d2) in
      Ok (y, m, d)
  | _ => Raise ValueError
  end.

(** The fraction after the seconds: nothing, or a dot and three or six
    digits. *)
Definition parse_fraction (s : string) : result Z :=
  match s with
  | "" => Ok 0
  | String c f =>
      if negb (Ascii.eqb c ".") then Raise ValueError else
      match String.length f with
      | 3%nat => let? v := int_or_ValueError (parse_digits f) in Ok (v * 1000)
      | 6%nat => int_or_ValueError (parse_digits f)
      | _ => Raise ValueError
      end
  end.

(** [_parse_hh_mm_ss_ff]: [HH[:MM[:SS[.fff[fff]]]]]. *)
Definition parse_hh_mm_ss_ff (tstr : string) : result (Z * Z * Z * Z) :=
  match tstr with
  | String h1 (String h2 r) =>
      let? hh := int_or_ValueError (two_digits h1 h2) in
      match r with
      | "" => Ok (hh, 0, 0, 0)
      | String c (String m1 (String m2 r)) =>
          if negb (Ascii.eqb c ":") then Raise ValueError else
          let? mm := int_or_ValueError (two_digits m1 m2) in
          match r with
          | "" => Ok (hh, mm, 0, 0)
          | String c (String s1 (String s2 r)) =>
              if negb (Ascii.eqb c ":") then Raise ValueError else
              let? ss := int_or_ValueError (two_digits s1 s2) in
              let? us := parse_fraction r in
              Ok (hh, mm, ss, us)
          | _ => Raise ValueError
          end
      | _ => Raise ValueError
      end
  | _ => Raise ValueError
  end.

(** [timezone(offset)] *)
Definition timezone (off : timedelta) : result timedelta :=
  if offset_ok off then Ok off else Raise ValueError.

(** The position of the sign that starts the offset:
    [tstr.find('-') + 1 or tstr.find('+') + 1], less one. *)
Definition tz_pos (tstr : string) : option nat :=
  match Str.find "-" tstr with
  | Some p => Some p
  | None => Str.find "+" tstr
  end.

(** [_parse_isoformat_time] *)
Definition parse_isoformat_time (tstr : string)
  : result (Z * Z * Z * Z * option timedelta) :=
  if (String.length tstr <? 2)%nat then Raise ValueError else
  match tz_pos tstr with
  | None =>
      let? comps := parse_hh_mm_ss_ff tstr in Ok (comps, None)
  | Some p =>
      let? comps := parse_hh_mm_ss_ff (Str.take p tstr) in
      let tzstr := Str.drop (S p) tstr in
      let n := String.length tzstr in
      if negb ((n =? 5) || (n =? 8) || (n =? 15))%nat then Raise ValueError else
      let? (th, tm, ts, tus) := parse_hh_mm_ss_ff tzstr in
      if (th =? 0) && (tm =? 0) && (ts =? 0) && (tus =? 0)
      then Ok (comps, Some utc)
      else
        let tzsign := if bool_decide (Str.get p tstr = Some "-"%char)
                      then -1 else 1 in
        let td := th * hour_us + tm * minute_us + ts * 1000000 + tus in
        let? tz := timezone (tzsign * td) in
        Ok (comps, Some tz)
  end.

(** The constructor [datetime(year, ..., tzinfo)] with its range checks. *)
Definition datetime_new (y mo d h mi s us : Z) (tz : option timedelta)
  : result datetime :=
  if fields_ok y mo d h mi s us then Ok (mk_datetime y mo d h mi s us tz)
  else Raise ValueError.

(** [datetime.fromisoformat(date_string)] *)
Definition fromisoformat (date_string : string) : result datetime :=
  let dstr := Str.take 10 date_string in
  let tstr := Str.drop 11 date_string in
  let? (y, mo, d) := parse_isoformat_date dstr in
  let? (h, mi, s, us, tz) :=
    match tstr with
    | "" => Ok (0, 0, 0, 0, None)
    | _ => parse_isoformat_time tstr
    end in
  datetime_new y mo d h mi s us tz.

(** ** [models.py] *)

(** The values held by the dictionary form of an item. *)
Inductive pyval : Type :=
| PNone
| PBool (b : bool)
| PStr (s : string).

Global Instance pyval_eq_dec : EqDecision pyval.
Proof. solve_decision. Defined.

(** [_ensure_tz] *)
Definition _ensure_tz (value : datetime) : result datetime :=
  match tzinfo value with
  | None => Raise ValueError
  | Some _ => Ok value
  end.

(** [_parse_datetime] *)
Definition _parse_datetime (value : string) : result datetime :=
  let value :=
    if Str.ends_with "Z" value then Str.replace "Z" "+00:00" value else value in
  fromisoformat value.

Record TodoItem : Type := mk_TodoItem {
  message_id : string;
  subject : string;
  sender : string;
  received_at : datetime;
  scheduled_for : datetime;
  body_preview : string;
  web_link : option string;
  completed : bool;
  created_at : datetime;
}.

Global Instance TodoItem_eq_dec : EqDecision TodoItem.
Proof. solve_decision. Defined.

(** The generated [__init__] followed by [__post_init__].  The caller
    passes every field; where Python takes a default, the caller passes it
    ([created_at]: the reading of the clock). *)
Definition TodoItem_new (message_id subject sender : string)
    (received_at scheduled_for : datetime) (body_preview : string)
    (web_link : option string) (completed : bool) (created_at : datetime)
  : result TodoItem :=
  let? received_at := _ensure_tz received_at in
  let? scheduled_for := _ensure_tz scheduled_for in
  let created_at :=
    match tzinfo created_at with
    | None => replace_tzinfo created_at (Some utc)
    | Some _ => created_at
    end in
  Ok (mk_TodoItem message_id subject sender received_at scheduled_for
        body_preview web_link completed created_at).

(** [item.completed = True] *)
Definition set_completed (t : TodoItem) (c : bool) : TodoItem :=
  mk_TodoItem (message_id t) (subject t) (sender t) (received_at t)
    (scheduled_for t) (body_preview t) (web_link t) c (created_at t).

Definition opt_str (o : option string) : pyval :=
  match o with
  | None => PNone
  | Some s => PStr s
  end.

(** [TodoItem.to_dict] *)
Definition to_dict (t : TodoItem) : gmap string pyval :=
  list_to_map
    [ ("message_id", PStr (message_id t));
      ("subject", PStr (subject t));
      ("sender", PStr (sender t));
      ("received_at", PStr (isoformat (received_at t)));
      ("scheduled_for", PStr (isoformat (scheduled_for t)));
      ("body_preview", PStr (body_preview t));
      ("web_link", opt_str (web_link t));
      ("completed", PBool (completed t));
      ("created_at", PStr (isoformat (created_at t))) ].

(** [payload[key]] *)
Definition getitem (payload : gmap string pyval) (key : string) : result pyval :=
  match payload !! key with
  | Some v => Ok v
  | None => Raise KeyError
  end.

(** [payload.get(key, default)] *)
Definition get_default (payload : gmap string pyval) (key : string)
    (default : pyval) : pyval :=
  match payload !! key with Some v => v | None => default end.

(** The annotations of [TodoItem], read at the boundary of [from_dict]: a
    value of another type than its field is refused. *)
Definition as_str (v : pyval) : result string :=
  match v with
  | PStr s => Ok s
  | _ => Raise TypeError
  end.

Definition as_opt_str (v : pyval) : result (option string) :=
  match v with
  | PStr s => Ok (Some s)
  | PNone => Ok None
  | _ => Raise TypeError
  end.

Definition as_bool (v : pyval) : result bool :=
  match v with
  | PBool b => Ok b
  | _ => Raise TypeError
  end.

(** [TodoItem.from_dict]; [now] is [datetime.now(timezone.utc)]. *)
Definition from_dict (now : datetime) (payload : gmap string pyval)
  : result TodoItem :=
  let created_raw := get_default payload "created_at" (PStr (isoformat now)) in
  let? message_id := rbind (getitem payload "message_id") as_str in
  let? subject := rbind (getitem payload "subject") as_str in
  let? sender := rbind (getitem payload "sender") as_str in
  let? received_at :=
    rbind (rbind (getitem payload "received_at") as_str) _parse_datetime in
  let? scheduled_for :=
    rbind (rbind (getitem payload "scheduled_for") as_str) _parse_datetime in
  let? body_preview := as_str (get_default payload "body_preview" (PStr "")) in
  let? web_link := as_opt_str (get_default payload "web_link" PNone) in
  let? completed := as_bool (get_default payload "completed" (PBool false)) in
  let? created_at := rbind (as_str created_raw) _parse_datetime in
  TodoItem_new message_id subject sender received_at scheduled_for
    body_preview web_link completed created_at.

(** ** Python dictionaries with their insertion order

    [TodoStorage._items] is a [dict]: iteration follows the order in which
    the keys were first inserted, and assigning to a key that is present
    keeps its place. *)

Section PyDict.
Context {V : Type}.

Definition dict : Type := list (string * V).

(** [d.get(k)] *)
Fixpoint dict_get (k : string) (d : dict) : option V :=
  match d with
  | [] => None
  | (k', v) :: d => if decide (k' = k) then Some v else dict_get k d
  end.

(** [k in d] *)
Definition dict_mem (k : string) (d : dict) : bool :=
  match dict_get k d with
  | Some _ => true
  | None => false
  end.

(** [d[k] = v] *)
Fixpoint dict_set (k : string) (v : V) (d : dict) : dict :=
  match d with
  | [] => [(k, v)]
  | (k', v') :: d =>
      if decide (k' = k) then (k, v) :: d else (k', v') :: dict_set k v d
  end.

(** [del d[k]] *)
Fixpoint dict_del (k : string) (d : dict) : dict :=
  match d with
  | [] => []
  | (k', v') :: d =>
      if decide (k' = k) then d else (k', v') :: dict_del k d
  end.

(** [d.values()] *)
Definition dict_values (d : dict) : list V := d.*2.

End PyDict.
Arguments dict V : clear implicits.

(** ** [sorted]: a stable sort that compares with [<] only

    The result of a stable sort is the same for every algorithm
    ([sorted_unique] below), so insertion stands for the sort of Python. *)

Section Sorted.
Context {A : Type} (lt : A → A → bool).

(** [x] goes in front of the first element that is not below it. *)
Fixpoint insert_sorted (x : A) (l : list A) : list A :=
  match l with
  | [] => [x]
  | y :: l' => if lt y x then y :: insert_sorted x l' else x :: l
  end.

Fixpoint sorted (l : list A) : list A :=
  match l with
  | [] => []
  | x :: l' => insert_sorted x (sorted l')
  end.

(** The order of a sorted list: no element is below one before it. *)
Definition not_after (a b : A) : Prop := lt b a = false.

End Sorted.

(** [<] on the integer keys of the elements, as with [key=...]. *)
Definition key_lt {A : Type} (key : A → Z) (a b : A) : bool := key a <? key b.

(** ** [graph.py] *)

(** A message of the mail API, with the properties the client selects:
    [id], [subject], [from], [receivedDateTime], [bodyPreview], [webLink].
    [None] stands for a key that is absent or [null]; [bodyPreview] is a
    string when present.  [isRead] is the key the in-memory client sets. *)
Record EmailAddress : Type := mk_EmailAddress {
  ea_name : option string;
  ea_address : option string;
}.

Record Recipient : Type := mk_Recipient {
  emailAddress : option EmailAddress;
}.

Record Message : Type := mk_Message {
  msg_id : string;
  msg_subject : option string;
  msg_from : option Recipient;
  msg_receivedDateTime : string;
  msg_bodyPreview : option string;
  msg_webLink : option string;
  msg_isRead : bool;
}.

(** [a or b] where [a] is an optional string: [None] and [""] are false. *)
Definition str_or (a : option string) (b : string) : string :=
  match a with
  | Some s => if Str.truthy s then s else b
  | None => b
  end.

(** [GraphClient.parse_graph_datetime] *)
Definition parse_graph_datetime (value : string) : result datetime :=
  let value :=
    if Str.ends_with "Z" value then Str.drop_last value +:+ "+00:00"
    else value in
  let? dt := fromisoformat value in
  match tzinfo dt with
  | None => Ok (replace_tzinfo dt (Some utc))
  | Some _ => Ok dt
  end.

(** [GraphClient.extract_sender] *)
Definition extract_sender (message : Message) : string :=
  let from_data := default (mk_Recipient None) (msg_from message) in
  let email_address :=
    default (mk_EmailAddress None None) (emailAddress from_data) in
  str_or (ea_name email_address)
    (str_or (ea_address email_address) "Unknown sender").

(** The keyword arguments built by [to_todo_payload]. *)
Record TodoPayload : Type := mk_TodoPayload {
  p_message_id : string;
  p_subject : string;
  p_sender : string;
  p_received_at : datetime;
  p_scheduled_for : datetime;
  p_body_preview : string;
  p_web_link : option string;
}.

(** [GraphClient.to_todo_payload] *)
Definition to_todo_payload (message : Message)
    (default_schedule : option datetime) : result TodoPayload :=
  let? received := parse_graph_datetime (msg_receivedDateTime message) in
  let scheduled := default received default_schedule in
  Ok (mk_TodoPayload
        (msg_id message)
        (str_or (msg_subject message) "(no subject)")
        (extract_sender message)
        received
        scheduled
        (default "" (msg_bodyPreview message))
        (msg_webLink message)).

(** [TodoItem] called with the payload as its keyword arguments:
    [completed] at its default and [created_at] at the reading [now] of the
    clock. *)
Definition TodoItem_of_payload (payload : TodoPayload) (now : datetime)
  : result TodoItem :=
  TodoItem_new (p_message_id payload) (p_subject payload) (p_sender payload)
    (p_received_at payload) (p_scheduled_for payload) (p_body_preview payload)
    (p_web_link payload) false now.

(** The gateway: the two calls of [GraphClient] that reach the mail API,
    over the state [G] of an implementation. *)
Class GraphClient (G : Type) : Type := {
  fetch_unread_emails : Z → G → G * result (list Message);
  mark_email_as_read : string → G → G * result unit;
}.

(** [l[:limit]], negative limits counting from the end. *)
Definition slice_to {A} (limit : Z) (l : list A) : list A :=
  if 0 <=? limit then take (Z.to_nat limit) l
  else take (length l - Z.to_nat (- limit)) l.

Definition set_isRead (m : Message) : Message :=
  mk_Message (msg_id m) (msg_subject m) (msg_from m) (msg_receivedDateTime m)
    (msg_bodyPreview m) (msg_webLink m) true.

(** The loop of [InMemoryGraphClient.mark_email_as_read]. *)
Fixpoint mark_first (message_id : string) (messages : list Message)
  : list Message :=
  match messages with
  | [] => []
  | m :: rest =>
      if decide (msg_id m = message_id) then set_isRead m :: rest
      else m :: mark_first message_id rest
  end.

(** [InMemoryGraphClient]: its state is the list [self.messages]. *)
Global Instance InMemoryGraphClient : GraphClient (list Message) := {
  fetch_unread_emails limit messages := (messages, Ok (slice_to limit messages));
  mark_email_as_read message_id messages :=
    (mark_first message_id messages, Ok ());
}.

(** A stand-in for the gateway that raises whenever it is called. *)
Inductive Unreachable : Type := unreachable.

Global Instance UnreachableGraphClient : GraphClient Unreachable := {
  fetch_unread_emails _ g := (g, Raise (GraphApiError 503));
  mark_email_as_read _ g := (g, Raise (GraphApiError 503));
}.

(** ** The state of a run

    [storage_items] is [TodoStorage._items]; [storage_file] is the content
    of the document at [TodoStorage.path] ([None]: no file), a JSON array
    held as the list of its dictionaries; [graph] is the state of the
    gateway; [ticks] counts the readings of the clock.  [log] is the trace
    of the calls that leave the process: it is not part of the program and
    records, in order, each call of the gateway and each [save]. *)

Inductive event : Type :=
| EvFetch (limit : Z)
| EvMarkRead (message_id : string)
| EvSave.

Global Instance event_eq_dec : EqDecision event.
Proof. solve_decision. Defined.

Record World (G : Type) : Type := mk_World {
  storage_items : dict TodoItem;
  storage_file : option (list (gmap string pyval));
  graph : G;
  ticks : nat;
  log : list event;
}.
Arguments mk_World {G}.
Arguments storage_items {G}.
Arguments storage_file {G}.
Arguments graph {G}.
Arguments ticks {G}.
Arguments log {G}.

(** [self._items = items] *)
Definition with_items {G} (items : dict TodoItem) (w : World G) : World G :=
  mk_World items (storage_file w) (graph w) (ticks w) (log w).

(** One more reading of the clock. *)
Definition tick {G} (w : World G) : World G :=
  mk_World (storage_items w) (storage_file w) (graph w) (S (ticks w)) (log w).

(** Computations that read and change the world and may raise. *)
Definition M (G A : Type) : Type := World G → World G * result A.

Definition ret {G A} (a : A) : M G A := λ w, (w, Ok a).

Definition raise {G A} (e : exn) : M G A := λ w, (w, Raise e).

Definition bind {G A B} (m : M G A) (k : A → M G B) : M G B :=
  λ w, match m w with
       | (w', Ok a) => k a w'
       | (w', Raise e) => (w', Raise e)
       end.

(** A pure computation that may raise. *)
Definition lift {G A} (r : result A) : M G A := λ w, (w, r).

Declare Scope world_scope.
Delimit Scope world_scope with world.
Notation "x <- m ;; k" := (bind m (λ x, k))
  (at level 100, m at next level, right associativity) : world_scope.
Notation "m ;; k" := (bind m (λ _, k))
  (at level 100, right associativity) : world_scope.

(** ** [storage.py] *)

Module TodoStorage.
Section Storage.
Context {G : Type}.
Local Open Scope world_scope.

(** [TodoStorage.save]: every held item, in the order of [_items]. *)
Definition save : M G unit := λ w,
  let serialised := to_dict <$> dict_values (storage_items w) in
  (mk_World (storage_items w) (Some serialised) (graph w) (ticks w)
     (log w ++ [EvSave]), Ok ()).

Definition set_items (items : dict TodoItem) : M G unit := λ w,
  (with_items items w, Ok ()).

Definition get_items : M G (dict TodoItem) := λ w, (w, Ok (storage_items w)).

(** [TodoStorage.add] *)
Definition add (item : TodoItem) (overwrite : bool) : M G unit :=
  items <- get_items ;;
  if negb overwrite && dict_mem (message_id item) items then raise KeyError
  else set_items (dict_set (message_id item) item items).

(** [TodoStorage.get] *)
Definition get (message_id : string) : M G (option TodoItem) :=
  items <- get_items ;; ret (dict_get message_id items).

(** [TodoStorage.update] *)
Definition update (item : TodoItem) : M G unit :=
  items <- get_items ;;
  if negb (dict_mem (message_id item) items) then raise KeyError
  else set_items (dict_set (message_id item) item items).

(** [TodoStorage.remove] *)
Definition remove (message_id : string) : M G unit :=
  items <- get_items ;;
  if dict_mem message_id items then set_items (dict_del message_id items)
  else ret ().

(** The comparisons of a sort raise [TypeError] as soon as two of the
    keys are a naive and an aware datetime. *)
Definition comparable (l : list datetime) : bool :=
  (length l <=? 1)%nat || forallb aware l || forallb (λ d, negb (aware d)) l.

(** [<] on [scheduled_for]; two aware datetimes compare as instants. *)
Definition scheduled_lt : TodoItem → TodoItem → bool :=
  key_lt (λ item, instant (scheduled_for item)).

Definition all_of (items : dict TodoItem) : result (list TodoItem) :=
  let values := dict_values items in
  if comparable (scheduled_for <$> values)
  then Ok (sorted scheduled_lt values)
  else Raise TypeError.

(** What the constructor of [TodoItem] gives to every store of its records:
    each [scheduled_for] is aware. *)
Definition well_formed (items : dict TodoItem) : bool :=
  forallb (λ item, aware (scheduled_for item)) (dict_values items).

(** [TodoStorage.all] *)
Definition all : M G (list TodoItem) :=
  items <- get_items ;; lift (all_of items).

(** [TodoStorage.extend] *)
Fixpoint extend (items : list TodoItem) (overwrite : bool) : M G unit :=
  match items with
  | [] => ret ()
  | item :: items => add item overwrite ;; extend items overwrite
  end.

(** [TodoStorage.__contains__] *)
Definition contains (message_id : string) : M G bool :=
  items <- get_items ;; ret (dict_mem message_id items).

End Storage.
End TodoStorage.

(** ** [markdown.py] and [todo_app.py] *)

Definition nl : string := String "010" "".

(** The status glyphs, held as their UTF-8 bytes. *)
Definition done_label : string := "✅ Done".
Definition pending_label : string := "⬜ Pending".

Definition is_safe_char (c : ascii) : bool :=
  let n := N_of_ascii c in
  ((65 <=? n) && (n <=? 90) || (97 <=? n) && (n <=? 122)
   || (48 <=? n) && (n <=? 57) || (n =? 46) || (n =? 95) || (n =? 45))%N.

(** [_safe_component]: [re.sub(r"[^A-Za-z0-9._-]", "_", value.strip() or "task")] *)
Definition _safe_component (value : string) : string :=
  let value := if Str.truthy (Str.strip value) then Str.strip value else "task" in
  Str.map (λ c, if is_safe_char c then c else "_"%char) value.

(** [_filename_for] *)
Definition _filename_for (item : TodoItem) : string :=
  let subject_slug := _safe_component (subject item) in
  let id_slug := _safe_component (message_id item) in
  subject_slug +:+ "-" +:+ id_slug +:+ ".md".

(** [s.endswith(suffix)] *)
Fixpoint has_suffix (suffix s : string) : bool :=
  if bool_decide (s = suffix) then true
  else match s with
       | "" => false
       | String _ s' => has_suffix suffix s'
       end.

(** The names that [glob("*.md")] matches. *)
Definition is_md (name : string) : bool := has_suffix ".md" name.

Module OutlookTodoApp.
Section App.
Context {G : Type} `{!GraphClient G}.

(** [datetime.now()]: the readings of the clock, one per call. *)
Variable clock : nat → datetime.

(** [markdown.format_datetime]: the text of a datetime in the local time
    zone of the machine. *)
Variable format_datetime : datetime → string.

Local Open Scope world_scope.
Import TodoStorage.

(** [datetime.now(timezone.utc)] *)
Definition now_utc : M G datetime := λ w,
  (tick w, Ok (replace_tzinfo (clock (ticks w)) (Some utc))).

(** The world after a call of the gateway that leaves it in state [g]. *)
Definition called (e : event) (g : G) (w : World G) : World G :=
  mk_World (storage_items w) (storage_file w) g (ticks w) (log w ++ [e]).

(** [self.graph_client.fetch_unread_emails(limit=limit)] *)
Definition graph_fetch (limit : Z) : M G (list Message) := λ w,
  let (g, r) := fetch_unread_emails limit (graph w) in
  (called (EvFetch limit) g w, r).

(** [self.graph_client.mark_email_as_read(message_id)] *)
Definition graph_mark_read (message_id : string) : M G unit := λ w,
  let (g, r) := mark_email_as_read message_id (graph w) in
  (called (EvMarkRead message_id) g w, r).

(** [markdown.item_to_markdown] *)
Definition item_to_markdown (item : TodoItem) : string :=
  let status_label := if completed item then done_label else pending_label in
  let lines :=
    [ "# " +:+ (if Str.truthy (subject item) then subject item
                else "(no subject)");
      "";
      "- **Sender:** " +:+ sender item;
      "- **Received:** " +:+ format_datetime (received_at item);
      "- **Scheduled:** " +:+ format_datetime (scheduled_for item);
      "- **Status:** " +:+ status_label ] in
  let lines :=
    match web_link item with
    | Some l => if Str.truthy l then lines ++ ["- **Link:** " +:+ l] else lines
    | None => lines
    end in
  let lines :=
    if Str.truthy (body_preview item)
    then lines ++ [""; "## Preview"; ""; body_preview item]
    else lines in
  Str.strip (Str.join nl lines) +:+ nl.

(** The loop of [sync_unread_emails] over the fetched messages. *)
Fixpoint sync_messages (messages : list Message)
    (schedule_for : option datetime) (new_items : list TodoItem)
  : M G (list TodoItem) :=
  match messages with
  | [] => ret new_items
  | message :: messages =>
      let message_id := msg_id message in
      known <- contains message_id ;;
      if known then sync_messages messages schedule_for new_items
      else
        payload <- lift (to_todo_payload message schedule_for) ;;
        now <- now_utc ;;
        todo <- lift (TodoItem_of_payload payload now) ;;
        add todo true ;;
        sync_messages messages schedule_for (new_items ++ [todo])
  end.

(** [OutlookTodoApp.sync_unread_emails] *)
Definition sync_unread_emails (limit : Z) (schedule_for : option datetime)
  : M G (list TodoItem) :=
  messages <- graph_fetch limit ;;
  new_items <- sync_messages messages schedule_for [] ;;
  match new_items with
  | [] => ret new_items
  | _ => save ;; ret new_items
  end.

(** [OutlookTodoApp.list_items] *)
Definition list_items : M G (list TodoItem) := all.

(** [OutlookTodoApp.mark_done].  [item] is the object held by the store
    under [message_id]: setting its [completed] changes the store's entry
    at once, before [update] assigns it again. *)
Definition mark_done (message_id : string) : M G TodoItem :=
  found <- get message_id ;;
  match found with
  | None => raise KeyError
  | Some item =>
      if completed item then ret item
      else
        graph_mark_read message_id ;;
        let item := set_completed item true in
        items <- get_items ;;
        set_items (dict_set message_id item items) ;;
        update item ;;
        save ;;
        ret item
  end.

(** The writes of [export_active_markdown], in the order of the items. *)
Fixpoint write_items (items : list TodoItem) (dir : gmap string string)
    (written_paths : list string) : gmap string string * list string :=
  match items with
  | [] => (dir, written_paths)
  | item :: items =>
      let filename := _filename_for item in
      write_items items (<[filename := item_to_markdown item]> dir)
        (written_paths ++ [filename])
  end.

(** [OutlookTodoApp.export_active_markdown].  [output_dir] is the content
    of the directory, a map from the names of its regular files to their
    text (empty when the directory is created by the call); a path below
    it is held as its file name, and paths compare as their names do. *)
Definition export_active_markdown (output_dir : gmap string string)
  : M G (gmap string string * list string) :=
  items <- all ;;
  let active_items := filter (λ item, completed item = false) items in
  let '(dir, written_paths) := write_items active_items output_dir [] in
  let existing_files : gset string := filter (λ p, is_md p) (dom dir) in
  let dir :=
    set_fold (λ path dir, delete path dir) dir
      (existing_files ∖ list_to_set written_paths) in
  ret (dir, sorted String.ltb written_paths).

(** [OutlookTodoApp.add_manual_item] *)
Definition add_manual_item (subject sender : string)
    (scheduled_for : datetime) (body_preview : string)
    (web_link : option string) : M G TodoItem :=
  items <- all ;;
  let message_id := "manual-" +:+ pretty (length items + 1)%nat in
  now <- now_utc ;;
  todo <- lift (TodoItem_new message_id subject sender scheduled_for
                  scheduled_for body_preview web_link false now) ;;
  add todo true ;;
  save ;;
  ret todo.

End App.
End OutlookTodoApp.

(** ** Loading the store ([TodoStorage.__init__], [TodoStorage._load]) *)

Section Load.
Context {G : Type}.
Variable clock : nat → datetime.
Local Open Scope world_scope.

(** The dictionary comprehension of [_load]: for each element of the
    document, its key, then its item ([from_dict] reads the clock). *)
Fixpoint load_items (data : list (gmap string pyval)) (acc : dict TodoItem)
  : M G (dict TodoItem) :=
  match data with
  | [] => ret acc
  | item_data :: data =>
      key <- lift (rbind (getitem item_data "message_id") as_str) ;;
      now <- OutlookTodoApp.now_utc clock ;;
      item <- lift (from_dict now item_data) ;;
      load_items data (dict_set key item acc)
  end.

(** [TodoStorage._load], on the document [data] read from [path]:
    [_items] is assigned when every element has been read. *)
Definition _load (data : list (gmap string pyval)) : M G unit :=
  items <- load_items data [] ;;
  TodoStorage.set_items items.

(** [TodoStorage.__init__]: no items, then [_load] if the file exists. *)
Definition TodoStorage_init : M G unit :=
  TodoStorage.set_items [] ;;
  (λ w, match storage_file w with
        | Some data => _load data w
        | None => ret () w
        end).

End Load.

(** A record as the constructor and Python give it: three aware
    timestamps with fields and offsets in range. *)
Definition TodoItem_ok (item : TodoItem) : bool :=
  dt_valid (received_at item) && aware (received_at item)
  && dt_valid (scheduled_for item) && aware (scheduled_for item)
  && dt_valid (created_at item) && aware (created_at item).

(** A dictionary of items as [TodoStorage] builds it: every item under its
    own [message_id], no key twice. *)
Definition keyed (items : dict TodoItem) : Prop :=
  NoDup items.*1 ∧ Forall (λ kv, kv.1 = message_id kv.2) items.

(** What every operation of the store and of the application keeps true
    of the items held: they are keyed, and every [scheduled_for] is
    aware. *)
Definition store_ok {G} (w : World G) : Prop :=
  keyed (storage_items w) ∧ TodoStorage.well_formed (storage_items w) = true.

(** The world after [n] more readings of the clock. *)
Definition advance {G} (n : nat) (w : World G) : World G :=
  mk_World (storage_items w) (storage_file w) (graph w) (ticks w + n) (log w).

(** A store that can be written to the file and read back: keyed, with
    records whose timestamps are aware and in range. *)
Definition store_valid {G} (w : World G) : Prop :=
  keyed (storage_items w)
  ∧ Forall (λ t, TodoItem_ok t = true) (dict_values (storage_items w)).

(** A new [TodoStorage] on the file of [w] holds the items of [w]: the
    program can be started again without a loss. *)
Definition reloads {G} (clock : nat → datetime) (w : World G) : Prop :=
  ∃ w', TodoStorage_init clock w = (w', Ok ())
        ∧ storage_items w' = storage_items w
        ∧ storage_file w' = storage_file w.

(** A text made of the characters that [_safe_component] keeps. *)
Definition safe_text (s : string) : Prop :=
  Forall (λ c, is_safe_char c = true) (String.list_ascii_of_string s).

(** ** The table of [markdown.py] *)

Definition done_glyph : string := "✅".
Definition pending_glyph : string := "⬜".

(** [text.replace("|", r"\|")] *)
Definition escape_pipes (text : string) : string := Str.replace "|" "\|" text.

Section Table.
Variable format_datetime : datetime → string.

(** One row of the loop of [to_markdown]. *)
Definition table_row (item : TodoItem) : string :=
  let subject := escape_pipes (subject item) in
  let sender := escape_pipes (sender item) in
  let scheduled := format_datetime (scheduled_for item) in
  let status := if completed item then done_glyph else pending_glyph in
  "| " +:+ subject +:+ " | " +:+ sender +:+ " | " +:+ scheduled +:+ " | "
  +:+ status +:+ " |".

(** The list [rows] of [to_markdown] before it is joined. *)
Definition table_rows (items : list TodoItem) : list string :=
  let rows :=
    [ "| Subject | Sender | Scheduled | Status |";
      "| --- | --- | --- | --- |" ] ++ (table_row <$> items) in
  if (length rows =? 2)%nat
  then rows ++ ["| _No tasks available_ |  |  |  |"]
  else rows.

(** [markdown.to_markdown] *)
Definition to_markdown (items : list TodoItem) : string :=
  Str.join nl (table_rows items).

(** [OutlookTodoApp.export_markdown_string] *)
Definition export_markdown_string {G : Type} : M G string :=
  (items <- TodoStorage.all ;; ret (to_markdown items))%world.

End Table.

(** ** The handlers of [cli.py]

    A handler prints only after the call of the application has returned,
    so its output is held with its exit code: the lines printed, in
    order. *)

(** [cli._parse_schedule]; [local_tz] is the offset of the zone of the
    machine, [datetime.now().astimezone().tzinfo]. *)
Definition _parse_schedule (local_tz : timedelta) (value : string)
  : result datetime :=
  let? dt := fromisoformat value in
  match tzinfo dt with
  | None => Ok (replace_tzinfo dt (Some local_tz))
  | Some _ => Ok dt
  end.

Section Handlers.
Context {G : Type} `{!GraphClient G}.
Variable clock : nat → datetime.
Local Open Scope world_scope.

(** [cli.handle_sync] *)
Definition handle_sync (limit : Z) (schedule : option datetime)
  : M G (list string * Z) :=
  new_items <- OutlookTodoApp.sync_unread_emails clock limit schedule ;;
  match new_items with
  | [] => ret (["No new unread mails were found."], 0)
  | _ =>
      ret (("Imported " +:+ pretty (length new_items)
            +:+ " mail(s) into the to-do list:")
           :: ((λ item, " - " +:+ subject item +:+ " (scheduled for "
                        +:+ isoformat (scheduled_for item) +:+ ")")
               <$> new_items), 0)
  end.

(** [cli.handle_mark_done]: [KeyError] is caught, any other exception
    passes. *)
Definition handle_mark_done (message_id : string) : M G (list string * Z) :=
  λ w, match OutlookTodoApp.mark_done message_id w with
       | (w', Ok item) =>
           (w', Ok (["Marked '" +:+ subject item
                     +:+ "' as complete and flagged the original e-mail as read."],
                    0))
       | (w', Raise KeyError) =>
           (w', Ok (["No task with id " +:+ message_id +:+ " exists."], 1))
       | (w', Raise e) => (w', Raise e)
       end.

End Handlers.

(** ** [config.py] *)

Record AppConfig : Type := mk_AppConfig {
  tenant_id : string;
  client_id : string;
  client_secret : string;
  storage_path : string;
}.

(** The names of the variables that [from_env] requires, in its order. *)
Definition required_variables : list string :=
  ["MS_TENANT_ID"; "MS_CLIENT_ID"; "MS_CLIENT_SECRET"].

(** [not value] on the result of [os.getenv]. *)
Definition unset (value : option string) : bool :=
  match value with
  | Some v => negb (Str.truthy v)
  | None => true
  end.

(** [AppConfig.from_env].  [environ] is the environment; [resolve] is
    [Path.expanduser().resolve()] on the text of a path; a [ConfigError] is
    held as its message. *)
Definition from_env (environ : gmap string string) (resolve : string → string)
    (storage_path : option string) : string + AppConfig :=
  let tenant_id := environ !! "MS_TENANT_ID" in
  let client_id := environ !! "MS_CLIENT_ID" in
  let client_secret := environ !! "MS_CLIENT_SECRET" in
  let missing :=
    (λ nv : string * option string, nv.1)
      <$> filter (λ nv : string * option string, unset nv.2 = true)
            [ ("MS_TENANT_ID", tenant_id);
              ("MS_CLIENT_ID", client_id);
              ("MS_CLIENT_SECRET", client_secret) ] in
  match missing with
  | _ :: _ =>
      inl ("Missing required environment variables: " +:+ Str.join ", " missing)
  | [] =>
      let storage_path :=
        match storage_path with
        | Some p => p
        | None => default "todo_state.json" (environ !! "OUTLOOK_TODO_STORAGE")
        end in
      inr (mk_AppConfig (default "" tenant_id) (default "" client_id)
             (default "" client_secret) (resolve storage_path))
  end.

(** ** Sample data *)

Definition utc_noon : datetime := mk_datetime 2023 1 1 12 0 0 0 (Some utc).
Definition cet_morning : datetime :=
  mk_datetime 2023 1 1 9 30 0 0 (Some (1 * hour_us)).
Definition naive_noon : datetime := mk_datetime 2023 1 1 12 0 0 0 None.

Definition item_b : TodoItem :=
  mk_TodoItem "b" "Second" "bob@example.com" utc_noon utc_noon "" None false
    utc_noon.
Definition item_a : TodoItem :=
  mk_TodoItem "a" "First" "ann@example.com" utc_noon utc_noon "" None false
    utc_noon.

(** A run that starts with no items, no file and the in-memory gateway. *)
Definition empty_world (messages : list Message) : World (list Message) :=
  mk_World [] None messages 0 [].

(** The message of the tests of the application. *)
Definition dummy_message : Message :=
  mk_Message "1" (Some "Subject 1")
    (Some (mk_Recipient (Some (mk_EmailAddress (Some "Alice") None))))
    "2023-01-01T09:00:00+00:00" (Some "Hello")
    (Some "https://outlook.example/1") false.

(** A clock that advances by one second per reading. *)
Definition sample_clock (n : nat) : datetime :=
  mk_datetime 2024 5 5 10 0 (Z.of_nat n mod 60) 0 None.

(** The same message with its timestamp as the mail API writes it. *)
Definition dummy_message_Z : Message :=
  mk_Message "1" (Some "Subject 1")
    (Some (mk_Recipient (Some (mk_EmailAddress (Some "Alice") None))))
    "2023-01-01T09:00:00Z" (Some "Hello")
    (Some "https://outlook.example/1") false.

(** A message with nothing but an id and a timestamp without offset. *)
Definition bare_message : Message :=
  mk_Message "7" None None "2023-01-01T09:00:00" None None false.

(** The record made of [dummy_message] at the first reading of
    [sample_clock], and the world after the run that imports it. *)
Definition dummy_item : TodoItem :=
  mk_TodoItem "1" "Subject 1" "Alice"
    (mk_datetime 2023 1 1 9 0 0 0 (Some utc))
    (mk_datetime 2023 1 1 9 0 0 0 (Some utc))
    "Hello" (Some "https://outlook.example/1") false
    (mk_datetime 2024 5 5 10 0 0 0 (Some utc)).

Definition synced_world : World (list Message) :=
  mk_World [("1", dummy_item)] (Some [to_dict dummy_item]) [dummy_message] 1
    [EvFetch 25; EvSave].

(** Worlds whose gateway cannot be reached, holding the record pending
    and completed. *)
Definition pending_world : World Unreachable :=
  mk_World [("1", dummy_item)] (Some [to_dict dummy_item]) unreachable 1 [].

Definition done_item : TodoItem := set_completed dummy_item true.

Definition done_world : World Unreachable :=
  mk_World [("1", done_item)] (Some [to_dict done_item]) unreachable 1 [].

(** A store left by two manual additions and the removal of the first. *)
Definition manual_item : TodoItem :=
  mk_TodoItem "manual-2" "Water the plants" "me" utc_noon utc_noon "" None
    false utc_noon.

Definition manual_world : World (list Message) :=
  mk_World [("manual-2", manual_item)] (Some [to_dict manual_item]) [] 2
    [EvSave; EvSave].

Definition resynced_world : World (list Message) :=
  mk_World [("1", dummy_item)] (Some [to_dict dummy_item]) [dummy_message] 1
    [EvFetch 25; EvSave; EvFetch 25].

(** A dictionary with the required keys only and a key that [from_dict]
    does not read, and one that lacks [scheduled_for]. *)
Definition legacy_payload : gmap string pyval :=
  list_to_map
    [ ("message_id", PStr "9"); ("subject", PStr "Old");
      ("sender", PStr "ann@example.com");
      ("received_at", PStr "2023-01-01T09:30:00+01:00");
      ("scheduled_for", PStr "2023-01-01T12:00:00+00:00");
      ("folder", PStr "Inbox") ].

Definition short_payload : gmap string pyval :=
  list_to_map
    [ ("message_id", PStr "9"); ("subject", PStr "Old");
      ("sender", PStr "ann@example.com");
      ("received_at", PStr "2023-01-01T09:30:00+01:00") ].

(** A world whose file holds a record and, after it, a dictionary that
    lacks a required key. *)
Definition broken_world : World Unreachable :=
  mk_World [] (Some [to_dict dummy_item; short_payload]) unreachable 0 [].

(** A directory with a file left by an earlier export and a file that is
    not Markdown. *)
Definition sample_dir : gmap string string :=
  {[ "Old-task-9.md" := "# Old task"; "notes.txt" := "keep" ]}.

(** * Properties *)

(** ** [fromisoformat] inverts [isoformat] *)

(** Linear arithmetic with division and remainder by constants. *)
Ltac dlia := Z.div_mod_to_equations; lia.

Ltac digit_cases k :=
  let Hc := fresh "Hc" in
  assert (k = 0 ∨ k = 1 ∨ k = 2 ∨ k = 3 ∨ k = 4 ∨ k = 5 ∨ k = 6 ∨ k = 7
          ∨ k = 8 ∨ k = 9) as Hc by lia;
  repeat (destruct Hc as [Hc | Hc]); subst k.

Section IsoRoundTrip.

Lemma digit_val_char k : 0 ≤ k < 10 → digit_val (digit_char k) = Some k.
Proof. intros Hk. digit_cases k; reflexivity. Qed.

Lemma digit_char_neq k c :
  0 ≤ k < 10 → digit_val c = None → Ascii.eqb (digit_char k) c = false.
Proof.
  intros Hk Hc. apply Ascii.eqb_neq. intros <-.
  rewrite digit_val_char in Hc by done. discriminate.
Qed.

Lemma two_digits_put n :
  0 ≤ n < 100 →
  two_digits (digit_char (n / 10)) (digit_char (n mod 10)) = Some n.
Proof.
  intros Hn. unfold two_digits, parse_digits. simpl.
  rewrite !digit_val_char by dlia. f_equal. dlia.
Qed.

Lemma parse_digits_put4 n :
  0 ≤ n < 10000 → parse_digits (put4 n "") = Some n.
Proof.
  intros Hn. unfold put4, put2, parse_digits. simpl.
  rewrite !digit_val_char by dlia. f_equal. dlia.
Qed.

Lemma parse_digits_put6 n :
  0 ≤ n < 1000000 → parse_digits (put6 n "") = Some n.
Proof.
  intros Hn. unfold put6, put2, parse_digits. simpl.
  rewrite !digit_val_char by dlia. f_equal. dlia.
Qed.

Lemma find_put2 c n rest :
  digit_val c = None → 0 ≤ n < 100 →
  Str.find c (put2 n rest) = (λ p, S (S p)) <$> Str.find c rest.
Proof.
  intros Hc Hn. unfold put2. simpl.
  rewrite !digit_char_neq by (done || dlia).
  by destruct (Str.find c rest).
Qed.

Lemma parse_isoformat_date_put y m d :
  0 ≤ y < 10000 → 0 ≤ m < 100 → 0 ≤ d < 100 →
  parse_isoformat_date (put4 y (String "-" (put2 m (String "-" (put2 d "")))))
  = Ok (y, m, d).
Proof.
  intros Hy Hm Hd. unfold parse_isoformat_date, put4, put2.
  change (String (digit_char (y / 100 / 10)) _)
    with (put4 y "") at 1.
  rewrite parse_digits_put4 by done. simpl.
  rewrite !two_digits_put by done. reflexivity.
Qed.

Lemma parse_fraction_put us :
  0 ≤ us < 1000000 →
  parse_fraction (if us =? 0 then "" else String "." (put6 us "")) = Ok us.
Proof.
  intros Hus. destruct (Z.eqb_spec us 0) as [-> | Hne]; [done |].
  unfold parse_fraction. cbv beta iota.
  change (String.length (put6 us "")) with 6%nat.
  change (Ascii.eqb "." ".") with true. cbv beta iota delta [negb].
  by rewrite parse_digits_put6.
Qed.

Lemma parse_hh_mm_ss_ff_time h mi s us :
  0 ≤ h < 100 → 0 ≤ mi < 100 → 0 ≤ s < 100 → 0 ≤ us < 1000000 →
  parse_hh_mm_ss_ff (format_time h mi s us "") = Ok (h, mi, s, us).
Proof.
  intros Hh Hmi Hs Hus. unfold format_time, parse_hh_mm_ss_ff, put2.
  rewrite !two_digits_put by done. simpl.
  fold (put2 (us / 10000)) (put2 ((us / 100) mod 100)) (put2 (us mod 100)).
  fold (put6 us "").
  by rewrite parse_fraction_put.
Qed.

Lemma find_format_time c h mi s us rest :
  digit_val c = None → c ≠ ":"%char → c ≠ "."%char →
  0 ≤ h < 100 → 0 ≤ mi < 100 → 0 ≤ s < 100 → 0 ≤ us < 1000000 →
  Str.find c (format_time h mi s us rest)
  = (λ p, time_len us + p)%nat <$> Str.find c rest.
Proof.
  intros Hc Hc1 Hc2 Hh Hmi Hs Hus. unfold format_time, time_len.
  apply Ascii.eqb_neq in Hc1, Hc2. rewrite Ascii.eqb_sym in Hc1, Hc2.
  rewrite find_put2 by done. cbn [Str.find]. rewrite Hc1.
  rewrite find_put2 by done. cbn [Str.find]. rewrite Hc1.
  rewrite find_put2 by done.
  destruct (us =? 0).
  - by destruct (Str.find c rest).
  - cbn [Str.find]. rewrite Hc2. unfold put6. rewrite !find_put2 by (done || dlia).
    by destruct (Str.find c rest).
Qed.

Lemma take_format_time h mi s us rest :
  Str.take (time_len us) (format_time h mi s us rest)
  = format_time h mi s us "".
Proof. unfold format_time, time_len. by destruct (us =? 0). Qed.

Lemma drop_format_time h mi s us c rest :
  Str.drop (S (time_len us)) (format_time h mi s us (String c rest)) = rest.
Proof. unfold format_time, time_len. by destruct (us =? 0). Qed.

Lemma get_format_time h mi s us c rest :
  Str.get (time_len us) (format_time h mi s us (String c rest)) = Some c.
Proof. unfold format_time, time_len. by destruct (us =? 0). Qed.

Lemma length_format_time h mi s us rest :
  (String.length (format_time h mi s us rest) <? 2)%nat = false.
Proof. done. Qed.

Lemma find_format_offset_abs c off :
  digit_val c = None → c ≠ ":"%char → c ≠ "."%char →
  0 ≤ off < day_us →
  Str.find c (format_offset_abs off "") = None.
Proof.
  intros Hc Hc1 Hc2 Hoff. unfold format_offset_abs.
  unfold day_us, hour_us, minute_us in *.
  apply Ascii.eqb_neq in Hc1, Hc2. rewrite Ascii.eqb_sym in Hc1, Hc2.
  rewrite find_put2 by (done || dlia). cbn [Str.find]. rewrite Hc1.
  rewrite find_put2 by (done || dlia).
  destruct (_ =? 0); [done |]. cbn [Str.find]. rewrite Hc1.
  rewrite find_put2 by (done || dlia).
  destruct (_ =? 0); [done |]. cbn [Str.find]. rewrite Hc2.
  unfold put6. by rewrite !find_put2 by (done || dlia).
Qed.

Lemma length_format_offset_abs off :
  let n := String.length (format_offset_abs off "") in
  ((n =? 5) || (n =? 8) || (n =? 15))%nat = true.
Proof.
  unfold format_offset_abs. simpl.
  destruct (_ =? 0); [done |]. by destruct (_ =? 0).
Qed.

Lemma parse_hh_mm_ss_ff_offset off :
  0 ≤ off < day_us →
  parse_hh_mm_ss_ff (format_offset_abs off "")
  = Ok (off / hour_us, off mod hour_us / minute_us,
        off mod hour_us mod minute_us / 1000000,
        off mod hour_us mod minute_us mod 1000000).
Proof.
  intros Hoff. unfold format_offset_abs, parse_hh_mm_ss_ff, put2.
  unfold day_us, hour_us, minute_us in *.
  rewrite !two_digits_put by dlia. simpl.
  destruct (Z.eqb_spec ((off mod (3600 * 1000000)) mod (60 * 1000000)) 0)
    as [-> | Hss]; [done |].
  simpl. rewrite two_digits_put by dlia. simpl.
  set (ss := (off mod (3600 * 1000000)) mod (60 * 1000000)) in *.
  fold (put2 ((ss mod 1000000) / 10000))
       (put2 (((ss mod 1000000) / 100) mod 100))
       (put2 ((ss mod 1000000) mod 100)).
  fold (put6 (ss mod 1000000) "").
  rewrite parse_fraction_put by dlia. done.
Qed.

Lemma offset_recompose off :
  0 ≤ off →
  off / hour_us * hour_us + off mod hour_us / minute_us * minute_us
  + off mod hour_us mod minute_us / 1000000 * 1000000
  + off mod hour_us mod minute_us mod 1000000 = off.
Proof. intros Hoff. unfold hour_us, minute_us. dlia. Qed.

Lemma offset_comps_zero off :
  0 ≤ off →
  (off / hour_us =? 0) && (off mod hour_us / minute_us =? 0)
  && (off mod hour_us mod minute_us / 1000000 =? 0)
  && (off mod hour_us mod minute_us mod 1000000 =? 0)
  = (off =? 0).
Proof.
  intros Hoff. pose proof (offset_recompose off Hoff) as Hre.
  destruct (Z.eqb_spec off 0) as [-> | Hne]; [done |].
  repeat match goal with
         | |- context [?a =? 0] => destruct (Z.eqb_spec a 0)
         end; simpl; try done.
  lia.
Qed.

Lemma parse_isoformat_time_format h mi s us tz :
  0 ≤ h < 100 → 0 ≤ mi < 100 → 0 ≤ s < 100 → 0 ≤ us < 1000000 →
  match tz with None => true | Some off => offset_ok off end = true →
  parse_isoformat_time (format_time h mi s us (format_offset tz ""))
  = Ok (h, mi, s, us, tz).
Proof.
  intros Hh Hmi Hs Hus Htz. unfold parse_isoformat_time.
  rewrite length_format_time. destruct tz as [off |]; simpl format_offset.
  - unfold offset_ok in Htz. apply andb_prop in Htz as [Hlo Hhi].
    apply Z.ltb_lt in Hlo, Hhi.
    set (a := if off <? 0 then - off else off).
    set (body := format_offset_abs a "").
    set (sign := if off <? 0 then "-"%char else "+"%char).
    assert (0 ≤ a < day_us) as Habs
      by (unfold a; destruct (Z.ltb_spec off 0); lia).
    assert ((if off <? 0
             then String "-" (format_offset_abs (- off) "")
             else String "+" (format_offset_abs off ""))
            = String sign body) as ->
      by (unfold sign, body, a; by destruct (off <? 0)).
    assert (tz_pos (format_time h mi s us (String sign body))
            = Some (time_len us)) as ->.
    { unfold tz_pos. rewrite !find_format_time by done.
      cbn [Str.find]. unfold body.
      rewrite !find_format_offset_abs by done.
      unfold sign. destruct (off <? 0); simpl; f_equal; lia. }
    rewrite take_format_time, drop_format_time, get_format_time.
    rewrite parse_hh_mm_ss_ff_time by done. cbn [rbind].
    unfold body at 1. rewrite length_format_offset_abs. cbn [negb].
    unfold body. rewrite parse_hh_mm_ss_ff_offset by done. cbn [rbind].
    rewrite offset_comps_zero by lia.
    destruct (Z.eqb_spec a 0) as [H0 | Hne].
    { unfold utc. do 3 f_equal. unfold a in H0. destruct (off <? 0); lia. }
    rewrite offset_recompose by lia.
    unfold sign, timezone, offset_ok, a.
    destruct (Z.ltb_spec off 0).
    + rewrite bool_decide_eq_true_2 by done.
      replace (-1 * - off) with off by lia.
      by rewrite (proj2 (Z.ltb_lt _ _) Hlo), (proj2 (Z.ltb_lt _ _) Hhi).
    + rewrite bool_decide_eq_false_2 by done.
      replace (1 * off) with off by lia.
      by rewrite (proj2 (Z.ltb_lt _ _) Hlo), (proj2 (Z.ltb_lt _ _) Hhi).
  - assert (tz_pos (format_time h mi s us "") = None) as ->.
    { unfold tz_pos. by rewrite !find_format_time. }
    by rewrite parse_hh_mm_ss_ff_time.
Qed.

Lemma days_in_month_bound y m : days_in_month y m ≤ 31.
Proof. unfold days_in_month. repeat case_match; lia. Qed.

(** Reading back what [isoformat] printed gives the datetime, offset
    included. *)
Lemma fromisoformat_isoformat d :
  dt_valid d = true → fromisoformat (isoformat d) = Ok d.
Proof.
  destruct d as [y mo dd h mi s us tz]. unfold dt_valid. cbn [year month day
    hour minute second microsecond tzinfo].
  intros [Hf Htz]%andb_prop. pose proof Hf as Hf'. unfold fields_ok in Hf'.
  repeat match goal with
         | H : _ && _ = true |- _ => apply andb_prop in H as [H ?]
         | H : (_ <=? _) = true |- _ => apply Z.leb_le in H
         end.
  pose proof (days_in_month_bound y mo).
  unfold fromisoformat, isoformat. cbn [year month day hour minute second
    microsecond tzinfo].
  change (Str.take 10 (put4 y ?r)) with
    (put4 y (String "-" (put2 mo (String "-" (put2 dd ""))))).
  rewrite parse_isoformat_date_put by lia. cbn [rbind].
  change (Str.drop 11 (put4 y ?r)) with
    (format_time h mi s us (format_offset tz "")).
  rewrite parse_isoformat_time_format by (done || lia).
  unfold format_time at 1, put2 at 1. cbn [rbind].
  unfold datetime_new. by rewrite Hf.
Qed.

End IsoRoundTrip.

(** ** The dictionary form of an item *)

Section RecordRoundTrip.

Lemma ends_with_cons c a rest :
  a ≠ c → Str.ends_with c (String a rest) = Str.ends_with c rest.
Proof.
  intros Hne%Ascii.eqb_neq. cbn [Str.ends_with]. by destruct rest.
Qed.

Lemma ends_with_put2 c n rest :
  digit_val c = None → 0 ≤ n < 100 →
  Str.ends_with c (put2 n rest) = Str.ends_with c rest.
Proof.
  intros Hc Hn. unfold put2.
  assert (∀ k, 0 ≤ k < 10 → digit_char k ≠ c) as Hk.
  { intros k Hk <-. rewrite digit_val_char in Hc by done. discriminate. }
  rewrite !ends_with_cons by (apply Hk; dlia). done.
Qed.

Lemma ends_with_put6 c n rest :
  digit_val c = None → 0 ≤ n < 1000000 →
  Str.ends_with c (put6 n rest) = Str.ends_with c rest.
Proof.
  intros Hc Hn. unfold put6. by rewrite !ends_with_put2 by (done || dlia).
Qed.

Lemma ends_with_format_offset_abs off :
  0 ≤ off < day_us →
  Str.ends_with "Z" (format_offset_abs off "") = false.
Proof.
  intros Hoff. unfold format_offset_abs, day_us, hour_us, minute_us in *.
  rewrite ends_with_put2, ends_with_cons, ends_with_put2 by (done || dlia).
  destruct (_ =? 0); [done |].
  rewrite ends_with_cons, ends_with_put2 by (done || dlia).
  destruct (_ =? 0); [done |].
  by rewrite ends_with_cons, ends_with_put6 by (done || dlia).
Qed.

(** The text of a datetime never ends with ["Z"]. *)
Lemma ends_with_Z_isoformat d :
  dt_valid d = true → Str.ends_with "Z" (isoformat d) = false.
Proof.
  destruct d as [y mo dd h mi s us tz]. unfold dt_valid. cbn [year month day
    hour minute second microsecond tzinfo].
  intros [Hf Htz]%andb_prop. unfold fields_ok in Hf.
  repeat match goal with
         | H : _ && _ = true |- _ => apply andb_prop in H as [H ?]
         | H : (_ <=? _) = true |- _ => apply Z.leb_le in H
         | H : (_ <? _) = true |- _ => apply Z.ltb_lt in H
         end.
  pose proof (days_in_month_bound y mo).
  unfold isoformat, put4, format_time. cbn [year month day hour minute second
    microsecond tzinfo].
  repeat first [ rewrite ends_with_put2 by (done || dlia)
               | rewrite ends_with_cons by done ].
  assert (Str.ends_with "Z" (format_offset tz "") = false) as Hoff.
  { destruct tz as [off |]; [| done]. unfold format_offset, offset_ok in *.
    apply andb_prop in Htz as [Hlo%Z.ltb_lt Hhi%Z.ltb_lt].
    destruct (Z.ltb_spec off 0);
      rewrite ends_with_cons, ends_with_format_offset_abs by (done || lia);
      done. }
  destruct (us =? 0); [done |].
  by rewrite ends_with_cons, ends_with_put6 by (done || lia).
Qed.

Lemma _parse_datetime_isoformat d :
  dt_valid d = true → _parse_datetime (isoformat d) = Ok d.
Proof.
  intros Hd. unfold _parse_datetime.
  rewrite ends_with_Z_isoformat by done. by apply fromisoformat_isoformat.
Qed.

Lemma dt_valid_replace_utc d :
  dt_valid d = true → dt_valid (replace_tzinfo d (Some utc)) = true.
Proof.
  unfold dt_valid. cbn [replace_tzinfo year month day hour minute second
    microsecond tzinfo].
  intros [-> _]%andb_prop. done.
Qed.

Lemma from_dict_to_dict_valid now r :
  dt_valid (received_at r) = true → aware (received_at r) = true →
  dt_valid (scheduled_for r) = true → aware (scheduled_for r) = true →
  dt_valid (created_at r) = true → aware (created_at r) = true →
  from_dict now (to_dict r) = Ok r.
Proof.
  intros Hra Hraa Hsf Hsfa Hca Hcaa. unfold from_dict, getitem, get_default.
  change (to_dict r !! "message_id") with (Some (PStr (message_id r))).
  change (to_dict r !! "subject") with (Some (PStr (subject r))).
  change (to_dict r !! "sender") with (Some (PStr (sender r))).
  change (to_dict r !! "received_at")
    with (Some (PStr (isoformat (received_at r)))).
  change (to_dict r !! "scheduled_for")
    with (Some (PStr (isoformat (scheduled_for r)))).
  change (to_dict r !! "body_preview") with (Some (PStr (body_preview r))).
  change (to_dict r !! "web_link") with (Some (opt_str (web_link r))).
  change (to_dict r !! "completed") with (Some (PBool (completed r))).
  change (to_dict r !! "created_at")
    with (Some (PStr (isoformat (created_at r)))).
  cbn [rbind as_str as_bool].
  rewrite !_parse_datetime_isoformat by done. cbn [rbind].
  assert (as_opt_str (opt_str (web_link r)) = Ok (web_link r)) as ->
    by (by destruct (web_link r)).
  cbn [rbind]. unfold TodoItem_new, _ensure_tz.
  unfold aware in *.
  destruct (tzinfo (received_at r)); [| done].
  destruct (tzinfo (scheduled_for r)); [| done].
  destruct (tzinfo (created_at r)); [| done].
  cbn [rbind]. by destruct r.
Qed.

End RecordRoundTrip.

(** C3.  Serialisation round-trips: for every record [r] that the
    constructor returned, [from_dict (to_dict r)] is [r] itself, so that
    each of [message_id], [subject], [sender], [received_at],
    [scheduled_for], [body_preview], [web_link], [completed] and
    [created_at] is equal, the offsets of the three timestamps included. *)
Theorem from_dict_to_dict (now : datetime)
    (mid subj sndr : string) (received scheduled : datetime)
    (preview : string) (link : option string) (done_ : bool)
    (created : datetime) (r : TodoItem) :
  dt_valid received = true →
  dt_valid scheduled = true →
  dt_valid created = true →
  TodoItem_new mid subj sndr received scheduled preview link done_ created
  = Ok r →
  from_dict now (to_dict r) = Ok r.
Proof.
  intros Hra Hsf Hca Hnew. unfold TodoItem_new, _ensure_tz in Hnew.
  destruct (tzinfo received) eqn:Era; [| done].
  destruct (tzinfo scheduled) eqn:Esf; [| done].
  cbn [rbind] in Hnew. injection Hnew as <-.
  apply from_dict_to_dict_valid; cbn [received_at scheduled_for created_at];
    unfold aware; rewrite ?Era, ?Esf; try done.
  - destruct (tzinfo created); [done |]. by apply dt_valid_replace_utc.
  - by destruct (tzinfo created) eqn:Eca; [rewrite Eca |].
Qed.

Lemma from_dict_to_dict_witness :
  ∃ r, TodoItem_new "abc" "Subject" "sender@example.com" utc_noon cet_morning
         "" None false naive_noon = Ok r
       ∧ from_dict utc_noon (to_dict r) = Ok r.
Proof.
  eexists. split; [reflexivity |].
  apply (from_dict_to_dict utc_noon "abc" "Subject" "sender@example.com"
           utc_noon cet_morning "" None false naive_noon);
    reflexivity.
Defined.

(** C5, as the code has it.  The constructor raises [ValueError] exactly
    when [received_at] or [scheduled_for] is naive; a naive [created_at] is
    no error, it is given the offset of UTC.  So the three timestamps of
    every record the constructor returns are aware. *)
Theorem TodoItem_new_timestamps
    (mid subj sndr : string) (received scheduled : datetime)
    (preview : string) (link : option string) (done_ : bool)
    (created : datetime) :
  match TodoItem_new mid subj sndr received scheduled preview link done_
          created with
  | Ok r =>
      aware received = true ∧ aware scheduled = true
      ∧ received_at r = received
      ∧ scheduled_for r = scheduled
      ∧ created_at r
        = (if aware created then created
           else replace_tzinfo created (Some utc))
      ∧ aware (created_at r) = true
  | Raise e =>
      e = ValueError ∧ (aware received = false ∨ aware scheduled = false)
  end.
Proof.
  unfold TodoItem_new, _ensure_tz, aware.
  destruct (tzinfo received); cbn [rbind]; [| by auto].
  destruct (tzinfo scheduled); cbn [rbind]; [| by auto].
  cbn [received_at scheduled_for created_at].
  by destruct (tzinfo created) eqn:E; rewrite ?E.
Qed.

(** C5, as stated, fails: a naive [created_at] with aware [received_at] and
    [scheduled_for] is accepted. *)
Lemma TodoItem_new_naive_created_at :
  aware naive_noon = false
  ∧ TodoItem_new "1" "Subject" "Alice" utc_noon utc_noon "" None false naive_noon
    = Ok (mk_TodoItem "1" "Subject" "Alice" utc_noon utc_noon "" None false
            utc_noon).
Proof. split; reflexivity. Qed.

(** ** [sorted] is a stable sort *)

Section SortedFacts.
Context {A : Type} (lt : A → A → bool).

Lemma insert_sorted_Permutation x l : insert_sorted lt x l ≡ₚ x :: l.
Proof.
  induction l as [| y l IH]; simpl; [done |].
  destruct (lt y x); [| done].
  rewrite IH. apply Permutation_swap.
Qed.

Lemma sorted_Permutation l : sorted lt l ≡ₚ l.
Proof.
  induction l as [| x l IH]; simpl; [done |].
  by rewrite insert_sorted_Permutation, IH.
Qed.

Lemma length_sorted l : length (sorted lt l) = length l.
Proof. by rewrite sorted_Permutation. Qed.


Hypothesis lt_asym : ∀ x y, lt x y = true → lt y x = false.

Lemma insert_sorted_Sorted x l :
  Sorted (not_after lt) l → Sorted (not_after lt) (insert_sorted lt x l).
Proof.
  induction 1 as [| y l Hl IH Hhd]; simpl.
  - by repeat constructor.
  - destruct (lt y x) eqn:Hyx.
    + constructor; [done |].
      destruct Hhd as [| z l Hz]; simpl.
      * constructor. by apply lt_asym.
      * destruct (lt z x); constructor; [done |]. by apply lt_asym.
    + constructor; [by constructor |]. by constructor.
Qed.

Lemma sorted_Sorted l : Sorted (not_after lt) (sorted lt l).
Proof.
  induction l as [| x l IH]; simpl; [constructor |].
  by apply insert_sorted_Sorted.
Qed.

End SortedFacts.

Section SortedByKey.
Context {A : Type} (key : A → Z).

(** Stability: the elements of one key keep the order they had. *)
Lemma insert_sorted_stable k x l :
  filter (λ a, key a = k) (insert_sorted (key_lt key) x l)
  = filter (λ a, key a = k) (x :: l).
Proof.
  induction l as [| y l IH]; simpl; [done |].
  unfold key_lt at 1. destruct (Z.ltb_spec (key y) (key x)) as [Hlt | Hge].
  - rewrite filter_cons, IH, !filter_cons.
    repeat case_decide; try done; lia.
  - done.
Qed.

Lemma sorted_stable k l :
  filter (λ a, key a = k) (sorted (key_lt key) l) = filter (λ a, key a = k) l.
Proof.
  induction l as [| x l IH]; simpl; [done |].
  by rewrite insert_sorted_stable, !filter_cons, IH.
Qed.

Lemma sorted_key_Sorted l :
  Sorted (λ a b, key a ≤ key b) (sorted (key_lt key) l).
Proof.
  assert (Sorted (not_after (key_lt key)) (sorted (key_lt key) l)) as Hs.
  { apply sorted_Sorted. intros x y Hxy. unfold key_lt in *. lia. }
  induction Hs as [| a l' Hl' IH Hhd]; constructor; [done |].
  destruct Hhd as [| b l'' Hab]; constructor.
  unfold not_after, key_lt in Hab. lia.
Qed.

(** Two lists in ascending order of their keys that agree on the elements
    of every key, order included, are equal. *)
Lemma Sorted_filter_eq l1 l2 :
  Sorted (λ a b, key a ≤ key b) l1 →
  Sorted (λ a b, key a ≤ key b) l2 →
  (∀ k, filter (λ a, key a = k) l1 = filter (λ a, key a = k) l2) →
  l1 = l2.
Proof.
  assert (Transitive (λ a b : A, key a ≤ key b)) as Htrans
    by (intros a b c; lia).
  intros H1%Sorted_StronglySorted H2%Sorted_StronglySorted; [| done..].
  revert l2 H2. induction H1 as [| x l1 Hl1 IH Hx]; intros l2 H2 Hf.
  - destruct l2 as [| y l2]; [done |].
    specialize (Hf (key y)). rewrite filter_cons_True in Hf by done. done.
  - destruct H2 as [| y l2 Hl2 Hy].
    { specialize (Hf (key x)). rewrite filter_cons_True in Hf by done. done. }
    assert (key x = key y) as Hk.
    { apply Z.le_antisymm.
      - assert (y ∈ x :: l1) as [-> | Hin]%elem_of_cons; [| lia |].
        + eapply (list_elem_of_filter (λ a, key a = key y)).
          rewrite Hf, filter_cons_True by done. left.
        + by apply (proj1 (Forall_forall _ _) Hx).
      - assert (x ∈ y :: l2) as [-> | Hin]%elem_of_cons; [| lia |].
        + eapply (list_elem_of_filter (λ a, key a = key x)).
          rewrite <- Hf, filter_cons_True by done. left.
        + by apply (proj1 (Forall_forall _ _) Hy). }
    pose proof (Hf (key x)) as Hfx.
    rewrite filter_cons_True in Hfx by done.
    rewrite filter_cons_True in Hfx by done.
    injection Hfx as -> Hfx. f_equal. apply IH; [done |].
    intros k. specialize (Hf k). rewrite !filter_cons in Hf.
    destruct (decide (key y = k)); [by injection Hf |]. done.
Qed.

(** So the result of a stable sort does not depend on how it sorts: any
    list in ascending order that keeps the elements of every key in their
    order in [l] is [sorted (key_lt key) l]. *)
Lemma sorted_unique l l' :
  Sorted (λ a b, key a ≤ key b) l' →
  (∀ k, filter (λ a, key a = k) l' = filter (λ a, key a = k) l) →
  l' = sorted (key_lt key) l.
Proof.
  intros Hs Hf. apply Sorted_filter_eq; [done | apply sorted_key_Sorted |].
  intros k. by rewrite sorted_stable.
Qed.

End SortedByKey.

(** ** [TodoStorage.all] *)

Section AllSorted.
Context {G : Type}.

Lemma comparable_aware (l : list TodoItem) :
  forallb (λ t, aware (scheduled_for t)) l = true →
  TodoStorage.comparable (scheduled_for <$> l) = true.
Proof.
  intros Hl. unfold TodoStorage.comparable.
  assert (forallb aware (scheduled_for <$> l) = true) as ->.
  { induction l as [| t l IH]; simpl in *; [done |].
    apply andb_prop in Hl as [-> Hl]. by apply IH. }
  by rewrite orb_true_r.
Qed.

Lemma all_of_aware (items : dict TodoItem) :
  TodoStorage.well_formed items = true →
  TodoStorage.all_of items
  = Ok (sorted (key_lt (λ t, instant (scheduled_for t))) (dict_values items)).
Proof.
  intros Hl. unfold TodoStorage.all_of. by rewrite comparable_aware.
Qed.

End AllSorted.

(** C6, as the code has it.  For every store whose records have aware
    [scheduled_for] timestamps, [all()] returns the held records sorted
    ascending by [scheduled_for]; records with equal [scheduled_for] come in
    the order of their insertion into the store ([message_id] plays no
    part). *)
Theorem all_sorted_stable {G : Type} (w : World G) :
  TodoStorage.well_formed (storage_items w) = true →
  ∃ l, TodoStorage.all w = (w, Ok l)
       ∧ l ≡ₚ dict_values (storage_items w)
       ∧ Sorted (λ a b, instant (scheduled_for a) ≤ instant (scheduled_for b)) l
       ∧ ∀ t, filter (λ r, instant (scheduled_for r) = t) l
              = filter (λ r, instant (scheduled_for r) = t)
                  (dict_values (storage_items w)).
Proof.
  intros Hok. eexists. split.
  { unfold TodoStorage.all, TodoStorage.get_items, bind, lift.
    by rewrite all_of_aware. }
  split; [apply sorted_Permutation |].
  split; [apply (sorted_key_Sorted (λ t, instant (scheduled_for t))) |].
  intros t. apply (sorted_stable (λ t, instant (scheduled_for t))).
Qed.

Lemma all_sorted_stable_witness :
  ∃ l, TodoStorage.all
         (mk_World [("b", item_b); ("a", item_a)] None ([] : list Message) 0 [])
       = (mk_World [("b", item_b); ("a", item_a)] None [] 0%nat [], Ok l)
       ∧ l ≡ₚ [item_b; item_a]
       ∧ Sorted (λ a b, instant (scheduled_for a) ≤ instant (scheduled_for b)) l
       ∧ ∀ t, filter (λ r, instant (scheduled_for r) = t) l
              = filter (λ r, instant (scheduled_for r) = t) [item_b; item_a].
Proof.
  exact (all_sorted_stable
           (mk_World [("b", item_b); ("a", item_a)] None ([] : list Message) 0 [])
           eq_refl).
Defined.

(** C6, as stated, fails: ["b"] is added before ["a"] with the same
    [scheduled_for], and [all()] returns ["b"] first. *)
Lemma all_ties_keep_insertion_order :
  let run := (TodoStorage.add item_b false ;; TodoStorage.add item_a false ;;
              TodoStorage.all)%world in
  (run (empty_world [])).2 = Ok [item_b; item_a]
  ∧ scheduled_for item_b = scheduled_for item_a
  ∧ String.ltb (message_id item_a) (message_id item_b) = true.
Proof. repeat split. Qed.

(** ** Reading the timestamps of the gateway *)

Section GraphDatetime.

Lemma app_cons a u w : String a u +:+ w = String a (u +:+ w).
Proof. done. Qed.

Lemma app_empty_l w : "" +:+ w = w.
Proof. done. Qed.

Lemma find_lt c s p : Str.find c s = Some p → (p < String.length s)%nat.
Proof.
  revert p. induction s as [| a s IH]; intros p; simpl; [done |].
  destruct (Ascii.eqb a c).
  - intros [= <-]. lia.
  - destruct (Str.find c s) as [q |]; [| done].
    intros [= <-]. specialize (IH q eq_refl). lia.
Qed.

Lemma find_app c u w :
  Str.find c (u +:+ w)
  = match Str.find c u with
    | Some i => Some i
    | None => (λ p, String.length u + p)%nat <$> Str.find c w
    end.
Proof.
  induction u as [| a u IH].
  - rewrite ?app_empty_l. simpl. by destruct (Str.find c w).
  - rewrite ?app_cons. simpl. destruct (Ascii.eqb a c); [done |].
    rewrite IH. destruct (Str.find c u); [done |].
    by destruct (Str.find c w).
Qed.

Lemma drop_app_le n u w :
  (n ≤ String.length u)%nat → Str.drop n (u +:+ w) = Str.drop n u +:+ w.
Proof.
  revert n. induction u as [| a u IH]; intros [| n] Hn; simpl in *;
    try done; try lia.
  rewrite ?app_cons. simpl. apply IH. lia.
Qed.

(** What is left of [u +:+ w] after [n] characters keeps the whole of [w],
    or is what is left of [w] after at least one character. *)
Lemma drop_app_cases n u w :
  (∃ u', Str.drop n (u +:+ w) = u' +:+ w)
  ∨ (∃ k, Str.drop n (u +:+ w) = Str.drop (S k) w).
Proof.
  revert n. induction u as [| a u IH]; intros n.
  - rewrite ?app_empty_l. destruct n as [| n].
    + left. exists "". by destruct w.
    + right. by exists n.
  - rewrite ?app_cons. destruct n as [| n].
    + left. by exists (String a u).
    + simpl. apply IH.
Qed.

Lemma parse_digits_go_find c acc s v :
  digit_val c = None → parse_digits_go acc s = Some v → Str.find c s = None.
Proof.
  intros Hc. revert acc. induction s as [| a s IH]; intros acc; simpl;
    [done |].
  destruct (digit_val a) eqn:Ha; [| done].
  intros Hgo. rewrite (IH _ Hgo).
  destruct (Ascii.eqb_spec a c) as [-> | _]; [congruence | done].
Qed.

Lemma parse_digits_find c s v :
  digit_val c = None → parse_digits s = Some v → Str.find c s = None.
Proof.
  intros Hc. destruct s; [done |]. unfold parse_digits.
  by apply parse_digits_go_find.
Qed.

Lemma two_digits_neq c a b v :
  digit_val c = None → two_digits a b = Some v →
  Ascii.eqb a c = false ∧ Ascii.eqb b c = false.
Proof.
  intros Hc Hab. unfold two_digits in Hab.
  pose proof (parse_digits_find c _ _ Hc Hab) as Hf. simpl in Hf.
  destruct (Ascii.eqb a c); [done |]. by destruct (Ascii.eqb b c).
Qed.

Lemma parse_fraction_find c s v :
  digit_val c = None → c ≠ "."%char →
  parse_fraction s = Ok v → Str.find c s = None.
Proof.
  intros Hc Hdot. destruct s as [| a f]; [done |]. unfold parse_fraction.
  destruct (Ascii.eqb_spec a ".") as [-> | ?]; [| done]. cbn [negb].
  intros Hf. cbn [Str.find].
  destruct (Ascii.eqb_spec "." c) as [<- | _]; [done |].
  assert (∃ x, parse_digits f = Some x) as [x Hx].
  { destruct (String.length f) as [| [| [| [| [| [| [| [|]]]]]]]]; try done.
    - destruct (parse_digits f); [by eexists | done].
    - destruct (parse_digits f); [by eexists | done]. }
  by rewrite (parse_digits_find c f x).
Qed.

(** A text that [_parse_hh_mm_ss_ff] accepts holds digits, colons and dots
    only. *)
Lemma parse_hh_mm_ss_ff_find c s r :
  digit_val c = None → c ≠ ":"%char → c ≠ "."%char →
  parse_hh_mm_ss_ff s = Ok r → Str.find c s = None.
Proof.
  intros Hc Hcolon Hdot. unfold parse_hh_mm_ss_ff.
  destruct s as [| h1 [| h2 r1]]; try done.
  destruct (two_digits h1 h2) as [hh |] eqn:Hh; [| done]. cbn [rbind int_or_ValueError].
  destruct (two_digits_neq c _ _ _ Hc Hh) as [E1 E2].
  cbn [Str.find]. rewrite E1, E2.
  destruct r1 as [| c1 [| m1 [| m2 r2]]]; try done.
  destruct (Ascii.eqb_spec c1 ":") as [-> | ?]; [| done]. cbn [negb].
  destruct (two_digits m1 m2) as [mm |] eqn:Hm; [| done]. cbn [rbind int_or_ValueError].
  destruct (two_digits_neq c _ _ _ Hc Hm) as [E3 E4].
  cbn [Str.find]. rewrite E3, E4.
  destruct (Ascii.eqb_spec ":" c) as [<- | _]; [done |].
  destruct r2 as [| c2 [| s1 [| s2 r3]]]; try done.
  destruct (Ascii.eqb_spec c2 ":") as [-> | ?]; [| done]. cbn [negb].
  destruct (two_digits s1 s2) as [ss |] eqn:Hs; [| done]. cbn [rbind int_or_ValueError].
  destruct (two_digits_neq c _ _ _ Hc Hs) as [E5 E6].
  cbn [Str.find]. rewrite E5, E6.
  destruct (Ascii.eqb_spec ":" c) as [<- | _]; [done |].
  destruct (parse_fraction r3) as [us |] eqn:Hus; [| done].
  intros _. by rewrite (parse_fraction_find c r3 us).
Qed.

Lemma drop_app_add k u w :
  Str.drop (String.length u + k) (u +:+ w) = Str.drop k w.
Proof. induction u as [| a u IH]; [done |]. rewrite ?app_cons. by simpl. Qed.

Lemma find_app_plus c x w :
  Str.find c (x +:+ String c w) ≠ None.
Proof.
  rewrite find_app. destruct (Str.find c x); [done |].
  simpl. by rewrite Ascii.eqb_refl.
Qed.

(** After the first sign of [u +:+ "+00:00"] comes a text with a sign,
    unless that sign is the appended one. *)
Lemma tz_pos_plus00 u :
  ∃ p, tz_pos (u +:+ "+00:00") = Some p
       ∧ (p = String.length u
          ∨ ∃ x, Str.drop (S p) (u +:+ "+00:00") = x +:+ "+00:00").
Proof.
  unfold tz_pos. rewrite !find_app.
  change (Str.find "-" "+00:00") with (@None nat).
  change (Str.find "+" "+00:00") with (Some 0%nat).
  destruct (Str.find "-" u) as [p |] eqn:Hm.
  - exists p. split; [done |]. right. exists (Str.drop (S p) u).
    apply drop_app_le. apply find_lt in Hm. lia.
  - destruct (Str.find "+" u) as [p |] eqn:Hp.
    + exists p. split; [done |]. right. exists (Str.drop (S p) u).
      apply drop_app_le. apply find_lt in Hp. lia.
    + exists (String.length u). split; [| by left].
      cbn [fmap option_fmap option_map]. f_equal. lia.
Qed.

Lemma parse_isoformat_time_plus00 u c tz :
  parse_isoformat_time (u +:+ "+00:00") = Ok (c, tz) → tz = Some utc.
Proof.
  unfold parse_isoformat_time.
  destruct (_ <? _)%nat; [done |].
  destruct (tz_pos_plus00 u) as (p & -> & Hp).
  destruct (parse_hh_mm_ss_ff (Str.take p _)) as [comps |]; [| done].
  cbn [rbind].
  destruct (negb _); [done |].
  destruct Hp as [-> | [x Hx]].
  - replace (S (String.length u)) with (String.length u + 1)%nat by lia.
    rewrite drop_app_add. simpl. by intros [= _ <-].
  - rewrite Hx.
    destruct (parse_hh_mm_ss_ff (x +:+ "+00:00")) as [r |] eqn:Hr; [| done].
    apply (parse_hh_mm_ss_ff_find "+") in Hr; [| done..].
    by apply find_app_plus in Hr.
Qed.

Lemma datetime_new_tzinfo y mo d h mi s us tz dt :
  datetime_new y mo d h mi s us tz = Ok dt → tzinfo dt = tz.
Proof. unfold datetime_new. destruct (fields_ok _ _ _ _ _ _ _); by intros [= <-]. Qed.

(** Whatever [fromisoformat] reads from a text that ends in ["+00:00"] is
    naive or at the offset of UTC. *)
Lemma fromisoformat_plus00 u dt :
  fromisoformat (u +:+ "+00:00") = Ok dt →
  tzinfo dt = None ∨ tzinfo dt = Some utc.
Proof.
  unfold fromisoformat.
  destruct (parse_isoformat_date _) as [[[y mo] d] |]; [| done]. cbn [rbind].
  destruct (drop_app_cases 11 u "+00:00") as [[u' ->] | [k ->]].
  - destruct (u' +:+ "+00:00") as [| a0 s0] eqn:Hu.
    + cbn [rbind]. intros ->%datetime_new_tzinfo. by left.
    + rewrite <- Hu.
      destruct (parse_isoformat_time _) as [[[[[h mi] s] us] tz] |] eqn:Ht;
        [| done].
      cbn [rbind]. intros ->%datetime_new_tzinfo.
      right. by eapply parse_isoformat_time_plus00.
  - assert (∃ t, Str.drop (S k) "+00:00" = t ∧ Str.find "-" t = None
                 ∧ Str.find "+" t = None) as (t & -> & Hm & Hp).
    { do 6 (destruct k as [| k]; [by eexists |]). by eexists. }
    destruct t as [| a0 s0].
    + cbn [rbind]. intros ->%datetime_new_tzinfo. by left.
    + unfold parse_isoformat_time, tz_pos. rewrite Hm, Hp.
      destruct (_ <? _)%nat; [done |].
      destruct (parse_hh_mm_ss_ff _) as [[[[h mi] s] us] |]; [| done].
      cbn [rbind]. intros ->%datetime_new_tzinfo. by left.
Qed.

(** A text with a trailing ["Z"] is read at the offset of UTC. *)
Lemma parse_graph_datetime_Z value dt :
  Str.ends_with "Z" value = true →
  parse_graph_datetime value = Ok dt → tzinfo dt = Some utc.
Proof.
  intros HZ. unfold parse_graph_datetime. rewrite HZ.
  destruct (fromisoformat _) as [d |] eqn:Hd; [| done]. cbn [rbind].
  apply fromisoformat_plus00 in Hd as [Hn | Hu].
  - rewrite Hn. by intros [= <-].
  - rewrite Hu. by intros [= <-].
Qed.

(** A text without an offset is read at the offset of UTC. *)
Lemma parse_graph_datetime_naive value d :
  Str.ends_with "Z" value = false →
  fromisoformat value = Ok d → tzinfo d = None →
  parse_graph_datetime value = Ok (replace_tzinfo d (Some utc)).
Proof.
  intros HZ Hd Hn. unfold parse_graph_datetime. rewrite HZ, Hd. cbn [rbind].
  by rewrite Hn.
Qed.

Lemma parse_graph_datetime_aware value dt :
  parse_graph_datetime value = Ok dt → aware dt = true.
Proof.
  unfold parse_graph_datetime.
  destruct (fromisoformat _) as [d |]; [| done]. cbn [rbind].
  destruct (tzinfo d) eqn:E; intros [= <-]; unfold aware; [by rewrite E | done].
Qed.

End GraphDatetime.

(** The timestamp of a message, when it has a trailing ["Z"], is read from
    the text with ["+00:00"] in its place, at the offset of UTC. *)
Lemma parse_graph_datetime_Z_reads value d :
  Str.ends_with "Z" value = true →
  fromisoformat (Str.drop_last value +:+ "+00:00") = Ok d →
  parse_graph_datetime value = Ok (replace_tzinfo d (Some utc)).
Proof.
  intros HZ Hd. unfold parse_graph_datetime. rewrite HZ, Hd. cbn [rbind].
  destruct (fromisoformat_plus00 _ _ Hd) as [Hn | Hu]; rewrite ?Hn, ?Hu;
    [done |].
  f_equal. destruct d; simpl in *. by rewrite Hu.
Qed.

(** ** Dictionaries *)

Section DictFacts.
Context {V : Type}.
Implicit Types (d : dict V) (k : string) (v : V).

Lemma dict_mem_set_eq k v d : dict_mem k (dict_set k v d) = true.
Proof.
  unfold dict_mem. induction d as [| [k' v'] d IH]; simpl.
  - by rewrite decide_True.
  - destruct (decide (k' = k)) as [-> | Hne]; simpl.
    + by rewrite decide_True.
    + by rewrite decide_False.
Qed.

Lemma dict_get_set_eq k v d : dict_get k (dict_set k v d) = Some v.
Proof.
  induction d as [| [k' v'] d IH]; simpl.
  - by rewrite decide_True.
  - destruct (decide (k' = k)) as [-> | Hne]; simpl.
    + by rewrite decide_True.
    + by rewrite decide_False.
Qed.

Lemma dict_get_set_ne k k' v d :
  k ≠ k' → dict_get k' (dict_set k v d) = dict_get k' d.
Proof.
  intros Hne. induction d as [| [k0 v0] d IH]; simpl.
  - by rewrite decide_False.
  - destruct (decide (k0 = k)) as [-> | Hne0]; simpl.
    + by rewrite !decide_False.
    + by rewrite IH.
Qed.

Lemma dict_mem_set_mono k k' v d :
  dict_mem k' d = true → dict_mem k' (dict_set k v d) = true.
Proof.
  destruct (decide (k = k')) as [-> | Hne]; [intros _; apply dict_mem_set_eq |].
  unfold dict_mem. by rewrite dict_get_set_ne.
Qed.

(** Assigning to a new key appends it. *)
Lemma dict_set_new k v d :
  dict_mem k d = false → dict_set k v d = d ++ [(k, v)].
Proof.
  unfold dict_mem. induction d as [| [k' v'] d IH]; simpl; [done |].
  destruct (decide (k' = k)); [done |]. intros H. by rewrite IH.
Qed.

(** Assigning to a key that is present keeps the number of entries. *)
Lemma length_dict_set_mem k v d :
  dict_mem k d = true → length (dict_set k v d) = length d.
Proof.
  unfold dict_mem. induction d as [| [k' v'] d IH]; simpl; [done |].
  destruct (decide (k' = k)); simpl; [done |]. intros H. by rewrite IH.
Qed.

Lemma length_dict_values d : length (dict_values d) = length d.
Proof. unfold dict_values. apply length_fmap. Qed.

End DictFacts.

(** ** Synchronisation *)

Section SyncFacts.
Context {G : Type} `{!GraphClient G} (clock : nat → datetime).
Import TodoStorage OutlookTodoApp.

(** One turn of the loop. *)
Lemma sync_messages_cons m msgs sched new (w : World G) :
  sync_messages clock (m :: msgs) sched new w
  = if dict_mem (msg_id m) (storage_items w)
    then sync_messages clock msgs sched new w
    else match to_todo_payload m sched with
         | Raise e => (w, Raise e)
         | Ok p =>
             match TodoItem_of_payload p (replace_tzinfo (clock (ticks w)) (Some utc)) with
             | Raise e => (tick w, Raise e)
             | Ok todo =>
                 sync_messages clock msgs sched (new ++ [todo])
                   (with_items
                      (dict_set (message_id todo) todo (storage_items w))
                      (tick w))
             end
         end.
Proof.
  cbn [sync_messages]. unfold bind at 1. unfold contains, get_items, bind, ret.
  destruct (dict_mem _ _); [done |].
  unfold lift. destruct (to_todo_payload m sched) as [p |]; [| done].
  unfold now_utc.
  destruct (TodoItem_of_payload _ _) as [todo |]; [| done].
  unfold add, bind, get_items. simpl. reflexivity.
Qed.

Lemma TodoItem_of_payload_id m sched p now todo :
  to_todo_payload m sched = Ok p → TodoItem_of_payload p now = Ok todo →
  message_id todo = msg_id m.
Proof.
  unfold to_todo_payload, TodoItem_of_payload, TodoItem_new.
  destruct (parse_graph_datetime _); [| done]. cbn [rbind]. intros [= <-].
  cbn [p_message_id p_received_at p_scheduled_for].
  destruct (_ensure_tz _); [| done]. cbn [rbind].
  destruct (_ensure_tz _); [| done]. cbn [rbind].
  by intros [= <-].
Qed.

(** Messages whose ids are all known leave everything as it is. *)
Lemma sync_messages_known msgs sched new (w : World G) :
  Forall (λ m, dict_mem (msg_id m) (storage_items w) = true) msgs →
  sync_messages clock msgs sched new w = (w, Ok new).
Proof.
  induction 1 as [| m msgs Hm _ IH]; [done |].
  by rewrite sync_messages_cons, Hm.
Qed.

(** What the loop does to the world: nothing but the items held and the
    clock; the new records are appended to the store in the order in which
    they are returned. *)
Lemma sync_messages_Ok msgs sched new (w w' : World G) news :
  sync_messages clock msgs sched new w = (w', Ok news) →
  ∃ added,
    news = new ++ added
    ∧ storage_items w' = storage_items w ++ ((λ t, (message_id t, t)) <$> added)
    ∧ storage_file w' = storage_file w
    ∧ graph w' = graph w
    ∧ log w' = log w
    ∧ ticks w' = (ticks w + length added)%nat
    ∧ Forall (λ m, dict_mem (msg_id m) (storage_items w') = true) msgs.
Proof.
  revert new w. induction msgs as [| m msgs IH]; intros new w.
  - intros [= <- <-]. exists []. rewrite !app_nil_r.
    repeat split; (done || lia || constructor).
  - rewrite sync_messages_cons.
    destruct (dict_mem (msg_id m) (storage_items w)) eqn:Hmem.
    + intros Hrun. destruct (IH _ _ Hrun) as (added & -> & Hitems & ? & ? & ? & ? & Hall).
      exists added. repeat split; try done.
      constructor; [| done]. rewrite Hitems.
      unfold dict_mem in *. destruct (dict_get (msg_id m) (storage_items w)) eqn:Hg; [| done].
      clear -Hg. induction (storage_items w) as [| [k v] d IHd]; simpl in *; [done |].
      destruct (decide (k = msg_id m)); [done |]. by apply IHd.
    + destruct (to_todo_payload m sched) as [p |] eqn:Hp; [| done].
      destruct (TodoItem_of_payload p _) as [todo |] eqn:Htodo; [| done].
      intros Hrun. destruct (IH _ _ Hrun) as (added & -> & Hitems & ? & ? & ? & Ht & Hall).
      pose proof (TodoItem_of_payload_id _ _ _ _ _ Hp Htodo) as Hid.
      simpl in *. rewrite Hid in *. rewrite dict_set_new in Hitems by done.
      exists (todo :: added). rewrite <- app_assoc in *. simpl in *.
      rewrite Hid.
      repeat split; try done; try lia.
      constructor; [| done]. rewrite Hitems.
      clear. induction (storage_items w) as [| [k v] d IHd].
      * unfold dict_mem. simpl. by rewrite decide_True.
      * unfold dict_mem in *. simpl. by destruct (decide (k = msg_id m)).
Qed.

(** Whatever the outcome, the loop leaves the file, the gateway and the
    trace alone. *)
Lemma sync_messages_frame msgs sched new (w w' : World G) r :
  sync_messages clock msgs sched new w = (w', r) →
  storage_file w' = storage_file w ∧ graph w' = graph w ∧ log w' = log w.
Proof.
  revert new w. induction msgs as [| m msgs IH]; intros new w.
  - by intros [= <- <-].
  - rewrite sync_messages_cons.
    destruct (dict_mem (msg_id m) (storage_items w)); [apply IH |].
    destruct (to_todo_payload m sched) as [p |]; [| by intros [= <- <-]].
    destruct (TodoItem_of_payload p _) as [todo |]; [| by intros [= <- <-]].
    intros Hrun. by apply IH in Hrun.
Qed.

(** The loop never drops a key, whatever its outcome. *)
Lemma sync_messages_mono msgs sched new (w w' : World G) r k :
  sync_messages clock msgs sched new w = (w', r) →
  dict_mem k (storage_items w) = true → dict_mem k (storage_items w') = true.
Proof.
  revert new w. induction msgs as [| m msgs IH]; intros new w.
  - by intros [= <- <-].
  - rewrite sync_messages_cons.
    destruct (dict_mem (msg_id m) (storage_items w)); [apply IH |].
    destruct (to_todo_payload m sched) as [p |]; [| by intros [= <- <-]].
    destruct (TodoItem_of_payload p _) as [todo |]; [| by intros [= <- <-]].
    intros Hrun Hk. apply (IH _ _ Hrun). by apply dict_mem_set_mono.
Qed.

(** Whether the constructor fails does not depend on the clock. *)
Lemma TodoItem_of_payload_Raise p now now' e :
  TodoItem_of_payload p now = Raise e → TodoItem_of_payload p now' = Raise e.
Proof.
  unfold TodoItem_of_payload, TodoItem_new.
  destruct (_ensure_tz (p_received_at p)); [| done]. cbn [rbind].
  by destruct (_ensure_tz (p_scheduled_for p)).
Qed.

(** A loop that raised raises again, at the same message, when it is run
    again on the items it left, and the items stay as they are. *)
Lemma sync_messages_Raise_again msgs sched new new' (w w1 w1' : World G) e :
  sync_messages clock msgs sched new w = (w1, Raise e) →
  storage_items w1' = storage_items w1 →
  ∃ w2, sync_messages clock msgs sched new' w1' = (w2, Raise e)
        ∧ storage_items w2 = storage_items w1.
Proof.
  revert new new' w. induction msgs as [| m msgs IH]; intros new new' w.
  - by intros [= <- ?].
  - rewrite sync_messages_cons.
    destruct (dict_mem (msg_id m) (storage_items w)) eqn:Hmem.
    + intros Hrun Hitems. rewrite sync_messages_cons, Hitems.
      rewrite (sync_messages_mono _ _ _ _ _ _ _ Hrun Hmem). by eapply IH.
    + destruct (to_todo_payload m sched) as [p |] eqn:Hp.
      * destruct (TodoItem_of_payload p _) as [todo |] eqn:Htodo.
        -- intros Hrun Hitems. rewrite sync_messages_cons, Hitems.
           pose proof (TodoItem_of_payload_id _ _ _ _ _ Hp Htodo) as Hid.
           rewrite (sync_messages_mono _ _ _ _ _ _ (msg_id m) Hrun).
           ++ by eapply IH.
           ++ cbn [with_items storage_items]. rewrite Hid.
              apply dict_mem_set_eq.
        -- intros [= <- <-] Hitems. rewrite sync_messages_cons, Hitems.
           cbn [tick storage_items]. rewrite Hmem, Hp.
           rewrite (TodoItem_of_payload_Raise _ _ _ _ Htodo).
           eexists. split; [done |]. by cbn.
      * intros [= <- <-] Hitems.
        rewrite sync_messages_cons, Hitems, Hmem, Hp. by eexists.
Qed.

End SyncFacts.

Section SyncTheorems.
Context {G : Type} `{!GraphClient G} (clock : nat → datetime).
Import TodoStorage OutlookTodoApp.

Lemma sync_unread_emails_unfold limit sched (w : World G) :
  sync_unread_emails clock limit sched w
  = let w0 := called (EvFetch limit) (fetch_unread_emails limit (graph w)).1 w in
    match (fetch_unread_emails limit (graph w)).2 with
    | Raise e => (w0, Raise e)
    | Ok msgs =>
        match sync_messages clock msgs sched [] w0 with
        | (w1, Raise e) => (w1, Raise e)
        | (w1, Ok []) => (w1, Ok [])
        | (w1, Ok new) => ((save w1).1, Ok new)
        end
    end.
Proof.
  unfold sync_unread_emails, bind at 1, graph_fetch.
  destruct (fetch_unread_emails limit (graph w)) as [g [msgs | e]]; [| done].
  cbn [fst snd]. unfold bind.
  destruct (sync_messages _ _ _ _ _) as [w1 [[| t new] | e]]; done.
Qed.

End SyncTheorems.

(** ** The record made of a message *)

(** The constructor copies the fields of the payload into the record. *)
Lemma TodoItem_of_payload_copies p now todo :
  TodoItem_of_payload p now = Ok todo →
  message_id todo = p_message_id p
  ∧ subject todo = p_subject p
  ∧ sender todo = p_sender p
  ∧ received_at todo = p_received_at p
  ∧ scheduled_for todo = p_scheduled_for p
  ∧ body_preview todo = p_body_preview p
  ∧ web_link todo = p_web_link p
  ∧ completed todo = false.
Proof.
  unfold TodoItem_of_payload, TodoItem_new, _ensure_tz.
  destruct (tzinfo (p_received_at p)); [| done]. cbn [rbind].
  destruct (tzinfo (p_scheduled_for p)); [| done]. cbn [rbind].
  by intros [= <-].
Qed.

Section RecordOfMessage.
Context {G : Type} `{!GraphClient G} (clock : nat → datetime).
Import TodoStorage OutlookTodoApp.

(** Every record that the loop of [sync_unread_emails] returns was made by
    the constructor from the payload of one of the messages. *)
Lemma sync_messages_made msgs sched new (w w' : World G) news :
  sync_messages clock msgs sched new w = (w', Ok news) →
  ∃ added,
    news = new ++ added
    ∧ Forall (λ t, ∃ m p now, m ∈ msgs ∧ to_todo_payload m sched = Ok p
                              ∧ TodoItem_of_payload p now = Ok t) added.
Proof.
  revert new w. induction msgs as [| m msgs IH]; intros new w.
  - intros [= <- <-]. exists []. by rewrite app_nil_r.
  - rewrite sync_messages_cons.
    destruct (dict_mem (msg_id m) (storage_items w)).
    + intros (added & -> & Hall)%IH. exists added. split; [done |].
      eapply Forall_impl; [exact Hall |].
      intros t (m' & p & now & Hin & Hp & Ht). exists m', p, now.
      split_and!; [by apply elem_of_cons; right | done | done].
    + destruct (to_todo_payload m sched) as [p |] eqn:Hp; [| done].
      destruct (TodoItem_of_payload p _) as [todo |] eqn:Htodo; [| done].
      intros (added & -> & Hall)%IH. exists (todo :: added).
      split; [by rewrite <- app_assoc |]. constructor.
      * exists m, p, (replace_tzinfo (clock (ticks w)) (Some utc)).
        split_and!; [by apply elem_of_cons; left | done | done].
      * eapply Forall_impl; [exact Hall |].
        intros t (m' & p' & now & Hin & Hp' & Ht). exists m', p', now.
        split_and!; [by apply elem_of_cons; right | done | done].
Qed.

End RecordOfMessage.

(** C10.  Sync puts fixed defaults in the place of missing fields.
    Whenever the timestamp of the message can be read, the payload is
    built and the record is made of it (with no schedule given, or an aware
    one): the record has the id of the message, the subject
    ["(no subject)"] when the subject of the message is absent or empty,
    the sender ["Unknown sender"] when the message has neither a name nor
    an address of a sender, and the timestamp read, which is aware.  A
    [receivedDateTime] without any offset is read at the offset of UTC, and
    so is one with a trailing ["Z"].  Every record that
    [sync_unread_emails] returns is such a record of one of the fetched
    messages. *)
Theorem to_todo_payload_defaults (message : Message)
    (default_schedule : option datetime) :
  let text := msg_receivedDateTime message in
  let anonymous m :=
    ∀ r e, msg_from m = Some r → emailAddress r = Some e →
           ea_name e = None ∧ ea_address e = None in
  (∀ received, parse_graph_datetime text = Ok received →
     ∃ p, to_todo_payload message default_schedule = Ok p
          ∧ p_received_at p = received
          ∧ aware received = true
          ∧ (msg_subject message = None ∨ msg_subject message = Some "" →
             p_subject p = "(no subject)")
          ∧ (anonymous message → p_sender p = "Unknown sender")
          ∧ (∀ now, from_option aware true default_schedule = true →
                    ∃ todo,
                      TodoItem_of_payload p now = Ok todo
                      ∧ message_id todo = msg_id message
                      ∧ received_at todo = received
                      ∧ scheduled_for todo = default received default_schedule
                      ∧ completed todo = false
                      ∧ subject todo = p_subject p
                      ∧ sender todo = p_sender p
                      ∧ (msg_subject message = None
                         ∨ msg_subject message = Some "" →
                         subject todo = "(no subject)")
                      ∧ (anonymous message →
                         sender todo = "Unknown sender")))
  ∧ (∀ d, Str.ends_with "Z" text = false →
          fromisoformat text = Ok d → tzinfo d = None →
          parse_graph_datetime text = Ok (replace_tzinfo d (Some utc)))
  ∧ (∀ d, Str.ends_with "Z" text = true →
          fromisoformat (Str.drop_last text +:+ "+00:00") = Ok d →
          parse_graph_datetime text = Ok (replace_tzinfo d (Some utc)))
  ∧ (∀ received, Str.ends_with "Z" text = true →
                 parse_graph_datetime text = Ok received →
                 tzinfo received = Some utc)
  ∧ (∀ (G : Type) (client : GraphClient G) (clock : nat → datetime)
       (limit : Z) (w w' : World G) (msgs : list Message)
       (new : list TodoItem),
       (@fetch_unread_emails G client limit (graph w)).2 = Ok msgs →
       @OutlookTodoApp.sync_unread_emails G client clock limit
         default_schedule w = (w', Ok new) →
       Forall (λ t, ∃ m, m ∈ msgs
                         ∧ message_id t = msg_id m
                         ∧ (msg_subject m = None ∨ msg_subject m = Some "" →
                            subject t = "(no subject)")
                         ∧ (anonymous m → sender t = "Unknown sender")
                         ∧ parse_graph_datetime (msg_receivedDateTime m)
                           = Ok (received_at t)
                         ∧ aware (received_at t) = true) new).
Proof.
  intros text anonymous.
  assert (∀ m, msg_subject m = None ∨ msg_subject m = Some "" →
               str_or (msg_subject m) "(no subject)" = "(no subject)")
    as Hsubject.
  { by intros m [-> | ->]. }
  assert (∀ m, anonymous m → extract_sender m = "Unknown sender") as Hsender.
  { intros m Hnone. unfold extract_sender.
    destruct (msg_from m) as [[[e |]] |] eqn:Hfrom; simpl; try done.
    by destruct (Hnone _ e Hfrom eq_refl) as [-> ->]. }
  split_and!.
  - intros received Hr. unfold to_todo_payload. fold text. rewrite Hr.
    cbn [rbind]. eexists. split; [reflexivity |].
    cbn [p_subject p_sender p_received_at p_scheduled_for p_message_id
         p_body_preview p_web_link].
    pose proof (parse_graph_datetime_aware _ _ Hr) as Haw.
    split_and!; try done; [apply Hsubject | apply Hsender |].
    intros now Hs.
    unfold TodoItem_of_payload, TodoItem_new, _ensure_tz.
    cbn [p_subject p_sender p_received_at p_scheduled_for p_message_id
         p_body_preview p_web_link].
    assert (∃ tz, tzinfo received = Some tz) as [tz Er].
    { unfold aware in Haw. destruct (tzinfo received); [by eexists | done]. }
    assert (∃ tz', tzinfo (default received default_schedule) = Some tz')
      as [tz' Es].
    { destruct default_schedule as [sch |]; simpl in *; [| by eexists].
      unfold aware in Hs. destruct (tzinfo sch); [by eexists | done]. }
    rewrite Er, Es. cbn [rbind]. eexists. split; [reflexivity |].
    cbn [message_id subject sender received_at scheduled_for completed].
    split_and!; try done; [apply Hsubject | apply Hsender].
  - intros d. apply parse_graph_datetime_naive.
  - intros d. apply parse_graph_datetime_Z_reads.
  - intros received. apply parse_graph_datetime_Z.
  - intros G client clock limit w w' msgs new Hfetch.
    rewrite sync_unread_emails_unfold. cbv zeta. rewrite Hfetch.
    destruct (OutlookTodoApp.sync_messages _ _ _ _ _) as [w1 [news | e]]
      eqn:Hs; [| done].
    apply sync_messages_made in Hs as (added & -> & Hall).
    rewrite app_nil_l. intros Hrun.
    assert (new = added) as -> by (by destruct added; simplify_eq).
    eapply Forall_impl; [exact Hall |].
    intros t (m & p & now & Hin & Hp & Ht). exists m.
    apply TodoItem_of_payload_copies in Ht
      as (Hid & Hsubj & Hsndr & Hrec & _).
    unfold to_todo_payload in Hp.
    destruct (parse_graph_datetime (msg_receivedDateTime m))
      as [received |] eqn:Hr; [| done].
    cbn [rbind] in Hp. injection Hp as <-.
    cbn [p_subject p_sender p_received_at p_message_id] in *.
    rewrite Hid, Hsubj, Hsndr, Hrec.
    split_and!; try done; [apply Hsubject | apply Hsender |].
    by eapply parse_graph_datetime_aware.
Qed.

Lemma to_todo_payload_defaults_witness :
  ∃ p todo,
    to_todo_payload bare_message None = Ok p
    ∧ p_subject p = "(no subject)"
    ∧ p_sender p = "Unknown sender"
    ∧ p_received_at p = mk_datetime 2023 1 1 9 0 0 0 (Some utc)
    ∧ TodoItem_of_payload p naive_noon = Ok todo
    ∧ message_id todo = "7"
    ∧ subject todo = "(no subject)"
    ∧ sender todo = "Unknown sender"
    ∧ received_at todo = mk_datetime 2023 1 1 9 0 0 0 (Some utc)
    ∧ parse_graph_datetime "2023-01-01T09:00:00Z"
      = Ok (mk_datetime 2023 1 1 9 0 0 0 (Some utc)).
Proof.
  destruct (to_todo_payload_defaults bare_message None)
    as (Hp & Hnaive & _).
  destruct (to_todo_payload_defaults dummy_message_Z None)
    as (_ & _ & HZ & _).
  destruct (Hp (mk_datetime 2023 1 1 9 0 0 0 (Some utc)))
    as (p & Hrun & Hrec & _ & Hsubj & Hsender & Hnew).
  { exact (Hnaive (mk_datetime 2023 1 1 9 0 0 0 None) eq_refl eq_refl eq_refl). }
  destruct (Hnew naive_noon eq_refl)
    as (todo & Htodo & Hid & Hreceived & _ & _ & _ & _ & Hts & Htn).
  exists p, todo.
  split; [exact Hrun |].
  split; [apply Hsubj; by left |].
  split; [by apply Hsender |].
  split; [exact Hrec |].
  split; [exact Htodo |].
  split; [exact Hid |].
  split; [apply Hts; by left |].
  split; [by apply Htn |].
  split; [exact Hreceived |].
  exact (HZ (mk_datetime 2023 1 1 9 0 0 0 (Some utc)) eq_refl eq_refl).
Defined.

(** C8.  [sync_unread_emails] saves only on change.  A run that returns no
    new record leaves the items and the file as they were and does not call
    [save]; that is the outcome whenever every fetched id is already held,
    and so when nothing is fetched.  A run that returns new records has
    appended exactly these to the store and calls [save] once, last, so
    that the file holds all of them. *)
Theorem sync_saves_on_change {G : Type} `{!GraphClient G}
    (clock : nat → datetime) (limit : Z) (schedule_for : option datetime)
    (w w' : World G) (r : result (list TodoItem)) :
  OutlookTodoApp.sync_unread_emails clock limit schedule_for w = (w', r) →
  match r with
  | Ok [] =>
      storage_items w' = storage_items w
      ∧ storage_file w' = storage_file w
      ∧ log w' = log w ++ [EvFetch limit]
  | Ok new =>
      storage_items w'
      = storage_items w ++ ((λ t, (message_id t, t)) <$> new)
      ∧ storage_file w' = Some (to_dict <$> dict_values (storage_items w'))
      ∧ log w' = log w ++ [EvFetch limit; EvSave]
  | Raise _ =>
      storage_file w' = storage_file w ∧ log w' = log w ++ [EvFetch limit]
  end
  ∧ (∀ msgs, (fetch_unread_emails limit (graph w)).2 = Ok msgs →
             Forall (λ m, dict_mem (msg_id m) (storage_items w) = true) msgs →
             r = Ok []).
Proof.
  rewrite sync_unread_emails_unfold. cbv zeta. intros Hrun. split.
  - destruct (fetch_unread_emails limit (graph w)).2 as [msgs | e] eqn:Hf.
    + destruct (OutlookTodoApp.sync_messages _ _ _ _ _) as [w1 [new | e]] eqn:Hs.
      * apply sync_messages_Ok in Hs
          as (added & -> & Hitems & Hfile & _ & Hlog & _ & _).
        simpl in *. destruct added as [| t added]; simplify_eq/=.
        { by rewrite app_nil_r in Hitems. }
        repeat split; [done |]. rewrite Hlog. by rewrite <- app_assoc.
      * apply sync_messages_frame in Hs as (Hfile & _ & Hlog).
        by simplify_eq/=.
    + by simplify_eq/=.
  - intros msgs Hf Hknown. rewrite Hf in Hrun.
    rewrite sync_messages_known in Hrun by done. by simplify_eq.
Qed.

Lemma sync_saves_on_change_witness :
  ∃ w' t,
    OutlookTodoApp.sync_unread_emails sample_clock 25 None
      (empty_world [dummy_message]) = (w', Ok [t])
    ∧ storage_items w' = [("1", t)]
    ∧ storage_file w' = Some [to_dict t]
    ∧ log w' = [EvFetch 25; EvSave].
Proof.
  eexists _, _. split; [vm_compute; reflexivity |].
  exact (proj1 (@sync_saves_on_change (list Message) InMemoryGraphClient
                  sample_clock 25 None (empty_world [dummy_message]) _
                  (Ok [_]) ltac:(vm_compute; reflexivity))).
Defined.

(** C1.  [sync_unread_emails] is idempotent.  Run a second time on the
    same fetched messages, it leaves the items and the file as the first
    run left them.  After a first run that returned, every fetched id is in
    the store and the second run passes over each of them: it returns no
    new record and raises nothing.  (A first run that raised on a message
    raises the same error again.) *)
Theorem sync_idempotent {G : Type} `{!GraphClient G}
    (clock : nat → datetime) (limit limit' : Z)
    (schedule_for : option datetime) (w w1 w2 : World G)
    (r1 r2 : result (list TodoItem)) (msgs : list Message) :
  OutlookTodoApp.sync_unread_emails clock limit schedule_for w = (w1, r1) →
  (fetch_unread_emails limit (graph w)).2 = Ok msgs →
  (fetch_unread_emails limit' (graph w1)).2 = Ok msgs →
  OutlookTodoApp.sync_unread_emails clock limit' schedule_for w1 = (w2, r2) →
  storage_items w2 = storage_items w1
  ∧ storage_file w2 = storage_file w1
  ∧ log w2 = log w1 ++ [EvFetch limit']
  ∧ match r1 with
    | Ok _ =>
        r2 = Ok []
        ∧ Forall (λ m, dict_mem (msg_id m) (storage_items w1) = true) msgs
        ∧ ticks w2 = ticks w1
    | Raise e => r2 = Raise e
    end.
Proof.
  rewrite !sync_unread_emails_unfold. cbv zeta. intros Hrun Hf Hf'.
  rewrite Hf in Hrun. rewrite Hf'.
  destruct (OutlookTodoApp.sync_messages clock msgs schedule_for [] _)
    as [w0 [new | e]] eqn:Hs in Hrun.
  - assert (Forall (λ m, dict_mem (msg_id m) (storage_items w1) = true) msgs)
      as Hknown.
    { apply sync_messages_Ok in Hs as (_ & _ & _ & _ & _ & _ & _ & Hall).
      by destruct new; simplify_eq/=. }
    rewrite sync_messages_known by done.
    assert (r1 = Ok new) as -> by (by destruct new; simplify_eq).
    intros [= <- <-]. by cbn.
  - injection Hrun as <- <-.
    destruct (OutlookTodoApp.sync_messages clock msgs schedule_for []
                (OutlookTodoApp.called (EvFetch limit') _ w0))
      as [w3 r3] eqn:Hs2.
    destruct (sync_messages_Raise_again clock msgs schedule_for [] [] _ w0
                (OutlookTodoApp.called (EvFetch limit')
                   (fetch_unread_emails limit' (graph w0)).1 w0) e Hs eq_refl)
      as (w4 & Hagain & Hitems).
    rewrite Hs2 in Hagain. injection Hagain as -> ->.
    apply sync_messages_frame in Hs2 as (Hfile & _ & Hlog).
    intros [= <- <-]. by rewrite Hitems, Hfile, Hlog.
Qed.

Lemma sync_idempotent_witness :
  OutlookTodoApp.sync_unread_emails sample_clock 25 None
    (empty_world [dummy_message]) = (synced_world, Ok [dummy_item])
  ∧ OutlookTodoApp.sync_unread_emails sample_clock 25 None synced_world
    = (resynced_world, Ok [])
  ∧ storage_items resynced_world = storage_items synced_world
  ∧ storage_file resynced_world = storage_file synced_world.
Proof.
  assert (OutlookTodoApp.sync_unread_emails sample_clock 25 None
            (empty_world [dummy_message]) = (synced_world, Ok [dummy_item]))
    as Hrun1 by (vm_compute; reflexivity).
  assert (OutlookTodoApp.sync_unread_emails sample_clock 25 None synced_world
          = (resynced_world, Ok []))
    as Hrun2 by (vm_compute; reflexivity).
  destruct (@sync_idempotent (list Message) InMemoryGraphClient sample_clock
              25 25 None (empty_world [dummy_message]) synced_world
              resynced_world (Ok [dummy_item]) (Ok []) [dummy_message]
              Hrun1 eq_refl eq_refl Hrun2)
    as (Hitems & Hfile & _).
  by split_and!.
Defined.

(** ** Completion *)

Section MarkDoneFacts.
Context {G : Type} `{!GraphClient G}.
Import TodoStorage OutlookTodoApp.

Lemma mark_done_unfold mid (w : World G) :
  mark_done mid w
  = match dict_get mid (storage_items w) with
    | None => (w, Raise KeyError)
    | Some item =>
        if completed item then (w, Ok item)
        else
          let w1 := called (EvMarkRead mid)
                      (mark_email_as_read mid (graph w)).1 w in
          match (mark_email_as_read mid (graph w)).2 with
          | Raise e => (w1, Raise e)
          | Ok _ =>
              let item' := set_completed item true in
              let w2 := with_items (dict_set mid item' (storage_items w1)) w1 in
              (update item' ;; save ;; ret item')%world w2
          end
    end.
Proof.
  unfold mark_done, bind at 1, get, get_items, bind at 1, ret.
  destruct (dict_get mid (storage_items w)) as [item |]; [| done].
  destruct (completed item); [done |].
  unfold bind at 1, graph_mark_read.
  destruct (mark_email_as_read mid (graph w)) as [g [[] | e]]; done.
Qed.

(** The run of [mark_done] on a pending record whose gateway call
    succeeds: the call comes first, [save] last. *)
Lemma mark_done_success mid (w : World G) item g :
  dict_get mid (storage_items w) = Some item →
  completed item = false →
  message_id item = mid →
  mark_email_as_read mid (graph w) = (g, Ok ()) →
  let item' := set_completed item true in
  let items' := dict_set mid item' (storage_items w) in
  mark_done mid w
  = (mk_World items' (Some (to_dict <$> dict_values items')) g (ticks w)
       (log w ++ [EvMarkRead mid; EvSave]), Ok item').
Proof.
  intros Hget Hpending Hid Hgw. rewrite mark_done_unfold, Hget, Hpending, Hgw.
  cbn [fst snd]. cbv zeta.
  unfold bind at 1, update, bind at 1, get_items.
  cbn [message_id set_completed]. rewrite Hid.
  cbn [with_items called storage_items].
  rewrite dict_mem_set_eq. cbn [negb]. unfold set_items, with_items, bind, save, ret.
  cbn [storage_items storage_file graph ticks log].
  assert (∀ v (d : dict TodoItem), dict_set mid v (dict_set mid v d) = dict_set mid v d)
    as Hidem.
  { intros v d. induction d as [| [k x] d IH]; simpl.
    - by rewrite decide_True.
    - destruct (decide (k = mid)) as [-> | Hne]; simpl.
      + by rewrite decide_True.
      + rewrite decide_False by done. by rewrite IH. }
  rewrite Hidem. unfold called. cbn [graph ticks log].
  by rewrite <- app_assoc.
Qed.

End MarkDoneFacts.

(** C2.  [mark_done] on a stored record that is not completed calls the
    gateway before it changes anything: when the call raises, [mark_done]
    raises the same error and the items (the record and its [completed]
    among them) and the file are as before; the trace shows the call and no
    [save]. *)
Theorem mark_done_gateway_failure {G : Type} `{!GraphClient G}
    (w : World G) (mid : string) (item : TodoItem) (g : G) (e : exn) :
  dict_get mid (storage_items w) = Some item →
  completed item = false →
  mark_email_as_read mid (graph w) = (g, Raise e) →
  ∃ w', OutlookTodoApp.mark_done mid w = (w', Raise e)
        ∧ storage_items w' = storage_items w
        ∧ dict_get mid (storage_items w') = Some item
        ∧ storage_file w' = storage_file w
        ∧ ticks w' = ticks w
        ∧ log w' = log w ++ [EvMarkRead mid].
Proof.
  intros Hget Hpending Hgw. eexists.
  rewrite mark_done_unfold, Hget, Hpending, Hgw. cbn [fst snd]. cbv zeta.
  by repeat split.
Qed.

(** C7.  [mark_done] on a completed record returns the record and leaves
    the world untouched: no call of the gateway, no change of the store, no
    [save]; on an id that the store does not hold it raises [KeyError], the
    not-found error. *)
Theorem mark_done_completed_or_absent {G : Type} `{!GraphClient G}
    (w : World G) (mid : string) :
  (∀ item, dict_get mid (storage_items w) = Some item →
           completed item = true →
           OutlookTodoApp.mark_done mid w = (w, Ok item))
  ∧ (dict_get mid (storage_items w) = None →
     OutlookTodoApp.mark_done mid w = (w, Raise KeyError)).
Proof.
  split.
  - intros item Hget Hdone. by rewrite mark_done_unfold, Hget, Hdone.
  - intros Hget. by rewrite mark_done_unfold, Hget.
Qed.

Lemma mark_done_gateway_failure_witness :
  ∃ w', OutlookTodoApp.mark_done "1" pending_world
        = (w', Raise (GraphApiError 503))
        ∧ storage_items w' = storage_items pending_world
        ∧ dict_get "1" (storage_items w') = Some dummy_item
        ∧ storage_file w' = storage_file pending_world
        ∧ ticks w' = ticks pending_world
        ∧ log w' = log pending_world ++ [EvMarkRead "1"].
Proof.
  exact (@mark_done_gateway_failure Unreachable UnreachableGraphClient
           pending_world "1" dummy_item unreachable (GraphApiError 503)
           eq_refl eq_refl eq_refl).
Defined.

Lemma mark_done_completed_or_absent_witness :
  OutlookTodoApp.mark_done "1" done_world = (done_world, Ok done_item)
  ∧ OutlookTodoApp.mark_done "2" done_world = (done_world, Raise KeyError).
Proof.
  split.
  - exact (proj1 (@mark_done_completed_or_absent Unreachable
                    UnreachableGraphClient done_world "1")
             done_item eq_refl eq_refl).
  - exact (proj2 (@mark_done_completed_or_absent Unreachable
                    UnreachableGraphClient done_world "2") eq_refl).
Defined.

(** ** Manual additions *)

Section ManualFacts.
Context {G : Type} `{!GraphClient G} (clock : nat → datetime).
Import TodoStorage OutlookTodoApp.

Lemma add_manual_item_unfold subj sndr sched preview link (w : World G) l :
  all_of (storage_items w) = Ok l →
  aware sched = true →
  let mid := "manual-" +:+ pretty (length l + 1)%nat in
  let todo :=
    mk_TodoItem mid subj sndr sched sched preview link false
      (replace_tzinfo (clock (ticks w)) (Some utc)) in
  let items' := dict_set mid todo (storage_items w) in
  add_manual_item clock subj sndr sched preview link w
  = (mk_World items' (Some (to_dict <$> dict_values items')) (graph w)
       (S (ticks w)) (log w ++ [EvSave]), Ok todo).
Proof.
  intros Hall Haw. cbv zeta.
  unfold add_manual_item, bind at 1, all, bind at 1, get_items, lift.
  rewrite Hall. unfold bind at 1, now_utc. unfold bind at 1, lift.
  unfold TodoItem_new, _ensure_tz. unfold aware in Haw.
  destruct (tzinfo sched); [| done]. cbn [rbind replace_tzinfo tzinfo].
  unfold bind at 1, add, bind at 1, get_items. cbn [negb andb].
  unfold set_items, bind, save, ret. done.
Qed.

End ManualFacts.

(** C9.  [add_manual_item] always gives the new record the id
    ["manual-<n>"], [n] being the number of stored records plus one, and
    adds it with [overwrite] set.  So when the store already holds that id,
    the record under it is replaced by the new one, no duplicate-key error
    is raised and the number of stored records stays the same; when the id
    is new, the record is appended. *)
Theorem add_manual_item_overwrites {G : Type} `{!GraphClient G}
    (clock : nat → datetime) (subj sndr : string) (sched : datetime)
    (preview : string) (link : option string) (w : World G) :
  TodoStorage.well_formed (storage_items w) = true →
  aware sched = true →
  let mid := "manual-" +:+ pretty (length (storage_items w) + 1)%nat in
  ∃ w' todo,
    OutlookTodoApp.add_manual_item clock subj sndr sched preview link w
    = (w', Ok todo)
    ∧ message_id todo = mid
    ∧ subject todo = subj
    ∧ storage_items w' = dict_set mid todo (storage_items w)
    ∧ dict_get mid (storage_items w') = Some todo
    ∧ (dict_mem mid (storage_items w) = true →
       length (storage_items w') = length (storage_items w))
    ∧ (dict_mem mid (storage_items w) = false →
       storage_items w' = storage_items w ++ [(mid, todo)]).
Proof.
  intros Hok Haw mid.
  pose proof (add_manual_item_unfold clock subj sndr sched preview link w _
                (all_of_aware _ Hok) Haw) as Hrun.
  cbv zeta in Hrun. rewrite !length_sorted, !length_dict_values in Hrun.
  fold mid in Hrun. eexists _, _. split; [exact Hrun |].
  cbn [message_id subject storage_items].
  split_and?; try done.
  - apply dict_get_set_eq.
  - apply length_dict_set_mem.
  - apply dict_set_new.
Qed.

Lemma add_manual_item_overwrites_witness :
  ∃ w' todo,
    OutlookTodoApp.add_manual_item sample_clock "Call the bank" "me" utc_noon
      "" None manual_world = (w', Ok todo)
    ∧ dict_get "manual-2" (storage_items manual_world) = Some manual_item
    ∧ message_id todo = "manual-2"
    ∧ subject todo = "Call the bank"
    ∧ dict_get "manual-2" (storage_items w') = Some todo
    ∧ length (storage_items w') = length (storage_items manual_world).
Proof.
  destruct (@add_manual_item_overwrites (list Message) InMemoryGraphClient
              sample_clock "Call the bank" "me" utc_noon "" None manual_world
              eq_refl eq_refl)
    as (w' & todo & Hrun & Hid & Hsubj & _ & Hget & Hlen & _).
  exists w', todo. split_and?; try done. by apply Hlen.
Defined.

(** ** The export of the active items *)

Section ExportFacts.
Context {G : Type} `{!GraphClient G} (format_datetime : datetime → string).
Import TodoStorage OutlookTodoApp.

Lemma has_suffix_refl suffix : has_suffix suffix suffix = true.
Proof. destruct suffix; cbn [has_suffix]; by rewrite bool_decide_eq_true_2. Qed.

Lemma has_suffix_app suffix s : has_suffix suffix (s +:+ suffix) = true.
Proof.
  induction s as [| a s IH]; [apply has_suffix_refl |].
  rewrite ?app_cons. cbn [has_suffix]. by case_bool_decide.
Qed.

Lemma str_app_assoc (a b c : string) : (a +:+ b) +:+ c = a +:+ (b +:+ c).
Proof. induction a as [| x a IH]; [done |]. rewrite ?app_cons. by f_equal. Qed.

(** Every file name of the export is matched by [glob("*.md")]. *)
Lemma is_md_filename item : is_md (_filename_for item) = true.
Proof.
  unfold is_md, _filename_for. cbv zeta.
  rewrite <- !str_app_assoc. apply has_suffix_app.
Qed.

(** The writes: every file name of the items holds the text of one of
    the items of that name, the other files are as before. *)
Lemma write_items_spec items dir written :
  let res := write_items format_datetime items dir written in
  res.2 = written ++ (_filename_for <$> items)
  ∧ ∀ name,
      (name ∈ _filename_for <$> items →
       ∃ r, r ∈ items ∧ _filename_for r = name
            ∧ res.1 !! name = Some (item_to_markdown format_datetime r))
      ∧ (name ∉ _filename_for <$> items → res.1 !! name = dir !! name).
Proof.
  revert dir written. induction items as [| item items IH]; intros dir written.
  - simpl. rewrite app_nil_r. split; [done |]. intros name.
    split; [by intros ?%elem_of_nil | done].
  - cbn [write_items]. cbv zeta.
    destruct (IH (<[_filename_for item := item_to_markdown format_datetime item]> dir)
                (written ++ [_filename_for item])) as [Hw Hdir].
    split; [rewrite Hw; by rewrite <- app_assoc |].
    intros name. destruct (Hdir name) as [Hin Hout]. rewrite fmap_cons. split.
    + intros Hname.
      destruct (decide (name ∈ _filename_for <$> items)) as [Hi | Hni].
      * destruct (Hin Hi) as (r & Hr & Hf & Hl). exists r.
        split; [by apply elem_of_cons; right | done].
      * apply elem_of_cons in Hname as [-> | ?]; [| done].
        exists item. split; [by apply elem_of_cons; left |].
        split; [done |]. rewrite (Hout Hni). apply lookup_insert_eq.
    + intros Hname. apply not_elem_of_cons in Hname as [Hne Hni].
      rewrite (Hout Hni). by apply lookup_insert_ne.
Qed.

(** The deletions. *)
Lemma lookup_set_fold_delete (dir : gmap string string) (X : gset string) name :
  set_fold (λ path d, delete path d) dir X !! name
  = if decide (name ∈ X) then None else dir !! name.
Proof.
  revert name.
  refine (set_fold_ind_L
            (λ (d : gmap string string) (Y : gset string),
               ∀ name, d !! name = if decide (name ∈ Y) then None else dir !! name)
            (λ path d, delete path d) dir _ _ X).
  - intros name. by rewrite decide_False by set_solver.
  - intros x Y d Hx IH name. destruct (decide (x = name)) as [<- | Hne].
    + rewrite lookup_delete_eq. rewrite decide_True; [done |].
      apply elem_of_union_l. by apply elem_of_singleton.
    + rewrite lookup_delete_ne by done. rewrite IH.
      destruct (decide (name ∈ Y)).
      * rewrite decide_True; [done |]. by apply elem_of_union_r.
      * rewrite decide_False; [done |].
        intros [Hx'%elem_of_singleton | HY]%elem_of_union; congruence.
Qed.


End ExportFacts.



(** ** The scenario of the tests, end to end *)

Example end_to_end :
  let app :=
    (new_items <- OutlookTodoApp.sync_unread_emails sample_clock 25 None ;;
     item <- OutlookTodoApp.mark_done "1" ;;
     exported <- OutlookTodoApp.export_active_markdown isoformat sample_dir ;;
     ret (subject <$> new_items, completed item, exported.2))%world in
  let run := app (empty_world [dummy_message]) in
  run.2 = Ok (["Subject 1"], true, [])
  ∧ log run.1 = [EvFetch 25; EvSave; EvMarkRead "1"; EvSave]
  ∧ msg_isRead <$> graph run.1 = [true].
Proof. vm_compute. done. Qed.

(** Two manual additions, the removal of the first, and a third addition:
    the third takes the id of the second and replaces it. *)
Example manual_ids_collide :
  let app :=
    (OutlookTodoApp.add_manual_item sample_clock "one" "me" utc_noon "" None ;;
     OutlookTodoApp.add_manual_item sample_clock "two" "me" utc_noon "" None ;;
     TodoStorage.remove "manual-1" ;;
     before <- TodoStorage.get_items ;;
     OutlookTodoApp.add_manual_item sample_clock "three" "me" utc_noon "" None ;;
     after <- TodoStorage.get_items ;;
     ret ((λ kv, (kv.1, subject kv.2)) <$> before,
          (λ kv, (kv.1, subject kv.2)) <$> after))%world in
  (app (empty_world [])).2
  = Ok ([("manual-2", "two")], [("manual-2", "three")]).
Proof. vm_compute. done. Qed.


(** * Further properties *)

(** ** Dictionaries: keys and order *)

Section DictOrder.
Context {V : Type}.
Implicit Types (d : dict V) (k : string) (v : V).

Lemma dict_mem_elem_of k d : dict_mem k d = true ↔ k ∈ d.*1.
Proof.
  unfold dict_mem. induction d as [| [k' v'] d IH]; simpl.
  - split; [done | by intros ?%elem_of_nil].
  - destruct (decide (k' = k)) as [-> | Hne].
    + split; [intros _; left | done].
    + rewrite IH. split; [by right |].
      by intros [? | ?]%elem_of_cons.
Qed.

Lemma dict_mem_false_not_elem_of k d : dict_mem k d = false ↔ k ∉ d.*1.
Proof.
  rewrite <- dict_mem_elem_of. by destruct (dict_mem k d).
Qed.

(** Assigning to a key that is present keeps the keys and their order. *)
Lemma dict_set_keys_mem k v d :
  dict_mem k d = true → (dict_set k v d).*1 = d.*1.
Proof.
  unfold dict_mem. induction d as [| [k' v'] d IH]; simpl; [done |].
  destruct (decide (k' = k)) as [-> | Hne]; simpl; [done |].
  intros H. f_equal. by apply IH.
Qed.

Lemma dict_set_keys k v d :
  (dict_set k v d).*1 = if dict_mem k d then d.*1 else d.*1 ++ [k].
Proof.
  destruct (dict_mem k d) eqn:Hm.
  - by apply dict_set_keys_mem.
  - rewrite dict_set_new by done. by rewrite fmap_app.
Qed.

Lemma dict_set_NoDup k v d : NoDup d.*1 → NoDup (dict_set k v d).*1.
Proof.
  intros Hd. rewrite dict_set_keys. destruct (dict_mem k d) eqn:Hm; [done |].
  apply NoDup_app. split_and!; [done | | apply NoDup_singleton].
  intros x Hx ->%list_elem_of_singleton.
  by apply dict_mem_false_not_elem_of in Hm.
Qed.

Lemma dict_get_del_ne k k' d : k ≠ k' → dict_get k' (dict_del k d) = dict_get k' d.
Proof.
  intros Hne. induction d as [| [k0 v0] d IH]; simpl; [done |].
  destruct (decide (k0 = k)) as [-> | Hne0]; simpl.
  - by rewrite decide_False.
  - by rewrite IH.
Qed.

Lemma dict_get_None k d : dict_get k d = None ↔ k ∉ d.*1.
Proof.
  rewrite <- dict_mem_false_not_elem_of. unfold dict_mem.
  by destruct (dict_get k d).
Qed.

Lemma dict_del_keys k d : NoDup d.*1 → (dict_del k d).*1 = filter (λ x, x ≠ k) d.*1.
Proof.
  induction d as [| [k0 v0] d IH]; simpl; [done |].
  intros [Hk0 Hd]%NoDup_cons. destruct (decide (k0 = k)) as [-> | Hne].
  - rewrite filter_cons_False by (by intros ?).
    clear IH Hd. induction d as [| [k1 v1] d IH]; simpl; [done |].
    apply not_elem_of_cons in Hk0 as [Hne Hk0]. simpl in *.
    rewrite filter_cons_True by done. f_equal. by apply IH.
  - rewrite filter_cons_True by done. simpl. f_equal. by apply IH.
Qed.

End DictOrder.

(** ** The operations of [TodoStorage] *)

Section StorageFacts.
Context {G : Type}.
Import TodoStorage.

Lemma keyed_set item (items : dict TodoItem) :
  keyed items → keyed (dict_set (message_id item) item items).
Proof.
  intros [Hnd Hk]. split; [by apply dict_set_NoDup |].
  clear Hnd. induction Hk as [| [k v] d Hkv Hd IH]; simpl.
  - by repeat constructor.
  - destruct (decide (k = message_id item)); constructor; done.
Qed.

Lemma keyed_del k (items : dict TodoItem) : keyed items → keyed (dict_del k items).
Proof.
  intros [Hnd Hk]. split.
  - rewrite dict_del_keys by done. by apply NoDup_filter.
  - clear Hnd. induction Hk as [| [k' v] d Hkv Hd IH]; simpl; [done |].
    destruct (decide (k' = k)); [done | by constructor].
Qed.

Lemma keyed_get k item (items : dict TodoItem) :
  keyed items → dict_get k items = Some item → message_id item = k.
Proof.
  intros [_ Hk]. induction Hk as [| [k' v] d Hkv Hd IH]; simpl; [done |].
  destruct (decide (k' = k)) as [<- | ?]; [| done].
  by intros [= <-].
Qed.

End StorageFacts.

(** X1.  [TodoStorage.add] raises [KeyError] exactly when [overwrite] is
    unset and the id is already held, and then changes nothing.  Otherwise
    the item is found under its id afterwards, every other id is found as
    before, the keys are the old ones (with the new id last when it is
    new), and the file is not touched. *)
Theorem add_then_get {G : Type} (w : World G) (item : TodoItem)
    (overwrite : bool) :
  let held := dict_mem (message_id item) (storage_items w) in
  match TodoStorage.add item overwrite w with
  | (w', Ok _) =>
      (overwrite = true ∨ held = false)
      ∧ TodoStorage.get (message_id item) w' = (w', Ok (Some item))
      ∧ (∀ k, k ≠ message_id item →
              dict_get k (storage_items w') = dict_get k (storage_items w))
      ∧ (storage_items w').*1
        = (if held then (storage_items w).*1
           else (storage_items w).*1 ++ [message_id item])
      ∧ storage_file w' = storage_file w
      ∧ log w' = log w
  | (w', Raise e) =>
      e = KeyError ∧ overwrite = false ∧ held = true ∧ w' = w
  end.
Proof.
  intros held. unfold TodoStorage.add, bind, TodoStorage.get_items.
  fold held. destruct overwrite, held eqn:Hheld; cbn [negb andb]; try done;
    unfold TodoStorage.set_items, TodoStorage.get, bind, ret,
      TodoStorage.get_items; cbn [with_items storage_items storage_file log];
    (split_and!; [auto | by rewrite dict_get_set_eq
                 | by intros k Hk; apply dict_get_set_ne
                 | by rewrite dict_set_keys; fold held; rewrite Hheld
                 | done | done]).
Qed.

(** X2.  [TodoStorage.update] raises [KeyError] exactly when the id is not
    held, and then changes nothing.  Otherwise the item replaces the one
    under its id in place: the keys and their order are as before, and
    every other id is found as before. *)
Theorem update_in_place {G : Type} (w : World G) (item : TodoItem) :
  match TodoStorage.update item w with
  | (w', Ok _) =>
      dict_mem (message_id item) (storage_items w) = true
      ∧ dict_get (message_id item) (storage_items w') = Some item
      ∧ (∀ k, k ≠ message_id item →
              dict_get k (storage_items w') = dict_get k (storage_items w))
      ∧ (storage_items w').*1 = (storage_items w).*1
      ∧ storage_file w' = storage_file w
  | (w', Raise e) =>
      e = KeyError ∧ dict_mem (message_id item) (storage_items w) = false
      ∧ w' = w
  end.
Proof.
  unfold TodoStorage.update, bind, TodoStorage.get_items.
  destruct (dict_mem (message_id item) (storage_items w)) eqn:Hheld;
    cbn [negb]; [| done].
  unfold TodoStorage.set_items. cbn [with_items storage_items storage_file].
  split_and!; try done.
  - apply dict_get_set_eq.
  - intros k Hk. by apply dict_get_set_ne.
  - by apply dict_set_keys_mem.
Qed.

(** X3.  [TodoStorage.remove] never raises.  On a store with no key twice
    the id is not found afterwards, every other id is found as before and
    the remaining keys keep their order; an id that is not held leaves the
    store as it is. *)
Theorem remove_then_get {G : Type} (w : World G) (message_id : string) :
  NoDup (storage_items w).*1 →
  ∃ w', TodoStorage.remove message_id w = (w', Ok ())
        ∧ dict_get message_id (storage_items w') = None
        ∧ (∀ k, k ≠ message_id →
                dict_get k (storage_items w') = dict_get k (storage_items w))
        ∧ (storage_items w').*1
          = filter (λ k, k ≠ message_id) (storage_items w).*1
        ∧ (dict_mem message_id (storage_items w) = false → w' = w)
        ∧ storage_file w' = storage_file w.
Proof.
  intros Hnd. unfold TodoStorage.remove, bind, TodoStorage.get_items.
  destruct (dict_mem message_id (storage_items w)) eqn:Hheld.
  - eexists. split; [reflexivity |].
    cbn [with_items storage_items storage_file]. split_and!; try done.
    + apply dict_get_None. rewrite dict_del_keys by done.
      intros [Hne _]%list_elem_of_filter. by apply Hne.
    + intros k Hk. by apply dict_get_del_ne.
    + by apply dict_del_keys.
  - exists w. split; [reflexivity |]. split_and!; try done.
    + apply dict_get_None. by apply dict_mem_false_not_elem_of.
    + apply dict_mem_false_not_elem_of in Hheld. symmetry.
      clear Hnd. induction (storage_items w).*1 as [| x l IH]; [done |].
      apply not_elem_of_cons in Hheld as [Hne Hl].
      rewrite filter_cons_True by done. f_equal. by apply IH.
Qed.

Lemma remove_then_get_witness :
  ∃ w', TodoStorage.remove "1" synced_world = (w', Ok ())
        ∧ dict_get "1" (storage_items w') = None
        ∧ storage_items w' = []
        ∧ storage_file w' = storage_file synced_world.
Proof.
  destruct (remove_then_get synced_world "1" (NoDup_singleton "1"))
    as (w' & Hrun & Hget & _ & Hkeys & _ & Hfile).
  exists w'. split_and!; [exact Hrun | exact Hget | | exact Hfile].
  by destruct (storage_items w').
Defined.

(** X4.  [TodoStorage.extend] without [overwrite] adds the items one by
    one: it returns when their ids are pairwise different and new, and the
    items are then appended in their order; otherwise it raises [KeyError]
    at the first item whose id is held by then, and the items before it
    stay added. *)
Theorem extend_until_duplicate {G : Type} (items : list TodoItem)
    (w : World G) :
  let entries (l : list TodoItem) := (λ t, (message_id t, t)) <$> l in
  match TodoStorage.extend items false w with
  | (w', Ok _) =>
      NoDup (message_id <$> items)
      ∧ Forall (λ t, dict_mem (message_id t) (storage_items w) = false) items
      ∧ storage_items w' = storage_items w ++ entries items
  | (w', Raise e) =>
      e = KeyError
      ∧ ∃ before item after,
          items = before ++ item :: after
          ∧ storage_items w' = storage_items w ++ entries before
          ∧ dict_mem (message_id item) (storage_items w') = true
  end.
Proof.
  intros entries. revert w. induction items as [| item items IH]; intros w.
  - simpl. rewrite app_nil_r. split_and!; [constructor | constructor | done].
  - cbn [TodoStorage.extend]. unfold bind at 1, TodoStorage.add, bind at 1,
      TodoStorage.get_items. cbn [negb andb].
    destruct (dict_mem (message_id item) (storage_items w)) eqn:Hheld.
    + split; [done |]. exists [], item, items. unfold entries. simpl.
      by rewrite app_nil_r.
    + unfold TodoStorage.set_items.
      specialize (IH (with_items (dict_set (message_id item) item
                                     (storage_items w)) w)).
      destruct (TodoStorage.extend items false _) as [w' [[] | e]].
      * destruct IH as (Hnd & Hfresh & Hitems).
        cbn [with_items storage_items] in *.
        rewrite dict_set_new in Hitems, Hfresh by done.
        assert (Forall (λ t, dict_mem (message_id t) (storage_items w) = false
                             ∧ message_id t ≠ message_id item) items) as Hf.
        { eapply Forall_impl; [exact Hfresh |]. intros t Ht.
          apply dict_mem_false_not_elem_of in Ht.
          rewrite fmap_app, elem_of_app in Ht. split.
          - apply dict_mem_false_not_elem_of. tauto.
          - intros Heq. apply Ht. right. rewrite Heq. simpl. left. }
        split_and!.
        -- rewrite fmap_cons. apply NoDup_cons. split; [| done].
           intros (t & Heq & Ht)%list_elem_of_fmap.
           by destruct (proj1 (Forall_forall _ _) Hf t Ht).
        -- constructor; [done |]. eapply Forall_impl; [exact Hf |].
           by intros t [? _].
        -- rewrite Hitems. unfold entries. simpl. by rewrite <- app_assoc.
      * destruct IH as (-> & before & it & after & -> & Hitems & Hmem).
        split; [done |]. exists (item :: before), it, after.
        split_and!; [done | | done].
        cbn [with_items storage_items] in Hitems.
        rewrite dict_set_new in Hitems by done. rewrite Hitems.
        unfold entries. simpl. by rewrite <- app_assoc.
Qed.

(** ** Loading what was saved *)

Section LoadFacts.
Context {G : Type} (clock : nat → datetime).

Lemma advance_0 (w : World G) : advance 0 w = w.
Proof. destruct w. unfold advance. simpl. f_equal. lia. Qed.

Lemma advance_tick n (w : World G) : advance n (tick w) = advance (S n) w.
Proof. unfold advance, tick. simpl. f_equal. lia. Qed.

(** [load_items] changes nothing but the clock. *)
Lemma load_items_frame data acc (w w' : World G) r :
  load_items clock data acc w = (w', r) →
  ∃ n, w' = advance n w.
Proof.
  revert acc w. induction data as [| item_data data IH]; intros acc w.
  - intros [= <- _]. exists 0%nat. by rewrite advance_0.
  - cbn [load_items]. unfold bind at 1, lift.
    destruct (rbind _ _) as [key |]; [| intros [= <- _]; exists 0%nat;
                                         by rewrite advance_0].
    unfold bind at 1, OutlookTodoApp.now_utc. unfold bind at 1, lift.
    destruct (from_dict _ _) as [item |].
    + intros [n ->]%IH. exists (S n). apply advance_tick.
    + intros [= <- _]. exists 1%nat. by rewrite <- advance_tick, advance_0.
Qed.

(** What [load_items] returns is keyed, with aware timestamps. *)
Lemma load_items_keyed data acc (w w' : World G) items :
  keyed acc → TodoStorage.well_formed acc = true →
  load_items clock data acc w = (w', Ok items) →
  keyed items ∧ TodoStorage.well_formed items = true.
Proof.
  revert acc w. induction data as [| item_data data IH]; intros acc w Hk Hwf.
  - by intros [= _ <-].
  - cbn [load_items]. unfold bind at 1, lift.
    destruct (rbind _ _) as [key |] eqn:Hkey; [| done].
    unfold bind at 1, OutlookTodoApp.now_utc. unfold bind at 1, lift.
    destruct (from_dict _ _) as [item |] eqn:Hitem; [| done].
    apply IH.
    + assert (key = message_id item) as ->.
      { unfold from_dict in Hitem. rewrite Hkey in Hitem. cbn [rbind] in Hitem.
        repeat match type of Hitem with
               | rbind ?r _ = Ok _ => destruct r; [cbn [rbind] in Hitem | done]
               end.
        unfold TodoItem_new in Hitem.
        repeat match type of Hitem with
               | rbind ?r _ = Ok _ => destruct r; [cbn [rbind] in Hitem | done]
               end.
        by injection Hitem as <-. }
      by apply keyed_set.
    + unfold from_dict in Hitem.
      repeat match type of Hitem with
             | rbind ?r _ = Ok _ => destruct r; [cbn [rbind] in Hitem | done]
             end.
      unfold TodoItem_new in Hitem.
      destruct (_ensure_tz _) as [ra |]; [cbn [rbind] in Hitem | done].
      destruct (_ensure_tz _) as [sf |] eqn:Hsf; [cbn [rbind] in Hitem | done].
      injection Hitem as <-.
      assert (aware sf = true) as Hsfa.
      { unfold _ensure_tz in Hsf. unfold aware.
        destruct (tzinfo _) eqn:E; [| done]. injection Hsf as <-. by rewrite E. }
      unfold TodoStorage.well_formed, dict_values in *.
      clear -Hwf Hsfa. induction acc as [| [k v] acc IHacc]; simpl in *.
      * by rewrite Hsfa.
      * apply andb_prop in Hwf as [Hv Hacc].
        destruct (decide (k = key)); simpl; [by rewrite Hsfa |].
        rewrite Hv. by apply IHacc.
Qed.

(** Reading back the dictionaries of records gives the records. *)
Lemma load_items_saved (values : list TodoItem) acc (w : World G) :
  Forall (λ t, TodoItem_ok t = true) values →
  NoDup (message_id <$> values) →
  Forall (λ t, dict_mem (message_id t) acc = false) values →
  load_items clock (to_dict <$> values) acc w
  = (advance (length values) w,
     Ok (acc ++ ((λ t, (message_id t, t)) <$> values))).
Proof.
  revert acc w. induction values as [| t values IH]; intros acc w Hok Hnd Hfresh.
  - simpl. by rewrite advance_0, app_nil_r.
  - apply Forall_cons in Hok as [Ht Hok]. apply Forall_cons in Hfresh as [Hf Hfresh].
    rewrite fmap_cons in Hnd. apply NoDup_cons in Hnd as [Hnt Hnd].
    rewrite fmap_cons. cbn [load_items]. unfold bind at 1, lift, getitem.
    change (to_dict t !! "message_id") with (Some (PStr (message_id t))).
    cbn [rbind as_str]. unfold bind at 1, OutlookTodoApp.now_utc.
    unfold bind at 1, lift.
    unfold TodoItem_ok in Ht.
    repeat match goal with
           | H : _ && _ = true |- _ => apply andb_prop in H as [H ?]
           end.
    rewrite from_dict_to_dict_valid by done.
    rewrite IH; [| done | done |].
    + rewrite advance_tick, dict_set_new by done.
      by rewrite <- app_assoc.
    + eapply Forall_impl.
      * apply Forall_and. split; [exact Hfresh |].
        apply Forall_forall. intros x Hx. instantiate (1 := λ x, message_id x ≠ message_id t).
        intros Heq. apply Hnt. apply list_elem_of_fmap. by exists x.
      * intros x [Hx Hne]. simpl in *.
        rewrite dict_set_new by done.
        apply dict_mem_false_not_elem_of. rewrite fmap_app.
        apply dict_mem_false_not_elem_of in Hx.
        intros [? | Hin%list_elem_of_singleton]%elem_of_app; simpl in *; done.
Qed.

Lemma keyed_entries (items : dict TodoItem) :
  keyed items →
  items = (λ t, (message_id t, t)) <$> dict_values items
  ∧ NoDup (message_id <$> dict_values items).
Proof.
  intros [Hnd Hk]. unfold dict_values.
  assert (items = (λ t, (message_id t, t)) <$> items.*2) as Heq.
  { clear Hnd. induction Hk as [| [k v] d Hkv Hd IH]; simpl in *; [done |].
    rewrite Hkv. f_equal. exact IH. }
  split; [done |].
  assert (message_id <$> items.*2 = items.*1) as ->; [| done].
  clear Hnd Heq. induction Hk as [| [k v] d Hkv Hd IH]; [done |].
  rewrite !fmap_cons. simpl in *. rewrite Hkv. f_equal. exact IH.
Qed.

End LoadFacts.

(** X5.  Saving and loading round-trip: for a store that holds every record
    under its own id, no id twice, with timestamps that are aware and in
    range, [save] followed by the construction of a [TodoStorage] on the
    same path gives the same items in the same order.  Without a file the
    construction gives the empty store. *)
Theorem save_then_load {G : Type} (clock : nat → datetime) (w : World G) :
  keyed (storage_items w) →
  Forall (λ t, TodoItem_ok t = true) (dict_values (storage_items w)) →
  (∃ w', (TodoStorage.save ;; TodoStorage_init clock)%world w = (w', Ok ())
         ∧ storage_items w' = storage_items w
         ∧ storage_file w'
           = Some (to_dict <$> dict_values (storage_items w)))
  ∧ (storage_file w = None →
     TodoStorage_init clock w = (with_items [] w, Ok ())).
Proof.
  intros Hk Hok. split.
  - destruct (keyed_entries _ Hk) as [Hitems Hnd].
    unfold bind at 1, TodoStorage.save, TodoStorage_init, bind at 1,
      TodoStorage.set_items.
    cbn [with_items storage_file storage_items]. unfold _load, bind at 1.
    rewrite load_items_saved; [| done | done |].
    + unfold TodoStorage.set_items. eexists. split; [reflexivity |].
      cbn [with_items advance storage_items storage_file].
      by rewrite app_nil_l, <- Hitems.
    + by apply Forall_forall.
  - intros Hnone. unfold TodoStorage_init, bind, TodoStorage.set_items.
    cbn [with_items storage_file]. by rewrite Hnone.
Qed.

Lemma save_then_load_witness :
  ∃ w', (TodoStorage.save ;; TodoStorage_init sample_clock)%world synced_world
        = (w', Ok ())
        ∧ storage_items w' = [("1", dummy_item)]
        ∧ storage_file w' = Some [to_dict dummy_item].
Proof.
  assert (keyed (storage_items synced_world)) as Hk.
  { split; [apply NoDup_singleton | by repeat constructor]. }
  assert (Forall (λ t, TodoItem_ok t = true)
            (dict_values (storage_items synced_world))) as Hok.
  { by repeat constructor. }
  destruct (proj1 (save_then_load sample_clock synced_world Hk Hok))
    as (w' & Hrun & Hitems & Hfile).
  by exists w'.
Defined.

(** X6.  A [TodoStorage] is never half loaded.  When the construction
    returns, the store holds every record under its own id, no id twice,
    and every [scheduled_for] is aware; when it raises (an element of the
    document lacks a key, or a timestamp cannot be read), the store holds
    nothing.  The file is not written either way. *)
Theorem load_all_or_nothing {G : Type} (clock : nat → datetime)
    (w w' : World G) (r : result unit) :
  TodoStorage_init clock w = (w', r) →
  storage_file w' = storage_file w
  ∧ log w' = log w
  ∧ match r with
    | Ok _ => keyed (storage_items w')
              ∧ TodoStorage.well_formed (storage_items w') = true
    | Raise _ => storage_items w' = []
    end.
Proof.
  unfold TodoStorage_init, bind at 1, TodoStorage.set_items.
  cbn [with_items storage_file].
  destruct (storage_file w) as [data |] eqn:Hfile.
  - unfold _load, bind.
    destruct (load_items clock data [] _) as [w1 [items | e]] eqn:Hload.
    + destruct (load_items_frame _ _ _ _ _ _ Hload) as [n ->].
      apply load_items_keyed in Hload as [Hk Hwf];
        [| split; [apply NoDup_nil_2 | constructor] | done].
      unfold TodoStorage.set_items. intros [= <- <-].
      by cbn [with_items advance storage_items storage_file log].
    + destruct (load_items_frame _ _ _ _ _ _ Hload) as [n ->].
      intros [= <- <-].
      by cbn [with_items advance storage_items storage_file log].
  - intros [= <- <-]. cbn [with_items storage_items storage_file log].
    split_and!; try done. split; [apply NoDup_nil_2 | constructor].
Qed.

Lemma load_all_or_nothing_witness :
  ∃ w', TodoStorage_init sample_clock broken_world = (w', Raise KeyError)
        ∧ storage_items w' = []
        ∧ storage_file w' = storage_file broken_world.
Proof.
  eexists.
  assert (TodoStorage_init sample_clock broken_world
          = (advance 2 broken_world, Raise KeyError)) as Hrun
    by (vm_compute; reflexivity).
  split; [exact Hrun |].
  destruct (load_all_or_nothing sample_clock broken_world _ _ Hrun)
    as (Hfile & _ & Hitems).
  by split.
Defined.

(** ** What the application keeps true of its store *)

Section InvariantFacts.
Import TodoStorage.

Lemma well_formed_set k item (items : dict TodoItem) :
  well_formed items = true → aware (scheduled_for item) = true →
  well_formed (dict_set k item items) = true.
Proof.
  unfold well_formed, dict_values. intros Hwf Ha.
  induction items as [| [k' v] items IH]; simpl in *.
  - by rewrite Ha.
  - apply andb_prop in Hwf as [Hv Hitems].
    destruct (decide (k' = k)); simpl; [by rewrite Ha |].
    rewrite Hv. by apply IH.
Qed.

Lemma well_formed_del k (items : dict TodoItem) :
  well_formed items = true → well_formed (dict_del k items) = true.
Proof.
  unfold well_formed, dict_values. intros Hwf.
  induction items as [| [k' v] items IH]; simpl in *; [done |].
  apply andb_prop in Hwf as [Hv Hitems].
  destruct (decide (k' = k)); simpl; [done |].
  rewrite Hv. by apply IH.
Qed.

Lemma well_formed_get k item (items : dict TodoItem) :
  well_formed items = true → dict_get k items = Some item →
  aware (scheduled_for item) = true.
Proof.
  unfold well_formed, dict_values. intros Hwf.
  induction items as [| [k' v] items IH]; simpl in *; [done |].
  apply andb_prop in Hwf as [Hv Hitems].
  destruct (decide (k' = k)); [by intros [= <-] | by apply IH].
Qed.

Lemma well_formed_app (items items' : dict TodoItem) :
  well_formed (items ++ items')
  = well_formed items && well_formed items'.
Proof.
  unfold well_formed, dict_values. by rewrite fmap_app, forallb_app.
Qed.

Lemma dict_get_app_l {V} k (v : V) (d d' : dict V) :
  dict_get k d = Some v → dict_get k (d ++ d') = Some v.
Proof.
  induction d as [| [k' v'] d IH]; simpl; [done |].
  by destruct (decide (k' = k)).
Qed.

Lemma _ensure_tz_Ok d d' : _ensure_tz d = Ok d' → d' = d ∧ aware d = true.
Proof.
  unfold _ensure_tz, aware. destruct (tzinfo d); [| done]. by intros [= <-].
Qed.

(** What the constructor makes of the payload of a message. *)
Lemma TodoItem_of_payload_fields m sched p now todo :
  to_todo_payload m sched = Ok p → TodoItem_of_payload p now = Ok todo →
  message_id todo = msg_id m
  ∧ completed todo = false
  ∧ aware (received_at todo) = true
  ∧ aware (scheduled_for todo) = true
  ∧ scheduled_for todo = default (received_at todo) sched.
Proof.
  unfold to_todo_payload, TodoItem_of_payload, TodoItem_new.
  destruct (parse_graph_datetime _) as [received |]; [| done]. cbn [rbind].
  intros [= <-].
  cbn [p_message_id p_received_at p_scheduled_for].
  destruct (_ensure_tz received) as [ra |] eqn:Hra; [| done]. cbn [rbind].
  apply _ensure_tz_Ok in Hra as [-> Hra].
  destruct (_ensure_tz (default received sched)) as [sf |] eqn:Hsf; [| done].
  cbn [rbind]. apply _ensure_tz_Ok in Hsf as [-> Hsf].
  by intros [= <-].
Qed.

End InvariantFacts.

Section SyncAppends.
Context {G : Type} `{!GraphClient G} (clock : nat → datetime).
Import TodoStorage OutlookTodoApp.

(** Whatever its outcome, the loop of [sync_unread_emails] has appended
    records to the store and done nothing else to it. *)
Lemma sync_messages_appends msgs sched new (w w' : World G) r :
  sync_messages clock msgs sched new w = (w', r) →
  ∃ added,
    storage_items w' = storage_items w ++ ((λ t, (message_id t, t)) <$> added)
    ∧ NoDup (message_id <$> added)
    ∧ Forall (λ t, dict_mem (message_id t) (storage_items w) = false
                   ∧ message_id t ∈ msg_id <$> msgs
                   ∧ completed t = false
                   ∧ aware (scheduled_for t) = true
                   ∧ scheduled_for t = default (received_at t) sched) added
    ∧ (∀ news, r = Ok news → news = new ++ added).
Proof.
  revert new w. induction msgs as [| m msgs IH]; intros new w.
  - intros [= <- <-]. exists []. rewrite !app_nil_r.
    split_and!; [done | constructor | constructor |].
    by intros news [= <-].
  - rewrite sync_messages_cons.
    destruct (dict_mem (msg_id m) (storage_items w)) eqn:Hmem.
    + intros Hrun. destruct (IH _ _ Hrun) as (added & Hitems & Hnd & Hall & Hr).
      exists added. split_and!; try done.
      eapply Forall_impl; [exact Hall |]. intros t (? & ? & ? & ? & ?).
      split_and!; try done. rewrite fmap_cons. by right.
    + destruct (to_todo_payload m sched) as [p |] eqn:Hp.
      2: { intros [= <- <-]. exists []. rewrite !app_nil_r.
           split_and!; [done | constructor | constructor | done]. }
      destruct (TodoItem_of_payload p _) as [todo |] eqn:Htodo.
      2: { intros [= <- <-]. exists []. cbn [tick storage_items].
           rewrite !app_nil_r.
           split_and!; [done | constructor | constructor | done]. }
      destruct (TodoItem_of_payload_fields _ _ _ _ _ Hp Htodo)
        as (Hid & Hc & _ & Hsa & Hsf).
      intros Hrun. destruct (IH _ _ Hrun) as (added & Hitems & Hnd & Hall & Hr).
      cbn [with_items tick storage_items] in Hitems, Hall.
      rewrite Hid in *. rewrite dict_set_new in Hitems, Hall by done.
      exists (todo :: added). split_and!.
      * rewrite Hitems, <- app_assoc. simpl. by rewrite Hid.
      * rewrite fmap_cons. apply NoDup_cons. split; [| done].
        intros (t & Heq & Ht)%list_elem_of_fmap.
        destruct (proj1 (Forall_forall _ _) Hall t Ht) as (Hfresh & _).
        apply dict_mem_false_not_elem_of in Hfresh. apply Hfresh.
        rewrite fmap_app. apply elem_of_app. right. simpl.
        rewrite <- Heq, Hid. left.
      * constructor.
        -- split_and!; try done; [by rewrite Hid |]. rewrite Hid, fmap_cons. left.
        -- eapply Forall_impl; [exact Hall |].
           intros t (Hfresh & Hin & ? & ? & ?). split_and!; try done.
           ++ apply dict_mem_false_not_elem_of.
              apply dict_mem_false_not_elem_of in Hfresh.
              rewrite fmap_app in Hfresh. intros Hin'. apply Hfresh.
              apply elem_of_app. by left.
           ++ rewrite fmap_cons. by right.
      * intros news Hnews. rewrite (Hr news Hnews), <- app_assoc. done.
Qed.

End SyncAppends.

(** X7.  [sync_unread_emails] only ever appends.  Whatever its outcome
    (also when the gateway or a timestamp makes it raise half way), the
    store afterwards is the store before followed by new records: their ids
    are pairwise different, were not held before and are ids of fetched
    messages; each is pending, with [scheduled_for] the override when one
    is given and its [received_at] otherwise.  No record held before is
    changed, moved or removed, and a run that returns returns exactly the
    records appended. *)
Theorem sync_only_appends {G : Type} `{!GraphClient G}
    (clock : nat → datetime) (limit : Z) (schedule_for : option datetime)
    (w : World G) :
  ∃ added,
    let run := OutlookTodoApp.sync_unread_emails clock limit schedule_for w in
    storage_items run.1
    = storage_items w ++ ((λ t, (message_id t, t)) <$> added)
    ∧ NoDup (message_id <$> added)
    ∧ Forall (λ t, dict_mem (message_id t) (storage_items w) = false
                   ∧ completed t = false
                   ∧ aware (scheduled_for t) = true
                   ∧ scheduled_for t = default (received_at t) schedule_for)
        added
    ∧ (∀ msgs, (fetch_unread_emails limit (graph w)).2 = Ok msgs →
               Forall (λ t, message_id t ∈ msg_id <$> msgs) added)
    ∧ (∀ k v, dict_get k (storage_items w) = Some v →
              dict_get k (storage_items run.1) = Some v)
    ∧ (∀ news, run.2 = Ok news → news = added).
Proof.
  rewrite sync_unread_emails_unfold. cbv zeta.
  destruct (fetch_unread_emails limit (graph w)).2 as [msgs |] eqn:Hf.
  - destruct (OutlookTodoApp.sync_messages _ _ _ _ _) as [w1 r] eqn:Hs.
    apply sync_messages_appends in Hs as (added & Hitems & Hnd & Hall & Hr).
    cbn [OutlookTodoApp.called storage_items] in Hitems, Hall.
    exists added.
    assert (Forall (λ t, dict_mem (message_id t) (storage_items w) = false
                         ∧ completed t = false
                         ∧ aware (scheduled_for t) = true
                         ∧ scheduled_for t
                           = default (received_at t) schedule_for) added)
      as Hall1.
    { eapply Forall_impl; [exact Hall |]. by intros t (? & ? & ?). }
    assert (Forall (λ t, message_id t ∈ msg_id <$> msgs) added) as Hall2.
    { eapply Forall_impl; [exact Hall |]. by intros t (? & ? & ?). }
    destruct r as [[| t l] | e];
      cbn [fst snd TodoStorage.save storage_items]; rewrite Hitems;
      (split_and!;
       [ done | done | done
       | by intros msgs' [= <-]
       | by intros k v; apply dict_get_app_l
       | by intros news [= <-]; apply Hr ]).
  - exists []. cbn [fst snd OutlookTodoApp.called storage_items].
    rewrite app_nil_r. split_and!; try done; constructor.
Qed.

Section InvariantSteps.
Context {G : Type} `{!GraphClient G} (clock : nat → datetime).
Import TodoStorage OutlookTodoApp.

Lemma store_ok_items (w w' : World G) :
  storage_items w' = storage_items w → store_ok w → store_ok w'.
Proof. unfold store_ok. by intros ->. Qed.

Lemma store_ok_set (w w' : World G) item :
  store_ok w → aware (scheduled_for item) = true →
  storage_items w' = dict_set (message_id item) item (storage_items w) →
  store_ok w'.
Proof.
  intros [Hk Hwf] Ha Hitems. unfold store_ok. rewrite Hitems.
  split; [by apply keyed_set | by apply well_formed_set].
Qed.

Lemma sync_messages_store_ok msgs sched new (w w' : World G) r :
  sync_messages clock msgs sched new w = (w', r) → store_ok w → store_ok w'.
Proof.
  revert new w. induction msgs as [| m msgs IH]; intros new w.
  - by intros [= <- <-].
  - rewrite sync_messages_cons.
    destruct (dict_mem (msg_id m) (storage_items w)); [apply IH |].
    destruct (to_todo_payload m sched) as [p |] eqn:Hp; [| by intros [= <- <-]].
    destruct (TodoItem_of_payload p _) as [todo |] eqn:Htodo;
      [| by intros [= <- <-]].
    destruct (TodoItem_of_payload_fields _ _ _ _ _ Hp Htodo)
      as (_ & _ & _ & Hsa & _).
    intros Hrun Hok. apply (IH _ _ Hrun). by eapply store_ok_set.
Qed.

Lemma sync_unread_emails_store_ok limit sched (w : World G) :
  store_ok w → store_ok (sync_unread_emails clock limit sched w).1.
Proof.
  intros Hok. rewrite sync_unread_emails_unfold. cbv zeta.
  destruct (fetch_unread_emails limit (graph w)).2 as [msgs |]; [| done].
  destruct (sync_messages _ _ _ _ _) as [w1 r] eqn:Hs.
  apply sync_messages_store_ok in Hs; [| done].
  by destruct r as [[| t l] |].
Qed.

Lemma mark_done_store_ok mid (w : World G) :
  store_ok w → store_ok (mark_done mid w).1.
Proof.
  intros Hok. rewrite mark_done_unfold.
  destruct (dict_get mid (storage_items w)) as [item |] eqn:Hget; [| done].
  destruct (completed item); [done |]. cbv zeta.
  destruct (mark_email_as_read mid (graph w)).2 as [[] |]; [| done].
  pose proof Hok as [Hk Hwf].
  pose proof (keyed_get _ _ _ Hk Hget) as Hid.
  pose proof (well_formed_get _ _ _ Hwf Hget) as Ha.
  unfold bind at 1, update, bind at 1, get_items.
  cbn [message_id set_completed with_items called storage_items].
  rewrite Hid, dict_mem_set_eq. cbn [negb].
  unfold set_items, bind, save, ret. cbn [fst with_items storage_items].
  eapply (store_ok_set _ _ (set_completed item true)); [| done |].
  - eapply (store_ok_set w _ (set_completed item true)); [done | done |].
    instantiate (1 := with_items _ w). reflexivity.
  - cbn [message_id set_completed with_items storage_items]. by rewrite Hid.
Qed.

(** A schedule that is not aware is refused by the constructor of the
    record, after the items were listed and the clock was read. *)
Lemma add_manual_item_naive_unfold subj sndr sched preview link (w : World G) :
  well_formed (storage_items w) = true →
  aware sched = false →
  add_manual_item clock subj sndr sched preview link w
  = (tick w, Raise ValueError).
Proof.
  intros Hwf Hna.
  unfold add_manual_item, bind at 1, all, bind at 1, get_items, lift.
  rewrite all_of_aware by done. unfold bind at 1, now_utc.
  unfold bind at 1, lift, TodoItem_new, _ensure_tz. unfold aware in Hna.
  by destruct (tzinfo sched).
Qed.

Lemma add_manual_item_store_ok subj sndr sched preview link (w : World G) :
  store_ok w →
  store_ok (add_manual_item clock subj sndr sched preview link w).1.
Proof.
  intros Hok. pose proof Hok as [Hk Hwf].
  destruct (aware sched) eqn:Ha.
  - rewrite (add_manual_item_unfold clock subj sndr sched preview link w _
               (all_of_aware _ Hwf) Ha).
    cbv zeta. cbn [fst].
    set (todo := mk_TodoItem _ _ _ _ _ _ _ _ _).
    by apply (store_ok_set w _ todo).
  - by rewrite add_manual_item_naive_unfold.
Qed.

End InvariantSteps.

(** X8.  The store stays consistent.  When every record is held under its
    own id, no id twice, and every [scheduled_for] is aware, the same holds
    after [sync_unread_emails], [mark_done] and [add_manual_item], whatever
    their outcome, and after [remove] and [add] (of a record with an aware
    [scheduled_for]); and listing such a store never raises. *)
Theorem store_invariant {G : Type} `{!GraphClient G}
    (clock : nat → datetime) (w : World G) :
  store_ok w →
  (∀ limit schedule_for,
     store_ok (OutlookTodoApp.sync_unread_emails clock limit schedule_for w).1)
  ∧ (∀ mid, store_ok (OutlookTodoApp.mark_done mid w).1)
  ∧ (∀ subj sndr sched preview link,
       store_ok (OutlookTodoApp.add_manual_item clock subj sndr sched preview
                   link w).1)
  ∧ (∀ mid, store_ok (TodoStorage.remove mid w).1)
  ∧ (∀ item overwrite, aware (scheduled_for item) = true →
                       store_ok (TodoStorage.add item overwrite w).1)
  ∧ is_Ok (OutlookTodoApp.list_items w).2 = true.
Proof.
  intros Hok. split_and!.
  - intros. by apply sync_unread_emails_store_ok.
  - intros. by apply mark_done_store_ok.
  - intros. by apply add_manual_item_store_ok.
  - intros mid. unfold TodoStorage.remove, bind, TodoStorage.get_items.
    destruct (dict_mem mid (storage_items w)); [| done].
    destruct Hok as [Hk Hwf]. split; cbn [fst TodoStorage.set_items with_items
                                           storage_items].
    + by apply keyed_del.
    + by apply well_formed_del.
  - intros item overwrite Ha.
    unfold TodoStorage.add, bind, TodoStorage.get_items.
    destruct (negb overwrite && _); [done |].
    by eapply (store_ok_set w).
  - destruct Hok as [_ Hwf].
    unfold OutlookTodoApp.list_items, TodoStorage.all, bind,
      TodoStorage.get_items, lift.
    by rewrite all_of_aware.
Qed.

Lemma store_invariant_witness :
  store_ok synced_world
  ∧ store_ok (OutlookTodoApp.mark_done "1" synced_world).1.
Proof.
  assert (store_ok synced_world) as Hok.
  { split; [split; [apply NoDup_singleton | by repeat constructor] | done]. }
  split; [exact Hok |].
  exact (proj1 (proj2 (@store_invariant (list Message) InMemoryGraphClient
                         sample_clock synced_world Hok)) "1").
Defined.

(** X9.  [mark_done] on a pending record of a keyed store, when the
    gateway accepts the call: the record is returned completed and replaces
    the pending one in its place; every other record and the order of the
    keys are as before; the gateway was called once, for this id, before
    the one [save]; and the file holds the store as it is afterwards. *)
Theorem mark_done_completes {G : Type} `{!GraphClient G}
    (w : World G) (mid : string) (item : TodoItem) (g : G) :
  keyed (storage_items w) →
  dict_get mid (storage_items w) = Some item →
  completed item = false →
  mark_email_as_read mid (graph w) = (g, Ok ()) →
  ∃ w', OutlookTodoApp.mark_done mid w = (w', Ok (set_completed item true))
        ∧ dict_get mid (storage_items w') = Some (set_completed item true)
        ∧ (∀ k, k ≠ mid →
                dict_get k (storage_items w') = dict_get k (storage_items w))
        ∧ (storage_items w').*1 = (storage_items w).*1
        ∧ storage_file w' = Some (to_dict <$> dict_values (storage_items w'))
        ∧ graph w' = g
        ∧ ticks w' = ticks w
        ∧ log w' = log w ++ [EvMarkRead mid; EvSave].
Proof.
  intros Hk Hget Hpending Hgw.
  pose proof (keyed_get _ _ _ Hk Hget) as Hid.
  rewrite (mark_done_success mid w item g Hget Hpending Hid Hgw). cbv zeta.
  eexists. split; [reflexivity |].
  cbn [storage_items storage_file graph ticks log]. split_and!; try done.
  - apply dict_get_set_eq.
  - intros k Hne. by apply dict_get_set_ne.
  - apply dict_set_keys_mem. unfold dict_mem. by rewrite Hget.
Qed.

Lemma mark_done_completes_witness :
  ∃ w', OutlookTodoApp.mark_done "1" synced_world = (w', Ok done_item)
        ∧ dict_get "1" (storage_items w') = Some done_item
        ∧ storage_file w' = Some [to_dict done_item]
        ∧ msg_isRead <$> graph w' = [true]
        ∧ log w' = [EvFetch 25; EvSave; EvMarkRead "1"; EvSave].
Proof.
  assert (keyed (storage_items synced_world)) as Hk.
  { split; [apply NoDup_singleton | by repeat constructor]. }
  destruct (@mark_done_completes (list Message) InMemoryGraphClient
              synced_world "1" dummy_item [set_isRead dummy_message]
              Hk eq_refl eq_refl eq_refl)
    as (w' & Hrun & Hget & _ & Hkeys & Hfile & Hg & _ & Hlog).
  exists w'. split_and!; [exact Hrun | exact Hget | | by rewrite Hg | exact Hlog].
  rewrite Hfile. destruct (storage_items w') as [| [k v] [| ? ?]]; try done.
  simpl in Hget, Hkeys. injection Hkeys as ->.
  rewrite decide_True in Hget by done. by injection Hget as ->.
Defined.

(** X10.  [mark_done] is idempotent.  After a call that returned, a second
    call for the same id returns the same completed record and changes
    nothing: it does not call the gateway and does not save. *)
Theorem mark_done_twice {G : Type} `{!GraphClient G}
    (w w1 : World G) (mid : string) (item : TodoItem) :
  OutlookTodoApp.mark_done mid w = (w1, Ok item) →
  completed item = true
  ∧ dict_get mid (storage_items w1) = Some item
  ∧ OutlookTodoApp.mark_done mid w1 = (w1, Ok item).
Proof.
  rewrite mark_done_unfold.
  destruct (dict_get mid (storage_items w)) as [it |] eqn:Hget; [| done].
  destruct (completed it) eqn:Hc.
  - intros [= <- <-]. by rewrite mark_done_unfold, Hget, Hc.
  - cbv zeta. destruct (mark_email_as_read mid (graph w)).2 as [[] |];
      [| done].
    unfold bind at 1, TodoStorage.update, bind at 1, TodoStorage.get_items.
    destruct (negb _); [done |].
    unfold TodoStorage.set_items, bind, TodoStorage.save, ret.
    cbn [with_items OutlookTodoApp.called storage_items storage_file graph
         ticks log message_id set_completed].
    intros [= <- <-].
    assert (dict_get mid
              (dict_set (message_id it) (set_completed it true)
                 (dict_set mid (set_completed it true) (storage_items w)))
            = Some (set_completed it true)) as Hget'.
    { destruct (decide (message_id it = mid)) as [-> | Hne].
      - apply dict_get_set_eq.
      - rewrite dict_get_set_ne by done. apply dict_get_set_eq. }
    split_and!; [done | exact Hget' |].
    rewrite mark_done_unfold. cbn [storage_items]. by rewrite Hget'.
Qed.

Lemma mark_done_twice_witness :
  ∃ w1, OutlookTodoApp.mark_done "1" synced_world = (w1, Ok done_item)
        ∧ OutlookTodoApp.mark_done "1" w1 = (w1, Ok done_item).
Proof.
  eexists.
  assert (OutlookTodoApp.mark_done "1" synced_world
          = (mk_World [("1", done_item)] (Some [to_dict done_item])
               [set_isRead dummy_message] 1
               [EvFetch 25; EvSave; EvMarkRead "1"; EvSave], Ok done_item))
    as Hrun by (vm_compute; reflexivity).
  split; [exact Hrun |].
  exact (proj2 (proj2 (@mark_done_twice (list Message) InMemoryGraphClient
                         synced_world _ "1" done_item Hrun))).
Defined.

(** X11.  [add_manual_item] refuses a schedule without a time zone: on a
    store it can list, it raises [ValueError] and leaves the items and the
    file as they were, without a [save]; only the clock was read. *)
Theorem add_manual_item_naive {G : Type} `{!GraphClient G}
    (clock : nat → datetime) (subj sndr : string) (sched : datetime)
    (preview : string) (link : option string) (w : World G) :
  TodoStorage.well_formed (storage_items w) = true →
  aware sched = false →
  ∃ w', OutlookTodoApp.add_manual_item clock subj sndr sched preview link w
        = (w', Raise ValueError)
        ∧ storage_items w' = storage_items w
        ∧ storage_file w' = storage_file w
        ∧ graph w' = graph w
        ∧ log w' = log w
        ∧ ticks w' = S (ticks w).
Proof.
  intros Hwf Hna. rewrite add_manual_item_naive_unfold by done.
  by eexists.
Qed.

Lemma add_manual_item_naive_witness :
  ∃ w', OutlookTodoApp.add_manual_item sample_clock "Call the bank" "me"
          naive_noon "" None manual_world = (w', Raise ValueError)
        ∧ storage_items w' = storage_items manual_world
        ∧ storage_file w' = storage_file manual_world
        ∧ log w' = log manual_world.
Proof.
  destruct (@add_manual_item_naive (list Message) InMemoryGraphClient
              sample_clock "Call the bank" "me" naive_noon "" None
              manual_world eq_refl eq_refl)
    as (w' & Hrun & Hitems & Hfile & _ & Hlog & _).
  by exists w'.
Defined.

(** ** The in-memory gateway *)

(** X12.  [InMemoryGraphClient.fetch_unread_emails] returns the slice
    [messages[:limit]] and leaves the messages as they are: a prefix of the
    messages, of [min limit (len messages)] elements for a limit that is not
    negative and of all but the last [-limit] otherwise.  It does not look
    at [isRead]: a message that was marked as read is fetched again. *)
Theorem in_memory_fetch_prefix (messages : list Message) (limit : Z) :
  ∃ fetched,
    fetch_unread_emails limit messages = (messages, Ok fetched)
    ∧ fetched `prefix_of` messages
    ∧ Z.of_nat (length fetched)
      = (if 0 <=? limit then Z.min limit (Z.of_nat (length messages))
         else Z.max 0 (Z.of_nat (length messages) + limit))
    ∧ (∀ mid, (fetch_unread_emails limit
                 (mark_email_as_read mid messages).1).2
              = Ok (slice_to limit (mark_first mid messages)))
    ∧ (Z.of_nat (length messages) ≤ limit → fetched = messages).
Proof.
  exists (slice_to limit messages). split; [done |]. unfold slice_to.
  split_and!.
  - destruct (0 <=? limit); apply prefix_take.
  - destruct (Z.leb_spec 0 limit); rewrite length_take; lia.
  - done.
  - intros Hle. destruct (Z.leb_spec 0 limit); [| lia].
    apply take_ge. lia.
Qed.

(** X13.  [InMemoryGraphClient.mark_email_as_read] never raises and sets
    [isRead] on the first message with the id, and on no other: the result
    is the list of the messages with that one message replaced, so every
    other message, a later one with the same id among them, is untouched;
    an id that no message has changes nothing, and a second call changes
    nothing more. *)
Theorem in_memory_mark_first (messages : list Message) (mid : string) :
  ∃ marked,
    mark_email_as_read mid messages = (marked, Ok ())
    ∧ msg_id <$> marked = msg_id <$> messages
    ∧ (∀ i m, messages !! i = Some m → msg_id m ≠ mid →
              marked !! i = Some m)
    ∧ (mid ∈ msg_id <$> messages →
       ∃ i m, messages !! i = Some m ∧ msg_id m = mid
              ∧ (∀ j m', (j < i)%nat → messages !! j = Some m' →
                         msg_id m' ≠ mid)
              ∧ marked = <[i := set_isRead m]> messages
              ∧ marked !! i = Some (set_isRead m)
              ∧ (∀ j, j ≠ i → marked !! j = messages !! j))
    ∧ (mid ∉ msg_id <$> messages → marked = messages)
    ∧ (mark_email_as_read mid marked).1 = marked.
Proof.
  exists (mark_first mid messages). split; [done |].
  cbn [mark_email_as_read InMemoryGraphClient fst]. split_and!.
  - induction messages as [| m messages IH]; [done |]. cbn [mark_first].
    destruct (decide (msg_id m = mid)); rewrite !fmap_cons; [done |].
    by rewrite IH.
  - induction messages as [| m messages IH]; intros i m' Hi Hne; [done |].
    cbn [mark_first]. destruct i as [| i]; simpl in Hi.
    + injection Hi as ->. by rewrite decide_False.
    + destruct (decide (msg_id m = mid)); [done |]. simpl. by apply IH.
  - intros Hin.
    assert (∃ i m, messages !! i = Some m ∧ msg_id m = mid
                   ∧ (∀ j m', (j < i)%nat → messages !! j = Some m' →
                              msg_id m' ≠ mid)
                   ∧ mark_first mid messages = <[i := set_isRead m]> messages)
      as (i & m & Hi & Hid & Hfirst & Heq).
    { induction messages as [| m messages IH];
        [by apply elem_of_nil in Hin |].
      rewrite fmap_cons in Hin. cbn [mark_first].
      destruct (decide (msg_id m = mid)) as [Heq | Hne].
      - exists 0%nat, m. split_and!; try done. intros j m' Hj. lia.
      - apply elem_of_cons in Hin as [Heq | Hin]; [done |].
        destruct (IH Hin) as (i & m' & Hi & Hid & Hfirst & Heq).
        exists (S i), m'. split_and!; try done.
        + intros [| j] m'' Hj Hj'; simpl in Hj'.
          * by injection Hj' as <-.
          * apply (Hfirst j); [lia | done].
        + simpl. by rewrite Heq. }
    exists i, m. rewrite Heq. split_and!; try done.
    + apply list_lookup_insert_eq. by eapply lookup_lt_Some.
    + intros j Hj. by apply list_lookup_insert_ne.
  - induction messages as [| m messages IH]; [done |].
    rewrite fmap_cons. intros [Hne Hin]%not_elem_of_cons. cbn [mark_first].
    rewrite decide_False by done. by rewrite IH.
  - induction messages as [| m messages IH]; [done |]. cbn [mark_first].
    destruct (decide (msg_id m = mid)) as [Heq | Hne]; cbn [mark_first].
    + by rewrite decide_True by done.
    + rewrite decide_False by done. by rewrite IH.
Qed.

Lemma in_memory_mark_first_witness :
  (mark_email_as_read "1" [dummy_message; dummy_message_Z]).1
  = [set_isRead dummy_message; dummy_message_Z].
Proof.
  destruct (in_memory_mark_first [dummy_message; dummy_message_Z] "1")
    as (marked & Hrun & _ & _ & Hin & _).
  destruct Hin as (i & m & Hi & _ & Hfirst & Heq & _).
  { rewrite !fmap_cons. apply elem_of_cons. by left. }
  injection Hrun as <-. rewrite Heq.
  destruct i as [| i].
  - simpl in Hi. by injection Hi as <-.
  - exfalso. by apply (Hfirst 0%nat dummy_message ltac:(lia) eq_refl).
Defined.

(** ** The file names of the export *)

Section FileNames.

Lemma safe_not_space c : is_safe_char c = true → Str.is_space c = false.
Proof.
  destruct c as [[] [] [] [] [] [] [] []]; vm_compute; congruence.
Qed.

Lemma safe_text_app a b : safe_text a → safe_text b → safe_text (a +:+ b).
Proof.
  unfold safe_text. induction a as [| c a IH]; [done |].
  rewrite ?app_cons. simpl. intros [Hc Ha]%Forall_cons Hb.
  constructor; [done | by apply IH].
Qed.

Lemma lstrip_safe s : safe_text s → Str.lstrip s = s.
Proof.
  destruct s as [| c s]; [done |]. intros [Hc _]%Forall_cons. simpl.
  by rewrite safe_not_space.
Qed.

Lemma rstrip_safe s : safe_text s → Str.rstrip s = s.
Proof.
  induction s as [| c s IH]; [done |]. intros [Hc Hs]%Forall_cons.
  cbn [Str.rstrip]. rewrite IH by done.
  destruct s; [by rewrite safe_not_space | done].
Qed.

Lemma map_safe s :
  safe_text (Str.map (λ c, if is_safe_char c then c else "_"%char) s).
Proof.
  induction s as [| c s IH]; [constructor |]. simpl. constructor; [| done].
  by destruct (is_safe_char c) eqn:E.
Qed.

Lemma map_safe_id s :
  safe_text s → Str.map (λ c, if is_safe_char c then c else "_"%char) s = s.
Proof.
  induction s as [| c s IH]; [done |]. intros [Hc Hs]%Forall_cons. simpl.
  by rewrite Hc, IH.
Qed.

Lemma truthy_map f s : Str.truthy (Str.map f s) = Str.truthy s.
Proof. by destruct s. Qed.

Lemma _safe_component_truthy value : Str.truthy (_safe_component value) = true.
Proof.
  unfold _safe_component. rewrite truthy_map.
  by destruct (Str.truthy (Str.strip value)) eqn:E.
Qed.

End FileNames.

(** X14.  [_safe_component] gives a component of a file name: the result
    is never empty and holds only letters, digits, [.], [_] and [-], so no
    path separator and no white space; a text that is already such a
    component is returned as it is, and so the function is idempotent. *)
Theorem _safe_component_safe (value : string) :
  safe_text (_safe_component value)
  ∧ _safe_component value ≠ ""
  ∧ (safe_text value → value ≠ "" → _safe_component value = value)
  ∧ _safe_component (_safe_component value) = _safe_component value.
Proof.
  assert (∀ v, safe_text v → v ≠ "" → _safe_component v = v) as Hid.
  { intros v Hv Hne. unfold _safe_component, Str.strip.
    rewrite lstrip_safe, rstrip_safe by done.
    destruct v; [done |]. cbn [Str.truthy]. by apply map_safe_id. }
  assert (_safe_component value ≠ "") as Hne.
  { pose proof (_safe_component_truthy value) as Ht. intros Heq.
    by rewrite Heq in Ht. }
  split_and!; [apply map_safe | done | apply Hid |].
  apply Hid; [apply map_safe | done].
Qed.

(** X15.  The file name of a record holds only letters, digits, [.], [_]
    and [-], whatever the subject and the id are: it has no ["/"], so the
    file is written in the directory of the export, and it ends in [".md"],
    so a later export finds it. *)
Theorem _filename_for_safe (item : TodoItem) :
  safe_text (_filename_for item)
  ∧ ("/"%char ∉ String.list_ascii_of_string (_filename_for item))
  ∧ is_md (_filename_for item) = true.
Proof.
  assert (safe_text (_filename_for item)) as Hsafe.
  { unfold _filename_for. cbv zeta.
    repeat apply safe_text_app; try apply map_safe; by repeat constructor. }
  split_and!; [done | | apply is_md_filename].
  intros Hin. unfold safe_text in Hsafe.
  by apply (proj1 (Forall_forall _ _) Hsafe) in Hin.
Qed.

(** ** Reading records and schedules *)

(** X16.  [TodoItem.from_dict] fills in what an older document lacks: a
    dictionary with the five required keys and none of [body_preview],
    [web_link], [completed] and [created_at] gives a pending record with an
    empty preview, no link, and the time of the call as [created_at]; keys
    that [from_dict] does not know are ignored. *)
Theorem from_dict_defaults (now : datetime) (payload : gmap string pyval)
    (mid subj sndr : string) (received scheduled : datetime) :
  dt_valid received = true → aware received = true →
  dt_valid scheduled = true → aware scheduled = true →
  dt_valid now = true → aware now = true →
  payload !! "message_id" = Some (PStr mid) →
  payload !! "subject" = Some (PStr subj) →
  payload !! "sender" = Some (PStr sndr) →
  payload !! "received_at" = Some (PStr (isoformat received)) →
  payload !! "scheduled_for" = Some (PStr (isoformat scheduled)) →
  payload !! "body_preview" = None →
  payload !! "web_link" = None →
  payload !! "completed" = None →
  payload !! "created_at" = None →
  from_dict now payload
  = Ok (mk_TodoItem mid subj sndr received scheduled "" None false now).
Proof.
  intros Hr Hra Hs Hsa Hn Hna Hmid Hsubj Hsndr Hrec Hsch Hbp Hwl Hc Hca.
  unfold from_dict, getitem, get_default.
  rewrite Hmid, Hsubj, Hsndr, Hrec, Hsch, Hbp, Hwl, Hc, Hca.
  cbn [rbind as_str as_bool as_opt_str].
  rewrite !_parse_datetime_isoformat by done. cbn [rbind].
  unfold TodoItem_new, _ensure_tz. unfold aware in *.
  destruct (tzinfo received); [| done]. destruct (tzinfo scheduled); [| done].
  destruct (tzinfo now); [| done]. done.
Qed.

Lemma from_dict_defaults_witness :
  from_dict utc_noon legacy_payload
  = Ok (mk_TodoItem "9" "Old" "ann@example.com" cet_morning utc_noon "" None
          false utc_noon).
Proof.
  exact (from_dict_defaults utc_noon legacy_payload "9" "Old"
           "ann@example.com" cet_morning utc_noon eq_refl eq_refl eq_refl
           eq_refl eq_refl eq_refl eq_refl eq_refl eq_refl eq_refl eq_refl
           eq_refl eq_refl eq_refl eq_refl).
Defined.

(** X17.  [TodoItem.from_dict] does not build a record from a dictionary
    that lacks one of [message_id], [subject], [sender], [received_at] and
    [scheduled_for]: it raises.  The error is [KeyError], for each of the
    five keys, when every required key that is read before the missing one
    holds a text, and [received_at] a text that [_parse_datetime] reads. *)
Theorem from_dict_missing_key (now : datetime) (payload : gmap string pyval) :
  let text_at key := ∃ s, payload !! key = Some (PStr s) in
  let time_at key :=
    ∃ s, payload !! key = Some (PStr s)
         ∧ is_Ok (_parse_datetime s) = true in
  (∀ key,
     key ∈ ["message_id"; "subject"; "sender"; "received_at";
            "scheduled_for"] →
     payload !! key = None → is_Ok (from_dict now payload) = false)
  ∧ (payload !! "message_id" = None →
     from_dict now payload = Raise KeyError)
  ∧ (text_at "message_id" → payload !! "subject" = None →
     from_dict now payload = Raise KeyError)
  ∧ (text_at "message_id" → text_at "subject" →
     payload !! "sender" = None →
     from_dict now payload = Raise KeyError)
  ∧ (text_at "message_id" → text_at "subject" → text_at "sender" →
     payload !! "received_at" = None →
     from_dict now payload = Raise KeyError)
  ∧ (text_at "message_id" → text_at "subject" → text_at "sender" →
     time_at "received_at" → payload !! "scheduled_for" = None →
     from_dict now payload = Raise KeyError).
Proof.
  intros text_at time_at. unfold from_dict, getitem. split_and!.
  - intros key Hkey Hnone.
    repeat (apply elem_of_cons in Hkey as [-> | Hkey]);
      [| | | | | by apply elem_of_nil in Hkey].
    + by rewrite Hnone.
    + destruct (payload !! "message_id") as [[] |]; try done.
      by rewrite Hnone.
    + destruct (payload !! "message_id") as [[] |]; try done.
      destruct (payload !! "subject") as [[] |]; try done.
      by rewrite Hnone.
    + destruct (payload !! "message_id") as [[] |]; try done.
      destruct (payload !! "subject") as [[] |]; try done.
      destruct (payload !! "sender") as [[] |]; try done.
      by rewrite Hnone.
    + destruct (payload !! "message_id") as [[] |]; try done.
      destruct (payload !! "subject") as [[] |]; try done.
      destruct (payload !! "sender") as [[] |]; try done. cbn [rbind as_str].
      destruct (rbind (rbind _ as_str) _parse_datetime); [| done].
      by rewrite Hnone.
  - by intros ->.
  - by intros [? ->] ->.
  - by intros [? ->] [? ->] ->.
  - by intros [? ->] [? ->] [? ->] ->.
  - intros [? ->] [? ->] [? ->] (t & -> & Ht) ->. cbn [rbind as_str].
    by destruct (_parse_datetime t).
Qed.

Lemma from_dict_missing_key_witness :
  from_dict utc_noon short_payload = Raise KeyError
  ∧ from_dict utc_noon (delete "subject" short_payload) = Raise KeyError.
Proof.
  split.
  - refine (proj2 (proj2 (proj2 (proj2 (proj2
              (from_dict_missing_key utc_noon short_payload)))))
              _ _ _ _ eq_refl).
    + by exists "9".
    + by exists "Old".
    + by exists "ann@example.com".
    + by exists "2023-01-01T09:30:00+01:00".
  - refine (proj1 (proj2 (proj2
              (from_dict_missing_key utc_noon (delete "subject" short_payload))))
              _ eq_refl).
    by exists "9".
Defined.

(** X18.  The dictionary form loses nothing: two different records with
    aware timestamps in range have different dictionaries. *)
Theorem to_dict_inj (a b : TodoItem) :
  TodoItem_ok a = true → TodoItem_ok b = true → a ≠ b → to_dict a ≠ to_dict b.
Proof.
  unfold TodoItem_ok. intros Ha Hb Hne Heq.
  repeat match goal with
         | H : _ && _ = true |- _ => apply andb_prop in H as [H ?]
         end.
  pose proof (from_dict_to_dict_valid utc_noon a) as Hfa.
  pose proof (from_dict_to_dict_valid utc_noon b) as Hfb.
  rewrite Heq in Hfa. rewrite Hfb in Hfa by done.
  apply Hne. symmetry. by injection Hfa; auto.
Qed.

Lemma to_dict_inj_witness : to_dict item_a ≠ to_dict item_b.
Proof.
  exact (to_dict_inj item_a item_b eq_refl eq_refl ltac:(discriminate)).
Defined.

(** X19.  [cli._parse_schedule] always returns an aware datetime, so a
    schedule read from the command line is never the one that
    [TodoItem] refuses: a text with an offset is read as it is, a text
    without one gets the zone of the machine. *)
Theorem _parse_schedule_aware (local_tz : timedelta) :
  (∀ value d, _parse_schedule local_tz value = Ok d →
              aware d = true
              ∧ (∀ d0, fromisoformat value = Ok d0 →
                       d = if aware d0 then d0
                           else replace_tzinfo d0 (Some local_tz)))
  ∧ (∀ value, is_Ok (_parse_schedule local_tz value)
              = is_Ok (fromisoformat value))
  ∧ (∀ d, dt_valid d = true →
          _parse_schedule local_tz (isoformat d)
          = Ok (if aware d then d else replace_tzinfo d (Some local_tz))).
Proof.
  split_and!.
  - intros value d. unfold _parse_schedule, aware.
    destruct (fromisoformat value) as [d0 |]; [| done]. cbn [rbind].
    destruct (tzinfo d0) eqn:E; intros [= <-].
    + rewrite E. split; [done |]. intros ? [= <-]. by rewrite E.
    + split; [done |]. intros ? [= <-]. by rewrite E.
  - intros value. unfold _parse_schedule.
    destruct (fromisoformat value) as [d0 |]; [| done]. cbn [rbind].
    by destruct (tzinfo d0).
  - intros d Hd. unfold _parse_schedule, aware.
    rewrite fromisoformat_isoformat by done. cbn [rbind].
    by destruct (tzinfo d).
Qed.

(** ** The handlers of the command line *)

(** X20.  What [handle_mark_done] does on a keyed store, case by case.
    An id that is not held: exit code 1 with the message that no such task
    exists, and the world is as before, so nothing was called or saved.  A
    record that is completed: exit code 0 with the world as before.  A
    pending record: the gateway is called once; when it raises [KeyError]
    the handler also returns 1 with the message that no such task exists,
    when it raises another error that error passes through, and in both
    cases the items and the file are as before; when it returns, the exit
    code is 0, the record is completed in its place and the store is
    saved. *)
Theorem handle_mark_done_exit {G : Type} `{!GraphClient G}
    (w : World G) (mid : string) :
  keyed (storage_items w) →
  let absent := (["No task with id " +:+ mid +:+ " exists."], 1) in
  let marked (item : TodoItem) :=
    (["Marked '" +:+ subject item
      +:+ "' as complete and flagged the original e-mail as read."], 0) in
  match dict_get mid (storage_items w) with
  | None => handle_mark_done mid w = (w, Ok absent)
  | Some item =>
      if completed item then handle_mark_done mid w = (w, Ok (marked item))
      else
        let g := (mark_email_as_read mid (graph w)).1 in
        let after_call :=
          mk_World (storage_items w) (storage_file w) g (ticks w)
            (log w ++ [EvMarkRead mid]) in
        match (mark_email_as_read mid (graph w)).2 with
        | Raise KeyError => handle_mark_done mid w = (after_call, Ok absent)
        | Raise e => handle_mark_done mid w = (after_call, Raise e)
        | Ok _ =>
            let item' := set_completed item true in
            let items' := dict_set mid item' (storage_items w) in
            handle_mark_done mid w
            = (mk_World items' (Some (to_dict <$> dict_values items')) g
                 (ticks w) (log w ++ [EvMarkRead mid; EvSave]),
               Ok (marked item))
            ∧ dict_get mid items' = Some item'
            ∧ items'.*1 = (storage_items w).*1
        end
  end.
Proof.
  intros Hk absent marked. unfold handle_mark_done.
  destruct (dict_get mid (storage_items w)) as [item |] eqn:Hget.
  2: { by rewrite mark_done_unfold, Hget. }
  destruct (completed item) eqn:Hc.
  { by rewrite mark_done_unfold, Hget, Hc. }
  cbv zeta.
  destruct (mark_email_as_read mid (graph w)) as [g [[] | e]] eqn:Hgw;
    cbn [fst snd].
  - pose proof (keyed_get _ _ _ Hk Hget) as Hid.
    rewrite (mark_done_success mid w item g Hget Hc Hid Hgw). cbv zeta.
    split_and!; [done | apply dict_get_set_eq |].
    apply dict_set_keys_mem. unfold dict_mem. by rewrite Hget.
  - rewrite mark_done_unfold, Hget, Hc, Hgw. cbn [fst snd]. cbv zeta.
    by destruct e.
Qed.

Lemma handle_mark_done_exit_witness :
  handle_mark_done "2" synced_world
  = (synced_world, Ok (["No task with id 2 exists."], 1))
  ∧ handle_mark_done "1" pending_world
    = (mk_World [("1", dummy_item)] (Some [to_dict dummy_item]) unreachable
         1 [EvMarkRead "1"], Raise (GraphApiError 503))
  ∧ handle_mark_done "1" done_world
    = (done_world,
       Ok (["Marked 'Subject 1' as complete and flagged the original e-mail as read."],
           0)).
Proof.
  assert (∀ t, keyed [("1", t)] ↔ message_id t = "1") as Hk.
  { intros t. split.
    - by intros [_ [H _]%Forall_cons].
    - intros Ht. split; [apply NoDup_singleton | by repeat constructor]. }
  split_and!.
  - exact (@handle_mark_done_exit (list Message) InMemoryGraphClient
             synced_world "2" (proj2 (Hk dummy_item) eq_refl)).
  - exact (@handle_mark_done_exit Unreachable UnreachableGraphClient
             pending_world "1" (proj2 (Hk dummy_item) eq_refl)).
  - exact (@handle_mark_done_exit Unreachable UnreachableGraphClient
             done_world "1" (proj2 (Hk done_item) eq_refl)).
Defined.

(** ** The configuration *)

(** X21.  [AppConfig.from_env] returns a configuration exactly when
    [MS_TENANT_ID], [MS_CLIENT_ID] and [MS_CLIENT_SECRET] are all set to a
    text that is not empty, and then holds their values.  Otherwise the
    error names the variables that are unset or empty, in that order.  A
    storage path given by the caller wins over [OUTLOOK_TODO_STORAGE], which
    wins over ["todo_state.json"]. *)
Theorem from_env_required (environ : gmap string string)
    (resolve : string → string) (path : option string) :
  let missing :=
    filter (λ name, unset (environ !! name) = true) required_variables in
  match from_env environ resolve path with
  | inr config =>
      missing = []
      ∧ environ !! "MS_TENANT_ID" = Some (tenant_id config)
      ∧ environ !! "MS_CLIENT_ID" = Some (client_id config)
      ∧ environ !! "MS_CLIENT_SECRET" = Some (client_secret config)
      ∧ tenant_id config ≠ "" ∧ client_id config ≠ ""
      ∧ client_secret config ≠ ""
      ∧ storage_path config
        = resolve (default (default "todo_state.json"
                              (environ !! "OUTLOOK_TODO_STORAGE")) path)
  | inl message =>
      missing ≠ []
      ∧ message = "Missing required environment variables: "
                  +:+ Str.join ", " missing
  end.
Proof.
  cbv zeta. unfold from_env, required_variables.
  rewrite !filter_cons, filter_nil. cbn [fst snd].
  destruct (environ !! "MS_TENANT_ID") as [[| ? ?] |];
    destruct (environ !! "MS_CLIENT_ID") as [[| ? ?] |];
    destruct (environ !! "MS_CLIENT_SECRET") as [[| ? ?] |];
    simpl; try (split; [done | reflexivity]).
  by split_and!.
Qed.

(** ** Starting again from the file *)

Section Validity.

Lemma parse_isoformat_time_offset tstr comps off :
  parse_isoformat_time tstr = Ok (comps, Some off) → offset_ok off = true.
Proof.
  unfold parse_isoformat_time.
  destruct (String.length tstr <? 2)%nat; [done |].
  destruct (tz_pos tstr) as [p |].
  2: { by destruct (parse_hh_mm_ss_ff tstr). }
  destruct (parse_hh_mm_ss_ff (Str.take p tstr)) as [c |]; [| done].
  cbn [rbind]. destruct (negb _); [done |].
  destruct (parse_hh_mm_ss_ff (Str.drop (S p) tstr))
    as [[[[th tm] ts] tus] |]; [| done].
  cbn [rbind]. destruct (_ && _); [by intros [= _ <-] |].
  unfold timezone. destruct (offset_ok _) eqn:E; [| done]. cbn [rbind].
  by intros [= _ <-].
Qed.

(** What [fromisoformat] returns is a datetime that Python can hold. *)
Lemma fromisoformat_valid text d :
  fromisoformat text = Ok d → dt_valid d = true.
Proof.
  unfold fromisoformat.
  destruct (parse_isoformat_date _) as [[[y mo] dd] |]; [| done].
  cbn [rbind].
  destruct (match Str.drop 11 text with
            | "" => Ok (0, 0, 0, 0, None)
            | String _ _ => parse_isoformat_time (Str.drop 11 text)
            end) as [[[[[h mi] sec] us] tz] |] eqn:Ht; [| done].
  cbn [rbind]. unfold datetime_new.
  destruct (fields_ok y mo dd h mi sec us) eqn:Hf; [| done]. intros [= <-].
  unfold dt_valid. cbn [year month day hour minute second microsecond tzinfo].
  rewrite Hf. destruct tz as [off |]; [| done]. cbn [andb].
  destruct (Str.drop 11 text); [done |].
  by apply parse_isoformat_time_offset in Ht.
Qed.

Lemma parse_graph_datetime_valid value d :
  parse_graph_datetime value = Ok d → dt_valid d = true.
Proof.
  unfold parse_graph_datetime.
  destruct (fromisoformat _) as [d0 |] eqn:Hd; [| done]. cbn [rbind].
  apply fromisoformat_valid in Hd.
  destruct (tzinfo d0); intros [= <-]; [done |].
  by apply dt_valid_replace_utc.
Qed.

Lemma TodoItem_of_payload_ok m sched p now todo :
  to_todo_payload m sched = Ok p → TodoItem_of_payload p now = Ok todo →
  dt_valid now = true → aware now = true →
  from_option dt_valid true sched = true →
  TodoItem_ok todo = true.
Proof.
  unfold to_todo_payload, TodoItem_of_payload, TodoItem_new.
  destruct (parse_graph_datetime _) as [received |] eqn:Hr; [| done].
  cbn [rbind]. intros [= <-].
  cbn [p_message_id p_received_at p_scheduled_for].
  destruct (_ensure_tz received) as [ra |] eqn:Hra; [| done]. cbn [rbind].
  apply _ensure_tz_Ok in Hra as [-> Hra].
  destruct (_ensure_tz (default received sched)) as [sf |] eqn:Hsf; [| done].
  cbn [rbind]. apply _ensure_tz_Ok in Hsf as [-> Hsf].
  intros [= <-] Hn Hna Hs. unfold TodoItem_ok.
  cbn [received_at scheduled_for created_at].
  apply parse_graph_datetime_valid in Hr. rewrite Hr, Hra, Hsf. cbn [andb].
  assert (dt_valid (default received sched) = true) as ->.
  { by destruct sched. }
  unfold aware in Hna. destruct (tzinfo now) eqn:E; [| done].
  unfold aware. by rewrite Hn, E.
Qed.

Lemma Forall_values_set {V} (P : V → Prop) k v (d : dict V) :
  Forall P (dict_values d) → P v → Forall P (dict_values (dict_set k v d)).
Proof.
  unfold dict_values. intros Hd Hv.
  induction d as [| [k' v'] d IH]; simpl in *.
  - by constructor.
  - apply Forall_cons in Hd as [Hv' Hd].
    destruct (decide (k' = k)); simpl; constructor; auto.
Qed.

Lemma ok_well_formed (items : dict TodoItem) :
  Forall (λ t, TodoItem_ok t = true) (dict_values items) →
  TodoStorage.well_formed items = true.
Proof.
  unfold TodoStorage.well_formed. intros H.
  induction H as [| t l Ht Hl IH]; [done |]. simpl.
  rewrite IH, andb_true_r. unfold TodoItem_ok in Ht.
  repeat match goal with
         | H : _ && _ = true |- _ => apply andb_prop in H as [H ?]
         end.
  done.
Qed.

Lemma store_valid_set {G} (w w' : World G) item :
  store_valid w → TodoItem_ok item = true →
  storage_items w' = dict_set (message_id item) item (storage_items w) →
  store_valid w'.
Proof.
  intros [Hk Hok] Hitem Hitems. unfold store_valid. rewrite Hitems.
  split; [by apply keyed_set | by apply Forall_values_set].
Qed.

Lemma TodoItem_ok_set_completed item c :
  TodoItem_ok (set_completed item c) = TodoItem_ok item.
Proof. done. Qed.

(** A store that is valid and whose file holds its items is loaded back
    as it is. *)
Lemma reloads_saved {G} clock (w : World G) :
  store_valid w →
  storage_file w = Some (to_dict <$> dict_values (storage_items w)) →
  reloads clock w.
Proof.
  intros [Hk Hok] Hfile. destruct (keyed_entries _ Hk) as [Hitems Hnd].
  unfold reloads, TodoStorage_init, bind at 1, TodoStorage.set_items.
  cbn [with_items storage_file]. rewrite Hfile. unfold _load, bind at 1.
  rewrite load_items_saved; [| done | done | by apply Forall_forall].
  unfold TodoStorage.set_items. eexists. split; [reflexivity |].
  cbn [with_items advance storage_items storage_file].
  by rewrite app_nil_l, <- Hitems.
Qed.

End Validity.

Section Restart.
Context {G : Type} `{!GraphClient G} (clock : nat → datetime).
Hypothesis clock_valid : ∀ n, dt_valid (clock n) = true.
Import TodoStorage OutlookTodoApp.

Lemma now_ok n :
  dt_valid (replace_tzinfo (clock n) (Some utc)) = true
  ∧ aware (replace_tzinfo (clock n) (Some utc)) = true.
Proof. split; [by apply dt_valid_replace_utc | done]. Qed.

Lemma sync_messages_valid msgs sched new (w w' : World G) r :
  from_option dt_valid true sched = true →
  sync_messages clock msgs sched new w = (w', r) →
  store_valid w → store_valid w'.
Proof.
  intros Hs. revert new w. induction msgs as [| m msgs IH]; intros new w.
  - by intros [= <- <-].
  - rewrite sync_messages_cons.
    destruct (dict_mem (msg_id m) (storage_items w)); [apply IH |].
    destruct (to_todo_payload m sched) as [p |] eqn:Hp; [| by intros [= <- <-]].
    destruct (TodoItem_of_payload p _) as [todo |] eqn:Htodo;
      [| by intros [= <- <-]].
    destruct (now_ok (ticks w)) as [Hn Hna].
    pose proof (TodoItem_of_payload_ok _ _ _ _ _ Hp Htodo Hn Hna Hs) as Hok.
    intros Hrun Hv. apply (IH _ _ Hrun). by eapply store_valid_set.
Qed.

Lemma sync_unread_emails_reloads limit sched (w w1 : World G) new :
  store_valid w → from_option dt_valid true sched = true →
  sync_unread_emails clock limit sched w = (w1, Ok new) → new ≠ [] →
  store_valid w1 ∧ reloads clock w1.
Proof.
  intros Hv Hs. rewrite sync_unread_emails_unfold. cbv zeta.
  destruct (fetch_unread_emails limit (graph w)).2 as [msgs |]; [| done].
  destruct (sync_messages _ _ _ _ _) as [w0 [news | e]] eqn:Hrun; [| done].
  apply sync_messages_valid in Hrun; [| done | done].
  destruct news as [| t news]; intros [= <- <-] Hne; [done |].
  assert (store_valid (save w0).1) as Hv1 by done.
  split; [done |]. by apply reloads_saved.
Qed.

Lemma mark_done_reloads mid (w w1 : World G) item item' :
  store_valid w →
  dict_get mid (storage_items w) = Some item → completed item = false →
  mark_done mid w = (w1, Ok item') →
  store_valid w1 ∧ reloads clock w1.
Proof.
  intros Hv Hget Hc. pose proof Hv as [Hk Hok].
  pose proof (keyed_get _ _ _ Hk Hget) as Hid.
  destruct (mark_email_as_read mid (graph w)) as [g [[] | e]] eqn:Hgw.
  2: { rewrite mark_done_unfold, Hget, Hc, Hgw. done. }
  rewrite (mark_done_success mid w item g Hget Hc Hid Hgw). cbv zeta.
  intros [= <- <-].
  assert (TodoItem_ok item = true) as Hitem.
  { clear -Hok Hget. unfold dict_values in Hok.
    induction (storage_items w) as [| [k v] d IH]; simpl in *; [done |].
    apply Forall_cons in Hok as [Hv Hd].
    destruct (decide (k = mid)); [by injection Hget as <- | by apply IH]. }
  set (w1 := mk_World _ _ _ _ _).
  assert (store_valid w1) as Hv1.
  { apply (store_valid_set w w1 (set_completed item true)); [done | done |].
    cbn [w1 storage_items message_id set_completed]. by rewrite Hid. }
  split; [done |]. by apply reloads_saved.
Qed.

Lemma add_manual_item_reloads subj sndr sched preview link (w w1 : World G)
    todo :
  store_valid w → dt_valid sched = true →
  add_manual_item clock subj sndr sched preview link w = (w1, Ok todo) →
  store_valid w1 ∧ reloads clock w1.
Proof.
  intros Hv Hs. pose proof Hv as [Hk Hok].
  pose proof (ok_well_formed _ Hok) as Hwf.
  destruct (aware sched) eqn:Ha.
  2: { by rewrite add_manual_item_naive_unfold. }
  rewrite (add_manual_item_unfold clock subj sndr sched preview link w _
             (all_of_aware _ Hwf) Ha).
  cbv zeta. intros [= <- <-].
  set (item := mk_TodoItem _ _ _ _ _ _ _ _ _).
  set (w1 := mk_World _ _ _ _ _).
  destruct (now_ok (ticks w)) as [Hn Hna].
  assert (TodoItem_ok item = true) as Hitem.
  { unfold TodoItem_ok, item. cbn [received_at scheduled_for created_at].
    by rewrite Hs, Ha, Hn, Hna. }
  assert (store_valid w1) as Hv1.
  { by apply (store_valid_set w w1 item). }
  split; [done |]. by apply reloads_saved.
Qed.

End Restart.

(** X22.  Every operation that saves leaves a file from which the program
    starts again without a loss.  On a keyed store of records with aware
    timestamps in range, with a clock that gives datetimes in range: after a
    [sync_unread_emails] that returned new records, a [mark_done] that
    completed a pending record, and an [add_manual_item] that returned, a
    new [TodoStorage] on the file holds the very items of the store, in
    their order, and the store is again such a store. *)
Theorem saved_store_reloads {G : Type} `{!GraphClient G}
    (clock : nat → datetime) (w : World G) :
  (∀ n, dt_valid (clock n) = true) →
  store_valid w →
  (∀ limit schedule_for w1 new,
     from_option dt_valid true schedule_for = true →
     OutlookTodoApp.sync_unread_emails clock limit schedule_for w
     = (w1, Ok new) →
     new ≠ [] → store_valid w1 ∧ reloads clock w1)
  ∧ (∀ mid item w1 item',
       dict_get mid (storage_items w) = Some item → completed item = false →
       OutlookTodoApp.mark_done mid w = (w1, Ok item') →
       store_valid w1 ∧ reloads clock w1)
  ∧ (∀ subj sndr sched preview link w1 todo,
       dt_valid sched = true →
       OutlookTodoApp.add_manual_item clock subj sndr sched preview link w
       = (w1, Ok todo) →
       store_valid w1 ∧ reloads clock w1).
Proof.
  intros Hclock Hv. split_and!.
  - intros. by eapply sync_unread_emails_reloads.
  - intros. by eapply mark_done_reloads.
  - intros. by eapply add_manual_item_reloads.
Qed.

Lemma sample_clock_valid n : dt_valid (sample_clock n) = true.
Proof.
  unfold dt_valid, fields_ok, sample_clock.
  cbn [year month day hour minute second microsecond tzinfo].
  pose proof (Z.mod_pos_bound (Z.of_nat n) 60 ltac:(lia)) as [Hlo Hhi].
  apply Z.leb_le in Hlo. assert ((Z.of_nat n mod 60 <=? 59) = true) as Hhi'
    by (apply Z.leb_le; lia).
  rewrite Hlo, Hhi'. reflexivity.
Qed.

Lemma saved_store_reloads_witness :
  store_valid synced_world ∧ reloads sample_clock synced_world.
Proof.
  assert (store_valid (empty_world [dummy_message])) as Hv.
  { split; [split; [apply NoDup_nil_2 | constructor] | constructor]. }
  exact (proj1 (@saved_store_reloads (list Message) InMemoryGraphClient
                  sample_clock (empty_world [dummy_message])
                  sample_clock_valid Hv)
           25 None synced_world [dummy_item] eq_refl
           ltac:(vm_compute; reflexivity) ltac:(discriminate)).
Defined.

(** ** The Markdown table *)


(** X24.  [export_markdown_string] only reads: whatever the outcome, the
    store, the file and the gateway are as before.  On a store it can list
    it returns the two heading rows followed by one row per record, in the
    order of [all], or by the row [_No tasks available_] when the store is
    empty. *)
Theorem export_markdown_string_table {G : Type}
    (format_datetime : datetime → string) (w : World G) :
  (export_markdown_string format_datetime w).1 = w
  ∧ (TodoStorage.well_formed (storage_items w) = true →
     ∃ items,
       TodoStorage.all w = (w, Ok items)
       ∧ export_markdown_string format_datetime w
         = (w, Ok (Str.join nl
                     ([ "| Subject | Sender | Scheduled | Status |";
                        "| --- | --- | --- | --- |" ]
                      ++ match items with
                         | [] => ["| _No tasks available_ |  |  |  |"]
                         | _ => table_row format_datetime <$> items
                         end)))
       ∧ (items = [] ↔ storage_items w = [])).
Proof.
  unfold export_markdown_string, TodoStorage.all, bind, TodoStorage.get_items,
    lift, ret. split.
  - by destruct (TodoStorage.all_of (storage_items w)).
  - intros Hwf. rewrite all_of_aware by done. eexists. split; [done |].
    split.
    + f_equal. f_equal. unfold to_markdown, table_rows.
      by destruct (sorted _ _).
    + split.
      * intros Hnil. apply (f_equal length) in Hnil.
        rewrite length_sorted, length_dict_values in Hnil.
        by destruct (storage_items w).
      * by intros ->.
Qed.

(** ** Exporting twice *)

Section ExportTwice.
Context {G : Type} `{!GraphClient G} (format_datetime : datetime → string).
Import TodoStorage OutlookTodoApp.

(** The text written under a name of the items does not depend on what
    the directory held. *)
Lemma write_items_base items dir dir' written written' name :
  name ∈ _filename_for <$> items →
  (write_items format_datetime items dir written).1 !! name
  = (write_items format_datetime items dir' written').1 !! name.
Proof.
  revert dir dir' written written'.
  induction items as [| item items IH]; intros dir dir' written written';
    [by intros ?%elem_of_nil |].
  rewrite fmap_cons. cbn [write_items]. cbv zeta. intros Hin.
  destruct (decide (name ∈ _filename_for <$> items)) as [Hi | Hni];
    [by apply IH |].
  apply elem_of_cons in Hin as [-> | ?]; [| done].
  destruct (write_items_spec format_datetime items
              (<[_filename_for item := item_to_markdown format_datetime item]> dir)
              (written ++ [_filename_for item])) as [_ Hdir].
  destruct (write_items_spec format_datetime items
              (<[_filename_for item := item_to_markdown format_datetime item]> dir')
              (written' ++ [_filename_for item])) as [_ Hdir'].
  rewrite (proj2 (Hdir _) Hni), (proj2 (Hdir' _) Hni).
  by rewrite !lookup_insert_eq.
Qed.

(** The directory after the export, file by file. *)
Lemma export_lookup items (output_dir : gmap string string) name :
  let res := write_items format_datetime items output_dir [] in
  set_fold (λ path d, delete path d) res.1
    (filter (λ p, is_md p) (dom res.1) ∖ list_to_set res.2) !! name
  = if decide (name ∈ _filename_for <$> items)
    then (write_items format_datetime items ∅ []).1 !! name
    else if is_md name then None else output_dir !! name.
Proof.
  cbv zeta.
  destruct (write_items_spec format_datetime items output_dir [])
    as [Hw Hdir].
  rewrite app_nil_l in Hw. rewrite lookup_set_fold_delete, Hw.
  destruct (decide (name ∈ _filename_for <$> items)) as [Hin | Hni].
  - rewrite decide_False.
    + by apply write_items_base.
    + rewrite elem_of_difference, elem_of_list_to_set. tauto.
  - rewrite (proj2 (Hdir name) Hni). case_decide as Hdel.
    + apply elem_of_difference in Hdel as [[Hmd _]%elem_of_filter _].
      by destruct (is_md name).
    + destruct (is_md name) eqn:Hmd; [| done].
      destruct (output_dir !! name) eqn:Hl; [| done]. exfalso. apply Hdel.
      apply elem_of_difference. split.
      * apply elem_of_filter. split; [by rewrite Hmd |].
        apply elem_of_dom. rewrite (proj2 (Hdir name) Hni). by eexists.
      * by rewrite elem_of_list_to_set.
Qed.

End ExportTwice.

(** X25.  [export_active_markdown] is idempotent: a second export into
    the directory that the first one left gives the same directory, file by
    file, and returns the same paths. *)
Theorem export_active_markdown_twice {G : Type} `{!GraphClient G}
    (format_datetime : datetime → string) (w : World G)
    (output_dir : gmap string string) :
  TodoStorage.well_formed (storage_items w) = true →
  ∃ dir paths,
    OutlookTodoApp.export_active_markdown format_datetime output_dir w
    = (w, Ok (dir, paths))
    ∧ OutlookTodoApp.export_active_markdown format_datetime dir w
      = (w, Ok (dir, paths)).
Proof.
  intros Hok.
  unfold OutlookTodoApp.export_active_markdown, bind at 1, TodoStorage.all,
    bind at 1, TodoStorage.get_items, lift.
  rewrite all_of_aware by done.
  set (act := filter (λ item, completed item = false) (sorted _ _)).
  pose proof (export_lookup format_datetime act output_dir) as Hfirst.
  pose proof (write_items_spec format_datetime act output_dir []) as Hspec.
  destruct (OutlookTodoApp.write_items format_datetime act output_dir [])
    as [dir1 written1] eqn:Hwr1.
  cbv zeta in Hfirst, Hspec. cbn [fst snd] in Hfirst, Hspec.
  destruct Hspec as [Hw1 _]. rewrite app_nil_l in Hw1.
  unfold ret. eexists _, _. split; [reflexivity |].
  unfold bind at 1, TodoStorage.all, bind at 1, TodoStorage.get_items, lift.
  rewrite all_of_aware by done. fold act.
  set (dir := set_fold _ dir1 _) in *.
  pose proof (export_lookup format_datetime act dir) as Hsecond.
  pose proof (write_items_spec format_datetime act dir []) as Hspec.
  destruct (OutlookTodoApp.write_items format_datetime act dir [])
    as [dir2 written2] eqn:Hwr2.
  cbv zeta in Hsecond, Hspec. cbn [fst snd] in Hsecond, Hspec.
  destruct Hspec as [Hw2 _]. rewrite app_nil_l in Hw2.
  unfold ret.
  assert (written2 = written1) as Hww by congruence.
  do 3 f_equal; [| by rewrite Hww].
  apply map_eq. intros name. rewrite Hsecond, Hfirst.
  destruct (decide (name ∈ _filename_for <$> act)); [done |].
  by destruct (is_md name).
Qed.

Lemma export_active_markdown_twice_witness :
  ∃ dir paths,
    OutlookTodoApp.export_active_markdown isoformat sample_dir synced_world
    = (synced_world, Ok (dir, paths))
    ∧ OutlookTodoApp.export_active_markdown isoformat dir synced_world
      = (synced_world, Ok (dir, paths)).
Proof.
  exact (@export_active_markdown_twice (list Message) InMemoryGraphClient
           isoformat synced_world sample_dir eq_refl).
Defined.

(** ** What a message becomes *)

(** X26.  The payload of a message always has something to show: its
    subject and its sender are never empty.  The subject is the one of the
    message, or ["(no subject)"] when that is absent or empty.  The sender
    is the name of the sender when there is one that is not empty, else the
    address when there is one that is not empty, else ["Unknown sender"];
    a message without [from] or without [emailAddress] has neither.  The
    id is the one of the message, and the schedule is the override when
    there is one and the time of reception otherwise. *)
Theorem to_todo_payload_shown (message : Message)
    (default_schedule : option datetime) (p : TodoPayload) :
  to_todo_payload message default_schedule = Ok p →
  let name := (msg_from message ≫= emailAddress) ≫= ea_name in
  let address := (msg_from message ≫= emailAddress) ≫= ea_address in
  let blank (o : option string) := o = None ∨ o = Some "" in
  p_message_id p = msg_id message
  ∧ p_subject p ≠ "" ∧ p_sender p ≠ ""
  ∧ (∀ s, msg_subject message = Some s → s ≠ "" → p_subject p = s)
  ∧ (blank (msg_subject message) → p_subject p = "(no subject)")
  ∧ (∀ n, name = Some n → n ≠ "" → p_sender p = n)
  ∧ (blank name → ∀ a, address = Some a → a ≠ "" → p_sender p = a)
  ∧ (blank name → blank address → p_sender p = "Unknown sender")
  ∧ parse_graph_datetime (msg_receivedDateTime message) = Ok (p_received_at p)
  ∧ p_scheduled_for p = default (p_received_at p) default_schedule.
Proof.
  intros Hp name address blank. unfold to_todo_payload in Hp.
  destruct (parse_graph_datetime _) as [received |]; [| done].
  cbn [rbind] in Hp. injection Hp as <-.
  cbn [p_message_id p_subject p_sender p_received_at p_scheduled_for].
  assert (∀ o b, b ≠ "" → str_or o b ≠ "") as Hor.
  { intros [[| ? ?] |] b Hb; done. }
  assert (extract_sender message
          = str_or name (str_or address "Unknown sender")) as Hsender.
  { unfold extract_sender, name, address.
    by destruct (msg_from message) as [[[e |]] |]. }
  split_and!; try done.
  - by apply Hor.
  - unfold extract_sender. by repeat apply Hor.
  - intros s -> Hs. by destruct s.
  - by intros [-> | ->].
  - rewrite Hsender. intros n -> Hn. by destruct n.
  - rewrite Hsender. intros Hname a -> Ha.
    destruct Hname as [-> | ->]; by destruct a.
  - rewrite Hsender. by intros [-> | ->] [-> | ->].
Qed.

Lemma to_todo_payload_shown_witness :
  ∃ p q, to_todo_payload dummy_message None = Ok p
         ∧ p_message_id p = "1"
         ∧ p_subject p = "Subject 1"
         ∧ p_sender p = "Alice"
         ∧ p_scheduled_for p = p_received_at p
         ∧ to_todo_payload bare_message None = Ok q
         ∧ p_subject q = "(no subject)"
         ∧ p_sender q = "Unknown sender".
Proof.
  eexists _, _. split; [reflexivity |].
  destruct (to_todo_payload_shown dummy_message None _ eq_refl)
    as (Hid & _ & _ & Hsubj & _ & Hname & _ & _ & _ & Hsched).
  destruct (to_todo_payload_shown bare_message None _ eq_refl)
    as (_ & _ & _ & _ & Hnosubj & _ & _ & Hnobody & _).
  split_and!; [exact Hid | by apply Hsubj | by apply Hname | exact Hsched
              | reflexivity | | ].
  - apply Hnosubj. by left.
  - apply Hnobody; by left.
Defined.

(** ** Timestamps with a trailing Z *)

Section TrailingZ.

Lemma ends_with_app_one c s : Str.ends_with c (s +:+ String c "") = true.
Proof.
  induction s as [| a s IH].
  - rewrite app_empty_l. simpl. apply Ascii.eqb_refl.
  - rewrite ?app_cons. cbn [Str.ends_with].
    destruct (s +:+ String c "") eqn:E; [by destruct s | done].
Qed.

Lemma drop_last_app_one c s : Str.drop_last (s +:+ String c "") = s.
Proof.
  induction s as [| a s IH]; [done |].
  rewrite ?app_cons. cbn [Str.drop_last].
  destruct (s +:+ String c "") eqn:E; [by destruct s |]. by rewrite IH.
Qed.

Lemma replace_app_one c t s :
  Str.find c s = None → Str.replace c t (s +:+ String c "") = s +:+ t.
Proof.
  induction s as [| a s IH].
  - intros _. rewrite !app_empty_l. simpl. rewrite Ascii.eqb_refl.
    clear. induction t as [| b t IH]; [done |]. rewrite ?app_cons. by f_equal.
  - rewrite ?app_cons. cbn [Str.find Str.replace].
    destruct (Ascii.eqb a c); [done |].
    destruct (Str.find c s); [done |]. intros _. by rewrite IH.
Qed.

(** The text of a naive datetime has no ["Z"]. *)
Lemma find_Z_isoformat d :
  dt_valid d = true → tzinfo d = None → Str.find "Z" (isoformat d) = None.
Proof.
  destruct d as [y mo dd h mi s us tz]. unfold dt_valid. cbn [year month day
    hour minute second microsecond tzinfo].
  intros [Hf _]%andb_prop ->. unfold fields_ok in Hf.
  repeat match goal with
         | H : _ && _ = true |- _ => apply andb_prop in H as [H ?]
         | H : (_ <=? _) = true |- _ => apply Z.leb_le in H
         end.
  pose proof (days_in_month_bound y mo).
  unfold isoformat, put4. cbn [year month day hour minute second
    microsecond tzinfo format_offset].
  rewrite !find_put2 by (done || dlia). cbn [Str.find Ascii.eqb Bool.eqb].
  rewrite !find_put2 by (done || dlia). cbn [Str.find Ascii.eqb Bool.eqb].
  rewrite !find_put2 by (done || dlia). cbn [Str.find Ascii.eqb Bool.eqb].
  rewrite find_format_time by (done || lia). done.
Qed.

Lemma isoformat_app_utc d :
  tzinfo d = None →
  isoformat d +:+ "+00:00" = isoformat (replace_tzinfo d (Some utc)).
Proof.
  destruct d as [y mo dd h mi s us tz]. cbn [tzinfo]. intros ->.
  unfold isoformat, put4, put2, format_time, put6.
  cbn [year month day hour minute second microsecond tzinfo replace_tzinfo
       format_offset].
  by destruct (us =? 0).
Qed.

End TrailingZ.

(** X27.  A timestamp as the mail API writes it, the text of a datetime
    without offset followed by ["Z"], is read as that datetime at UTC, by
    [models._parse_datetime] and by [GraphClient.parse_graph_datetime]
    alike; [parse_graph_datetime] reads the text without the ["Z"] in the
    same way. *)
Theorem trailing_Z_reads (d : datetime) :
  dt_valid d = true → tzinfo d = None →
  _parse_datetime (isoformat d +:+ "Z") = Ok (replace_tzinfo d (Some utc))
  ∧ parse_graph_datetime (isoformat d +:+ "Z")
    = Ok (replace_tzinfo d (Some utc))
  ∧ parse_graph_datetime (isoformat d) = Ok (replace_tzinfo d (Some utc)).
Proof.
  intros Hd Hn.
  pose proof (dt_valid_replace_utc _ Hd) as Hd'.
  pose proof (fromisoformat_isoformat _ Hd') as Hread.
  rewrite <- isoformat_app_utc in Hread by done.
  split_and!.
  - unfold _parse_datetime. rewrite ends_with_app_one.
    rewrite replace_app_one by (by apply find_Z_isoformat). exact Hread.
  - unfold parse_graph_datetime. rewrite ends_with_app_one, drop_last_app_one.
    rewrite Hread. cbn [rbind]. done.
  - apply parse_graph_datetime_naive;
      [by apply ends_with_Z_isoformat | by apply fromisoformat_isoformat
       | done].
Qed.

Lemma trailing_Z_reads_witness :
  _parse_datetime "2023-01-01T12:00:00Z" = Ok utc_noon
  ∧ parse_graph_datetime "2023-01-01T12:00:00Z" = Ok utc_noon
  ∧ parse_graph_datetime "2023-01-01T12:00:00" = Ok utc_noon.
Proof. exact (trailing_Z_reads naive_noon eq_refl eq_refl). Defined.

(** ** The document of a record *)

Section Document.

Lemma rstrip_idem s : Str.rstrip (Str.rstrip s) = Str.rstrip s.
Proof.
  induction s as [| a s IH]; [done |]. cbn [Str.rstrip].
  destruct (Str.rstrip s) as [| b r] eqn:E.
  - destruct (Str.is_space a) eqn:Ha; [done |]. cbn [Str.rstrip].
    by rewrite Ha.
  - cbn [Str.rstrip] in *. by rewrite IH.
Qed.

Lemma rstrip_cons_ink a s :
  Str.rstrip s ≠ "" → Str.rstrip (String a s) = String a (Str.rstrip s).
Proof. cbn [Str.rstrip]. by destruct (Str.rstrip s). Qed.

Lemma rstrip_ink_cons c s : Str.is_space c = false → Str.rstrip (String c s) ≠ "".
Proof.
  intros Hc. cbn [Str.rstrip]. destruct (Str.rstrip s); [by rewrite Hc | done].
Qed.

Lemma rstrip_ink_app u v : Str.rstrip v ≠ "" → Str.rstrip (u +:+ v) ≠ "".
Proof.
  intros Hv. induction u as [| a u IH]; [by rewrite app_empty_l |].
  rewrite ?app_cons. by rewrite rstrip_cons_ink.
Qed.

End Document.

(** X28.  The document of a record starts with a first-level heading,
    ["# "], and ends with exactly one line break: what stands before the
    last line break is not empty and has no white space at its end. *)
Theorem item_to_markdown_shape (format_datetime : datetime → string)
    (item : TodoItem) :
  ∃ body,
    OutlookTodoApp.item_to_markdown format_datetime item
    = "# " +:+ body +:+ nl
    ∧ body ≠ ""
    ∧ Str.rstrip body = body.
Proof.
  unfold OutlookTodoApp.item_to_markdown. cbv zeta.
  set (title := if Str.truthy (subject item) then subject item
                else "(no subject)").
  assert (∃ rest,
            ∀ lines',
              Str.join nl
                (["# " +:+ title; "";
                  "- **Sender:** " +:+ sender item;
                  "- **Received:** " +:+ format_datetime (received_at item);
                  "- **Scheduled:** "
                  +:+ format_datetime (scheduled_for item);
                  "- **Status:** "
                  +:+ (if completed item then done_label else pending_label)]
                 ++ lines')
              = String "#" (String " " (title +:+ nl +:+ nl
                                        +:+ String "-" (rest lines'))))
    as [rest Hjoin].
  { eexists (λ lines', _). intros lines'. cbn [app Str.join].
    rewrite ?app_cons, ?app_empty_l. reflexivity. }
  set (head := [_; _; _; _; _; _]) in *.
  assert (∃ lines', (if Str.truthy (body_preview item)
                     then match web_link item with
                          | Some l => if Str.truthy l
                                      then head ++ ["- **Link:** " +:+ l]
                                      else head
                          | None => head
                          end ++ [""; "## Preview"; ""; body_preview item]
                     else match web_link item with
                          | Some l => if Str.truthy l
                                      then head ++ ["- **Link:** " +:+ l]
                                      else head
                          | None => head
                          end) = head ++ lines') as [lines' ->].
  { destruct (Str.truthy (body_preview item));
      destruct (web_link item) as [l |]; try destruct (Str.truthy l);
      rewrite <- ?app_assoc; try (by eexists); by exists []; rewrite app_nil_r. }
  rewrite Hjoin. unfold Str.strip. cbn [Str.lstrip Str.is_space].
  change (Str.is_space "#") with false. cbv iota.
  assert (Str.rstrip (title +:+ nl +:+ nl +:+ String "-" (rest lines')) ≠ "")
    as Hink.
  { do 3 apply rstrip_ink_app. by apply rstrip_ink_cons. }
  rewrite rstrip_cons_ink.
  2: { rewrite rstrip_cons_ink by done. done. }
  rewrite rstrip_cons_ink by done.
  exists (Str.rstrip (title +:+ nl +:+ nl +:+ String "-" (rest lines'))).
  split; [| split; [exact Hink | apply rstrip_idem]].
  rewrite !app_cons, app_empty_l. reflexivity.
Qed.
